(** * zoracle-telegram: the alert engine and the copy-trade watcher

    A shallow embedding of [trading/alerts.py], [trading/copytrade.py] and the
    parts of [database/operations.py] and [utils/tokens.py] they call.

    - Python [float] is IEEE binary64: prices, thresholds, liquidity and the
      copy-trade limits are primitive floats, compared and computed with the
      kernel's binary64 operations.
    - A Python [dict] keeps its keys in insertion order: the module-level
      stores [price_alerts], [token_data] and [monitored_wallets] are
      association lists; [processed_transactions] is a finite set.
    - The functions return result dictionaries with either a ["success"] or an
      ["error"] key; they are the two constructors of [Result].
    - Calls that leave the process (token metadata, price and liquidity
      queries, the address check of web3) are fields of a [Feed] record: [None]
      stands for a raised exception. So is [str.lower], whose Unicode case
      tables are left out: the results hold for any function in its place.
    - A row is what the table gives back: a [Float] column of the SQLite
      engine reads a stored NaN as [None] and a stored [-0.0] as [0.0]. *)

From Stdlib Require Import ZArith Floats.
From stdpp Require Import base option list strings gmap.

Set Warnings "-inexact-float".
Local Open Scope Z_scope.

(** ** Binary64 comparisons *)

Module Float64.

Definition lt (x y : float) : bool := PrimFloat.ltb x y.
Definition le (x y : float) : bool := PrimFloat.leb x y.
(** Python's [x > y] and [x >= y] are the flipped IEEE comparisons. *)
Definition gt (x y : float) : bool := PrimFloat.ltb y x.
Definition ge (x y : float) : bool := PrimFloat.leb y x.

(** [bool(x)] of a float: false exactly for [0.0] and [-0.0]. *)
Definition bool_of_float (x : float) : bool := negb (PrimFloat.eqb x 0%float).

(** [if x] for an [Optional[float]]: [None] and zero are falsy. *)
Definition truthy (x : option float) : bool :=
  match x with
  | None => false
  | Some f => bool_of_float f
  end.

(** [x != x]: the float is a NaN. *)
Definition is_nan (x : float) : bool := negb (PrimFloat.eqb x x).

(** Where a float that is not a NaN stands in the order of the floats: the
    sign class first, then exponent and mantissa, reversed for the negative
    ones. *)
Definition rank (x : spec_float) : option (Z * Z * Z) :=
  match x with
  | S754_nan => None
  | S754_infinity true => Some (-2, 0, 0)
  | S754_infinity false => Some (2, 0, 0)
  | S754_zero _ => Some (0, 0, 0)
  | S754_finite true m e => Some (-1, - e, - Z.pos m)
  | S754_finite false m e => Some (1, e, Z.pos m)
  end.

Definition lex_compare (x y : Z * Z * Z) : comparison :=
  match x.1.1 ?= y.1.1 with
  | Eq => match x.1.2 ?= y.1.2 with
          | Eq => x.2 ?= y.2
          | c => c
          end
  | c => c
  end.

Definition lex_lt (x y : Z * Z * Z) : Prop :=
  x.1.1 < y.1.1
  \/ (x.1.1 = y.1.1
      /\ (x.1.2 < y.1.2 \/ (x.1.2 = y.1.2 /\ x.2 < y.2))).

End Float64.

(** ** Insertion-ordered dictionaries with string keys *)

Section PyDict.
Context {V : Type}.

Definition dict := list (string * V).

(** [d.get(k)] *)
Fixpoint dict_get (k : string) (d : dict) : option V :=
  match d with
  | [] => None
  | (k', v) :: d' => if decide (k' = k) then Some v else dict_get k d'
  end.

(** [k in d] *)
Definition dict_mem (k : string) (d : dict) : bool :=
  match dict_get k d with Some _ => true | None => false end.

(** [d[k] = v]: an existing key keeps its position, a new key goes last. *)
Fixpoint dict_set (k : string) (v : V) (d : dict) : dict :=
  match d with
  | [] => [(k, v)]
  | (k', v') :: d' =>
      if decide (k' = k) then (k, v) :: d' else (k', v') :: dict_set k v d'
  end.

(** [del d[k]] *)
Fixpoint dict_del (k : string) (d : dict) : dict :=
  match d with
  | [] => []
  | (k', v') :: d' =>
      if decide (k' = k) then dict_del k d' else (k', v') :: dict_del k d'
  end.

Definition dict_keys (d : dict) : list string := d.*1.
End PyDict.

Arguments dict V : clear implicits.

(** ** Result dictionaries *)

Inductive Result :=
  | Success (message : string)
  | Error (error : string).

Definition is_error (r : Result) : bool :=
  match r with Error _ => true | Success _ => false end.

(** ** database/models.py and database/operations.py *)

Module Database.

Record User := {
  user_id : Z;
  user_telegram_id : string;
  wallet_address : option string;
  encrypted_private_key : option string }.

Record Watchlist := {
  watchlist_id : Z;
  watchlist_user_id : Z;
  watchlist_name : string }.

(** What a [Float] column holds after a value was written to it and the row
    was read back ([commit], then [refresh]), with the SQLite engine that
    config.py sets up: a NaN is stored as NULL and read as [None], a negative
    zero is read as [0.0], and every other value comes back as it was. *)
Definition float_column (x : float) : option float :=
  if Float64.is_nan x then None
  else if PrimFloat.eqb x 0%float then Some 0%float
  else Some x.

Record WatchlistToken := {
  wt_id : Z;
  wt_watchlist_id : Z;
  wt_token_address : string;
  wt_token_symbol : string;
  alert_price_high : option float;
  alert_price_low : option float }.

(** The two [Float] columns are nullable: [None] is NULL. *)
Record CopyTradeConfig := {
  config_id : Z;
  config_user_id : Z;
  target_wallet : string;
  slippage_guard : option float;
  active : bool;
  sandbox_mode : bool;
  max_eth_per_trade : option float }.

(** The four tables the two engines touch. *)
Record DB := {
  users : list User;
  watchlists : list Watchlist;
  watchlist_tokens : list WatchlistToken;
  copy_trade_configs : list CopyTradeConfig }.

(** An integer primary key: one above the largest key of the table. *)
Definition next_id (ids : list Z) : Z := 1 + foldr Z.max 0 ids.

(** [not s] for a nullable string column. *)
Definition str_truthy (s : option string) : bool :=
  match s with
  | None => false
  | Some s => negb (bool_decide (s = ""%string))
  end.

Definition get_user_by_telegram_id (db : DB) (telegram_id : string)
  : option User :=
  find (fun u => bool_decide (user_telegram_id u = telegram_id)) (users db).

Definition create_user (db : DB) (telegram_id : string) : DB * option User :=
  match get_user_by_telegram_id db telegram_id with
  | Some u => (db, Some u)          (* IntegrityError: rollback, return the row *)
  | None =>
      let u := {| user_id := next_id (user_id <$> users db);
                  user_telegram_id := telegram_id;
                  wallet_address := None;
                  encrypted_private_key := None |} in
      ({| users := users db ++ [u];
          watchlists := watchlists db;
          watchlist_tokens := watchlist_tokens db;
          copy_trade_configs := copy_trade_configs db |}, Some u)
  end.

(** The first row with that telegram id gets the wallet. *)
Fixpoint set_wallet (telegram_id address key : string) (l : list User)
  : list User :=
  match l with
  | [] => []
  | u :: l' =>
      if bool_decide (user_telegram_id u = telegram_id)
      then {| user_id := user_id u;
              user_telegram_id := user_telegram_id u;
              wallet_address := Some address;
              encrypted_private_key := Some key |} :: l'
      else u :: set_wallet telegram_id address key l'
  end.

Definition update_user_wallet (db : DB) (telegram_id address key : string)
  : DB :=
  {| users := set_wallet telegram_id address key (users db);
     watchlists := watchlists db;
     watchlist_tokens := watchlist_tokens db;
     copy_trade_configs := copy_trade_configs db |}.

Definition get_user_watchlists (db : DB) (telegram_id : string)
  : list Watchlist :=
  match get_user_by_telegram_id db telegram_id with
  | None => []
  | Some u =>
      filter (fun w => watchlist_user_id w = user_id u) (watchlists db)
  end.

Definition add_token_to_watchlist (db : DB) (watchlist_id : Z)
    (token_address token_symbol : string)
    (alert_price_high alert_price_low : option float) : DB :=
  let row := {| wt_id := next_id (wt_id <$> watchlist_tokens db);
                wt_watchlist_id := watchlist_id;
                wt_token_address := token_address;
                wt_token_symbol := token_symbol;
                alert_price_high := alert_price_high ≫= float_column;
                alert_price_low := alert_price_low ≫= float_column |} in
  {| users := users db;
     watchlists := watchlists db;
     watchlist_tokens := watchlist_tokens db ++ [row];
     copy_trade_configs := copy_trade_configs db |}.

Definition create_copy_trade_config (db : DB) (telegram_id target : string)
    (slippage : float) (act sandbox : bool) (max_eth : float)
  : DB * option CopyTradeConfig :=
  match get_user_by_telegram_id db telegram_id with
  | None => (db, None)
  | Some u =>
      let c := {| config_id := next_id (config_id <$> copy_trade_configs db);
                  config_user_id := user_id u;
                  target_wallet := target;
                  slippage_guard := float_column slippage;
                  active := act;
                  sandbox_mode := sandbox;
                  max_eth_per_trade := float_column max_eth |} in
      ({| users := users db;
          watchlists := watchlists db;
          watchlist_tokens := watchlist_tokens db;
          copy_trade_configs := copy_trade_configs db ++ [c] |}, Some c)
  end.

(** The partial update of one row, read back: an argument that is [None]
    keeps the column. *)
Definition patch_config (c : CopyTradeConfig) (act : option bool)
    (slippage : option float) (sandbox : option bool) (max_eth : option float)
  : CopyTradeConfig :=
  {| config_id := config_id c;
     config_user_id := config_user_id c;
     target_wallet := target_wallet c;
     slippage_guard := match slippage with
                       | Some x => float_column x
                       | None => slippage_guard c
                       end;
     active := default (active c) act;
     sandbox_mode := default (sandbox_mode c) sandbox;
     max_eth_per_trade := match max_eth with
                          | Some x => float_column x
                          | None => max_eth_per_trade c
                          end |}.

(** [.filter(CopyTradeConfig.id == config_id).first()] and the update of that
    row in place. *)
Fixpoint patch_first (cid : Z) (act : option bool) (slippage : option float)
    (sandbox : option bool) (max_eth : option float)
    (l : list CopyTradeConfig) : list CopyTradeConfig * option CopyTradeConfig :=
  match l with
  | [] => ([], None)
  | c :: l' =>
      if bool_decide (config_id c = cid)
      then let c' := patch_config c act slippage sandbox max_eth in
           (c' :: l', Some c')
      else let '(l'', r) := patch_first cid act slippage sandbox max_eth l' in
           (c :: l'', r)
  end.

Definition update_copy_trade_config (db : DB) (cid : Z) (act : option bool)
    (slippage : option float) (sandbox : option bool) (max_eth : option float)
  : DB * option CopyTradeConfig :=
  let '(l, r) := patch_first cid act slippage sandbox max_eth
                   (copy_trade_configs db) in
  ({| users := users db;
      watchlists := watchlists db;
      watchlist_tokens := watchlist_tokens db;
      copy_trade_configs := l |}, r).

Definition get_user_copy_trade_configs (db : DB) (telegram_id : string)
  : list CopyTradeConfig :=
  match get_user_by_telegram_id db telegram_id with
  | None => []
  | Some u =>
      filter (fun c => config_user_id c = user_id u) (copy_trade_configs db)
  end.

End Database.

(** ** utils/tokens.py and the web3 client: what the engines ask the chain *)

Record TokenInfo := {
  name : string;
  symbol : string;
  decimals : Z }.

Record PriceData := {
  price_in_eth : float;
  price_in_usd : float }.

Record LiquidityData := {
  ld_eth_liquidity : float;
  ld_token_liquidity : float;
  liquidity_usd : float }.

(** What a call gets from outside the code of the engines. The queries to the
    chain, as seen during one call: each either answers or raises ([None]).
    And [lower], Python's [str.lower], which follows the case tables of
    Unicode: it is not spelled out here, whatever holds of a call holds for
    any function in its place. *)
Record Feed := {
  get_token_info : string -> option TokenInfo;
  get_token_price : string -> option PriceData;
  get_token_liquidity : string -> option LiquidityData;
  is_address : string -> bool;
  lower : string -> string }.

(** [str.lower] on a string of ASCII characters, where it only moves [A-Z] to
    [a-z]: the [lower] of the feeds of the examples, whose names are ASCII. *)
Definition ascii_lower_char (c : Ascii.ascii) : Ascii.ascii :=
  let n := Ascii.nat_of_ascii c in
  if (Nat.leb 65 n && Nat.leb n 90)%bool
  then Ascii.ascii_of_nat (n + 32) else c.

Fixpoint ascii_lower (s : string) : string :=
  match s with
  | EmptyString => EmptyString
  | String c s' => String (ascii_lower_char c) (ascii_lower s')
  end.

(** The placeholders of utils/tokens.py answer the same for every token. *)
Definition mock_get_token_price (token_address : string) : option PriceData :=
  Some {| price_in_eth := 0.001%float; price_in_usd := 2.5%float |}.

Definition mock_get_token_liquidity (token_address : string)
  : option LiquidityData :=
  Some {| ld_eth_liquidity := 10%float;
          ld_token_liquidity := 10000%float;
          liquidity_usd := 25000%float |}.

(** ** trading/alerts.py *)

Module Alerts.
Import Database.

(** An entry of [price_alerts[token_address]]. *)
Record Alert := {
  telegram_id : string;
  price_high : option float;
  price_low : option float }.

(** An entry of [token_data]; a key that was never written is [None]. *)
Record TokenData := {
  price_eth : option float;
  price_usd : option float;
  eth_liquidity : option float;
  token_liquidity : option float }.

(** The database and the two module-level stores. *)
Record State := {
  db : DB;
  price_alerts : dict (list Alert);
  token_data : dict TokenData }.

Definition initial (d : DB) : State :=
  {| db := d; price_alerts := []; token_data := [] |}.

Inductive TriggeredAlert :=
  | PriceHighAlert (telegram_id token_address : string) (info : TokenInfo)
      (threshold current_price : float)
  | PriceLowAlert (telegram_id token_address : string) (info : TokenInfo)
      (threshold current_price : float)
  | LiquidityAlert (telegram_id token_address : string) (info : TokenInfo)
      (previous_liquidity current_liquidity change_percent : float).

(** The loop over the alerts of one token that looks for the caller's alert
    and overwrites its thresholds; [None] when the loop ends without a
    match. *)
Fixpoint update_existing (tid : string) (high low : option float)
    (alerts : list Alert) : option (list Alert) :=
  match alerts with
  | [] => None
  | a :: rest =>
      if bool_decide (telegram_id a = tid)
      then Some ({| telegram_id := telegram_id a;
                    price_high := high; price_low := low |} :: rest)
      else cons a <$> update_existing tid high low rest
  end.

Definition add_price_alert (feed : Feed) (st : State)
    (tid token_address : string) (high low : option float)
    (watchlist : option string) : State * Result :=
  match get_user_by_telegram_id (db st) tid with
  | None => (st, Error "User not found")
  | Some _ =>
  match get_token_info feed token_address with
  | None => (st, Error "Error adding price alert")
  | Some token_info =>
  let after_watchlist : option DB :=
    if str_truthy watchlist then
      match find (fun wl => bool_decide (lower feed (watchlist_name wl)
                                         = lower feed (default "" watchlist)))
                 (get_user_watchlists (db st) tid) with
      | None => None
      | Some wl =>
          Some (add_token_to_watchlist (db st) (watchlist_id wl)
                  token_address (symbol token_info) high low)
      end
    else Some (db st) in
  match after_watchlist with
  | None => (st, Error "Watchlist not found")
  | Some db' =>
  let alerts := default [] (dict_get token_address (price_alerts st)) in
  match update_existing tid high low alerts with
  | Some alerts' =>
      ({| db := db';
          price_alerts := dict_set token_address alerts' (price_alerts st);
          token_data := token_data st |},
       Success "Price alert updated successfully!")
  | None =>
      let alert := {| telegram_id := tid;
                      price_high := high; price_low := low |} in
      let pa := dict_set token_address (alerts ++ [alert]) (price_alerts st) in
      if dict_mem token_address (token_data st)
      then ({| db := db'; price_alerts := pa; token_data := token_data st |},
            Success "Price alert added successfully!")
      else
        match get_token_price feed token_address,
              get_token_liquidity feed token_address with
        | Some price, Some liquidity =>
            let rec := {| price_eth := Some (price_in_eth price);
                          price_usd := Some (price_in_usd price);
                          eth_liquidity := Some (ld_eth_liquidity liquidity);
                          token_liquidity :=
                            Some (ld_token_liquidity liquidity) |} in
            ({| db := db'; price_alerts := pa;
                token_data := dict_set token_address rec (token_data st) |},
             Success "Price alert added successfully!")
        | _, _ =>
            (* the exception leaves the appended alert behind *)
            ({| db := db'; price_alerts := pa; token_data := token_data st |},
             Error "Error adding price alert")
        end
  end end end end.

(** [enumerate] until the caller's alert, then [pop(i)]. *)
Fixpoint pop_alert (tid : string) (alerts : list Alert)
  : option (list Alert) :=
  match alerts with
  | [] => None
  | a :: rest =>
      if bool_decide (telegram_id a = tid) then Some rest
      else cons a <$> pop_alert tid rest
  end.

Definition remove_price_alert (st : State) (tid token_address : string)
  : State * Result :=
  match dict_get token_address (price_alerts st) with
  | None => (st, Error "Alert not found")
  | Some alerts =>
      match pop_alert tid alerts with
      | Some alerts' =>
          ({| db := db st;
              price_alerts :=
                match alerts' with
                | [] => dict_del token_address (price_alerts st)
                | _ => dict_set token_address alerts' (price_alerts st)
                end;
              token_data := token_data st |},
           Success "Price alert removed successfully!")
      | None => (st, Error "Alert not found")
      end
  end.

(** [price_high and previous_price < price_high and current_price >= price_high] *)
Definition crossed_high (a : Alert) (previous current : float) : bool :=
  match price_high a with
  | Some t => Float64.bool_of_float t && Float64.lt previous t
              && Float64.ge current t
  | None => false
  end.

(** [price_low and previous_price > price_low and current_price <= price_low] *)
Definition crossed_low (a : Alert) (previous current : float) : bool :=
  match price_low a with
  | Some t => Float64.bool_of_float t && Float64.gt previous t
              && Float64.le current t
  | None => false
  end.

(** The body of the loop over the alerts of a token: what it appends to
    [triggered_alerts], and whether it ran to its end ([false]: the token
    metadata query raised). *)
Definition check_alert (feed : Feed) (token_address : string)
    (previous current : float) (a : Alert) : list TriggeredAlert * bool :=
  let high :=
    if crossed_high a previous current then
      match get_token_info feed token_address with
      | None => None
      | Some info =>
          Some [PriceHighAlert (telegram_id a) token_address info
                  (default 0%float (price_high a)) current]
      end
    else Some [] in
  match high with
  | None => ([], false)
  | Some evs =>
      if crossed_low a previous current then
        match get_token_info feed token_address with
        | None => (evs, false)
        | Some info =>
            (evs ++ [PriceLowAlert (telegram_id a) token_address info
                       (default 0%float (price_low a)) current], true)
        end
      else (evs, true)
  end.

Fixpoint check_alerts (feed : Feed) (token_address : string)
    (previous current : float) (alerts : list Alert) : list TriggeredAlert :=
  match alerts with
  | [] => []
  | a :: rest =>
      let '(evs, finished) :=
        check_alert feed token_address previous current a in
      if finished
      then evs ++ check_alerts feed token_address previous current rest
      else evs
  end.

Definition empty_record : TokenData :=
  {| price_eth := None; price_usd := None;
     eth_liquidity := None; token_liquidity := None |}.

(** [token_data.get(token_address, {}).get("price_eth", current_price)] *)
Definition previous_price (td : dict TokenData) (token_address : string)
    (current : float) : float :=
  match dict_get token_address td with
  | Some r => default current (price_eth r)
  | None => current
  end.

(** One iteration of the loop over [price_alerts.items()]. *)
Definition check_token (feed : Feed) (token_address : string)
    (alerts : list Alert) (td : dict TokenData)
  : dict TokenData * list TriggeredAlert :=
  match get_token_price feed token_address with
  | None => (td, [])
  | Some price =>
      let current := price_in_eth price in
      let previous := previous_price td token_address current in
      let r := default empty_record (dict_get token_address td) in
      let r' := {| price_eth := Some current;
                   price_usd := Some (price_in_usd price);
                   eth_liquidity := eth_liquidity r;
                   token_liquidity := token_liquidity r |} in
      (dict_set token_address r' td,
       check_alerts feed token_address previous current alerts)
  end.

Fixpoint check_tokens (feed : Feed) (items : dict (list Alert))
    (td : dict TokenData) : dict TokenData * list TriggeredAlert :=
  match items with
  | [] => (td, [])
  | (token_address, alerts) :: rest =>
      let '(td1, evs1) := check_token feed token_address alerts td in
      let '(td2, evs2) := check_tokens feed rest td1 in
      (td2, evs1 ++ evs2)
  end.

Definition check_price_alerts (feed : Feed) (st : State)
  : State * list TriggeredAlert :=
  let '(td, evs) := check_tokens feed (price_alerts st) (token_data st) in
  ({| db := db st; price_alerts := price_alerts st; token_data := td |}, evs).

(** [((current / previous) - 1) * 100] when [previous > 0], else [0]. *)
Definition change_percent (previous current : float) : float :=
  if Float64.gt previous 0%float
  then ((current / previous - 1) * 100)%float
  else 0%float.

(** [abs(change_percent) >= 20] *)
Definition significant (change : float) : bool :=
  Float64.ge (PrimFloat.abs change) 20%float.

(** The set of telegram ids with an alert on the token. *)
Definition users_of (pa : dict (list Alert)) (token_address : string)
  : gset string :=
  list_to_set (telegram_id <$> default [] (dict_get token_address pa)).

(** One iteration of the loop over [token_data.items()]. *)
Definition check_liquidity (feed : Feed) (pa : dict (list Alert))
    (token_address : string) (data : TokenData)
  : TokenData * list TriggeredAlert :=
  match get_token_liquidity feed token_address with
  | None => (data, [])
  | Some liquidity =>
      let current := ld_eth_liquidity liquidity in
      let previous := default current (eth_liquidity data) in
      let data' := {| price_eth := price_eth data;
                      price_usd := price_usd data;
                      eth_liquidity := Some current;
                      token_liquidity :=
                        Some (ld_token_liquidity liquidity) |} in
      let change := change_percent previous current in
      if significant change then
        match get_token_info feed token_address with
        | None => (data', [])
        | Some info =>
            (data',
             (fun tid => LiquidityAlert tid token_address info
                           previous current change)
               <$> elements (users_of pa token_address))
        end
      else (data', [])
  end.

Definition check_liquidity_changes (feed : Feed) (st : State)
  : State * list TriggeredAlert :=
  ({| db := db st;
      price_alerts := price_alerts st;
      token_data :=
        (fun '(t, d) => (t, (check_liquidity feed (price_alerts st) t d).1))
          <$> token_data st |},
   flat_map (fun '(t, d) => (check_liquidity feed (price_alerts st) t d).2)
     (token_data st)).

(** One round of [start_alert_monitoring]: prices, then liquidity. *)
Definition monitoring_round (feed : Feed) (st : State)
  : State * list TriggeredAlert :=
  let '(st1, price_evs) := check_price_alerts feed st in
  let '(st2, liquidity_evs) := check_liquidity_changes feed st1 in
  (st2, price_evs ++ liquidity_evs).

(** What can happen to the engine's state during the life of the process. *)
Inductive Op :=
  | OpCreateUser (telegram_id : string)
  | OpAdd (feed : Feed) (telegram_id token_address : string)
      (high low : option float) (watchlist : option string)
  | OpRemove (telegram_id token_address : string)
  | OpCheckPrices (feed : Feed)
  | OpCheckLiquidity (feed : Feed).

Definition step (st : State) (op : Op) : State * list TriggeredAlert :=
  match op with
  | OpCreateUser tid =>
      ({| db := (create_user (db st) tid).1;
          price_alerts := price_alerts st;
          token_data := token_data st |}, [])
  | OpAdd feed tid token_address high low watchlist =>
      ((add_price_alert feed st tid token_address high low watchlist).1, [])
  | OpRemove tid token_address =>
      ((remove_price_alert st tid token_address).1, [])
  | OpCheckPrices feed => check_price_alerts feed st
  | OpCheckLiquidity feed => check_liquidity_changes feed st
  end.

Fixpoint run (st : State) (ops : list Op) : State * list TriggeredAlert :=
  match ops with
  | [] => (st, [])
  | op :: ops' =>
      let '(st1, out1) := step st op in
      let '(st2, out2) := run st1 ops' in
      (st2, out1 ++ out2)
  end.

(** No token is listed twice and no subscriber has two alerts on a token:
    what the stores look like in every state the engine can reach. *)
Definition well_formed (st : State) : Prop :=
  NoDup (dict_keys (price_alerts st))
  /\ Forall (fun kv => NoDup (telegram_id <$> kv.2)) (price_alerts st).

(** The events of one kind for one subscriber and token. *)
Definition is_high_for (tid token_address : string) (e : TriggeredAlert)
  : bool :=
  match e with
  | PriceHighAlert u t _ _ _ =>
      bool_decide (u = tid) && bool_decide (t = token_address)
  | _ => false
  end.

Definition is_low_for (tid token_address : string) (e : TriggeredAlert)
  : bool :=
  match e with
  | PriceLowAlert u t _ _ _ =>
      bool_decide (u = tid) && bool_decide (t = token_address)
  | _ => false
  end.

Definition is_liquidity_for (tid token_address : string) (e : TriggeredAlert)
  : bool :=
  match e with
  | LiquidityAlert u t _ _ _ _ =>
      bool_decide (u = tid) && bool_decide (t = token_address)
  | _ => false
  end.

Definition count_events (p : TriggeredAlert -> bool)
    (evs : list TriggeredAlert) : nat :=
  length (filter (fun e => p e = true) evs).

Definition event_token (e : TriggeredAlert) : string :=
  match e with
  | PriceHighAlert _ t _ _ _ | PriceLowAlert _ t _ _ _
  | LiquidityAlert _ t _ _ _ _ => t
  end.

Definition event_subscriber (e : TriggeredAlert) : string :=
  match e with
  | PriceHighAlert u _ _ _ _ | PriceLowAlert u _ _ _ _
  | LiquidityAlert u _ _ _ _ _ => u
  end.

(** A predicate on events that only holds for events of one subscriber on one
    token. *)
Definition about (tid token : string) (p : TriggeredAlert -> bool) : Prop :=
  forall e, p e = true -> event_subscriber e = tid /\ event_token e = token.

(** What the loop body appends for one alert when the token metadata is
    available. *)
Definition alert_events (info : TokenInfo) (token_address : string)
    (previous current : float) (a : Alert) : list TriggeredAlert :=
  (if crossed_high a previous current
   then [PriceHighAlert (telegram_id a) token_address info
           (default 0%float (price_high a)) current]
   else [])
  ++ (if crossed_low a previous current
      then [PriceLowAlert (telegram_id a) token_address info
              (default 0%float (price_low a)) current]
      else []).

(** The alert of a subscriber on a token, if there is one. *)
Definition subscription (st : State) (tid token_address : string)
  : option Alert :=
  find (fun a => bool_decide (telegram_id a = tid))
    (default [] (dict_get token_address (price_alerts st))).

(** How many alerts a subscriber has on a token. *)
Definition subscriptions (st : State) (tid token_address : string) : nat :=
  length (filter (fun a => telegram_id a = tid)
            (default [] (dict_get token_address (price_alerts st)))).

(** The price the next poll of the token compares against, if one is
    recorded. *)
Definition recorded_price (st : State) (token_address : string)
  : option float :=
  dict_get token_address (token_data st) ≫= price_eth.

(** An entry of the listing of [get_user_alerts]. *)
Record UserAlert := {
  ua_token_address : string;
  ua_info : TokenInfo;
  ua_price_high : option float;
  ua_price_low : option float;
  ua_current_price : float }.

(** [token_data.get(token_address, {}).get("price_eth", 0)] *)
Definition current_price_of (td : dict TokenData) (token_address : string)
  : float :=
  default 0%float (dict_get token_address td ≫= price_eth).

(** The inner loop of [get_user_alerts] over the alerts of one token: the
    caller's alerts, each skipped when the token metadata query raises. *)
Definition user_alerts_of (feed : Feed) (td : dict TokenData) (tid : string)
    (token_address : string) (alerts : list Alert) : list UserAlert :=
  flat_map
    (fun a =>
       if bool_decide (telegram_id a = tid) then
         match get_token_info feed token_address with
         | Some info =>
             [{| ua_token_address := token_address;
                 ua_info := info;
                 ua_price_high := price_high a;
                 ua_price_low := price_low a;
                 ua_current_price := current_price_of td token_address |}]
         | None => []
         end
       else [])
    alerts.

(** The result of [get_user_alerts]: the error dictionary, or the list under
    ["alerts"] (["count"] is its length). *)
Inductive Listing :=
  | ListingError (error : string)
  | Listed (alerts : list UserAlert).

Definition get_user_alerts (feed : Feed) (st : State) (tid : string)
  : Listing :=
  match get_user_by_telegram_id (db st) tid with
  | None => ListingError "User not found"
  | Some _ =>
      Listed
        (flat_map
           (fun '(token_address, alerts) =>
              user_alerts_of feed (token_data st) tid token_address alerts)
           (price_alerts st))
  end.

(** What the stores look like in every state the engine reaches: well formed,
    no token with an empty list of alerts, no token with two records. *)
Definition reachable_shape (st : State) : Prop :=
  well_formed st
  /\ Forall (fun kv => kv.2 <> []) (price_alerts st)
  /\ NoDup (dict_keys (token_data st)).

(** No token is listed with an empty list of alerts. *)
Definition nonempty_lists (st : State) : Prop :=
  Forall (fun kv : string * list Alert => kv.2 <> []) (price_alerts st).

Definition is_price_event (e : TriggeredAlert) : bool :=
  match e with
  | LiquidityAlert _ _ _ _ _ _ => false
  | _ => true
  end.

(** The price events of one subscriber on one token. *)
Definition is_price_event_for (tid token_address : string)
    (e : TriggeredAlert) : bool :=
  is_price_event e && bool_decide (event_subscriber e = tid)
  && bool_decide (event_token e = token_address).

(** The price query of an operation, when it makes one, fails for the token
    or answers the given price. *)
Definition answers_price (token_address : string) (p : float) (op : Op)
  : Prop :=
  match op with
  | OpAdd feed _ _ _ _ _ | OpCheckPrices feed =>
      match get_token_price feed token_address with
      | Some price => price_in_eth price = p
      | None => True
      end
  | _ => True
  end.

End Alerts.

(** ** trading/copytrade.py *)

Module CopyTrade.
Import Database.

(** An entry of [monitored_wallets[target_wallet]]. The ["active"] key is only
    written by an update, so it may be missing. *)
Record UserConfig := {
  uc_telegram_id : string;
  uc_config_id : Z;
  uc_slippage_guard : float;
  uc_max_eth_per_trade : float;
  uc_sandbox_mode : bool;
  uc_active : option bool }.

Record Transaction := {
  tx_hash : string;
  tx_from : string;
  tx_to : string;
  tx_value : Z }.

(** The database and the two module-level stores. *)
Record State := {
  db : DB;
  monitored_wallets : dict (list UserConfig);
  processed_transactions : gset string }.

Definition initial (d : DB) : State :=
  {| db := d; monitored_wallets := []; processed_transactions := ∅ |}.

(** The point of [process_transaction] where a trade would be mirrored for one
    copying user (the code logs "Would copy trade for user ..."): the entry
    of the user and the transaction it mirrors. *)
Record MirrorIntent := {
  user_config : UserConfig;
  source_tx : string;
  source_wallet : string }.

Definition setup_copy_trading (feed : Feed) (st : State)
    (telegram_id target : string) (slippage max_eth : float) (sandbox : bool)
  : State * Result :=
  if negb (is_address feed target)
  then (st, Error "Invalid wallet address")
  else
    match get_user_by_telegram_id (db st) telegram_id with
    | None => (st, Error "No wallet found")
    | Some user =>
        if negb (str_truthy (wallet_address user))
        then (st, Error "No wallet found")
        else
          match create_copy_trade_config (db st) telegram_id target
                  slippage true sandbox max_eth with
          | (db', None) =>
              ({| db := db';
                  monitored_wallets := monitored_wallets st;
                  processed_transactions := processed_transactions st |},
               Error "Error setting up copy trading")
          | (db', Some config) =>
              let entry := {| uc_telegram_id := telegram_id;
                              uc_config_id := config_id config;
                              uc_slippage_guard := slippage;
                              uc_max_eth_per_trade := max_eth;
                              uc_sandbox_mode := sandbox;
                              uc_active := None |} in
              let configs :=
                default [] (dict_get target (monitored_wallets st)) in
              ({| db := db';
                  monitored_wallets :=
                    dict_set target (configs ++ [entry])
                      (monitored_wallets st);
                  processed_transactions := processed_transactions st |},
               Success "Copy trading set up successfully!")
          end
    end.

(** The writes to [cfg] of an update that does not deactivate. *)
Definition patch_entry (cfg : UserConfig) (act : option bool)
    (slippage : option float) (sandbox : option bool) (max_eth : option float)
  : UserConfig :=
  {| uc_telegram_id := uc_telegram_id cfg;
     uc_config_id := uc_config_id cfg;
     uc_slippage_guard := default (uc_slippage_guard cfg) slippage;
     uc_max_eth_per_trade := default (uc_max_eth_per_trade cfg) max_eth;
     uc_sandbox_mode := default (uc_sandbox_mode cfg) sandbox;
     uc_active := match act with Some a => Some a | None => uc_active cfg end |}.

(** The inner loop over the entries of one wallet, up to its [break]: [None]
    when no entry has the config id; otherwise the list after [pop(i)] (a
    deactivation: the later writes go to the popped entry) or with the entry
    rewritten. *)
Fixpoint update_configs (cid : Z) (act : option bool) (slippage : option float)
    (sandbox : option bool) (max_eth : option float)
    (configs : list UserConfig) : option (list UserConfig) :=
  match configs with
  | [] => None
  | cfg :: rest =>
      if bool_decide (uc_config_id cfg = cid) then
        match act with
        | Some false => Some rest
        | _ => Some (patch_entry cfg act slippage sandbox max_eth :: rest)
        end
      else cons cfg <$> update_configs cid act slippage sandbox max_eth rest
  end.

(** The outer loop over [monitored_wallets.items()]. Deleting a wallet whose
    list became empty changes the size of the dictionary under iteration: the
    next step of the loop raises ([false]), with the deletion done. A list
    can only become empty by [pop], the rewrite keeps its entry. *)
Fixpoint update_wallets (cid : Z) (act : option bool) (slippage : option float)
    (sandbox : option bool) (max_eth : option float)
    (items : dict (list UserConfig)) (mw : dict (list UserConfig))
  : dict (list UserConfig) * bool :=
  match items with
  | [] => (mw, true)
  | (wallet, configs) :: rest =>
      match update_configs cid act slippage sandbox max_eth configs with
      | None => update_wallets cid act slippage sandbox max_eth rest mw
      | Some [] => (dict_del wallet mw, false)
      | Some configs' =>
          update_wallets cid act slippage sandbox max_eth rest
            (dict_set wallet configs' mw)
      end
  end.

Definition update_copy_trading (st : State) (telegram_id : string) (cid : Z)
    (act : option bool) (slippage : option float) (sandbox : option bool)
    (max_eth : option float) : State * Result :=
  match get_user_by_telegram_id (db st) telegram_id with
  | None => (st, Error "User not found")
  | Some _ =>
      match update_copy_trade_config (db st) cid act slippage sandbox
              max_eth with
      | (db', None) =>
          ({| db := db';
              monitored_wallets := monitored_wallets st;
              processed_transactions := processed_transactions st |},
           Error "Configuration not found")
      | (db', Some _) =>
          let '(mw, finished) :=
            update_wallets cid act slippage sandbox max_eth
              (monitored_wallets st) (monitored_wallets st) in
          ({| db := db';
              monitored_wallets := mw;
              processed_transactions := processed_transactions st |},
           if finished
           then Success "Copy trading configuration updated successfully!"
           else Error "Error updating copy trading")
      end
  end.

(** [not user or not user.wallet_address or not user.encrypted_private_key]
    negated: the copying user can trade. *)
Definition can_trade (d : DB) (telegram_id : string) : bool :=
  match get_user_by_telegram_id d telegram_id with
  | None => false
  | Some user => str_truthy (wallet_address user)
                 && str_truthy (encrypted_private_key user)
  end.

Definition process_transaction (st : State) (transaction : Transaction)
  : State * list MirrorIntent :=
  if bool_decide (tx_hash transaction ∈ processed_transactions st)
  then (st, [])
  else
    let st' := {| db := db st;
                  monitored_wallets := monitored_wallets st;
                  processed_transactions :=
                    {[ tx_hash transaction ]} ∪ processed_transactions st |} in
    match dict_get (tx_from transaction) (monitored_wallets st) with
    | None => (st', [])
    | Some copying_users =>
        (st',
         (fun cfg => {| user_config := cfg;
                        source_tx := tx_hash transaction;
                        source_wallet := tx_from transaction |})
           <$> filter (fun cfg => can_trade (db st) (uc_telegram_id cfg))
                 copying_users)
    end.

(** The config ids of the entries of a wallet, and those of the table. *)
Definition ids (l : list UserConfig) : list Z := uc_config_id <$> l.

Definition db_ids (d : DB) : list Z := config_id <$> copy_trade_configs d.

(** The entries that watch a wallet. *)
Definition watchers (st : State) (wallet : string) : list UserConfig :=
  default [] (dict_get wallet (monitored_wallets st)).

(** What the loop of [process_transaction] produces from the entries of the
    sender. *)
Definition intents_of (d : DB) (transaction : Transaction)
    (l : list UserConfig) : list MirrorIntent :=
  (fun cfg => {| user_config := cfg;
                 source_tx := tx_hash transaction;
                 source_wallet := tx_from transaction |})
    <$> filter (fun cfg => can_trade d (uc_telegram_id cfg)) l.

(** The mirror intents of one subscription for one transaction. *)
Definition count_intents (cid : Z) (hash : string) (l : list MirrorIntent)
  : nat :=
  length (filter (fun i => uc_config_id (user_config i) = cid
                           /\ source_tx i = hash) l).

(** What holds of the stores in every state the watcher can reach: no wallet
    is listed twice, the entries of a wallet have distinct config ids, which
    are ids of rows of the table, and no config id is listed under two
    wallets. *)
Definition invariant (st : State) : Prop :=
  NoDup (dict_keys (monitored_wallets st))
  /\ (forall w l, dict_get w (monitored_wallets st) = Some l ->
        NoDup (ids l) /\ forall i, i ∈ ids l -> i ∈ db_ids (db st))
  /\ (forall w w' l l' i, w <> w' ->
        dict_get w (monitored_wallets st) = Some l ->
        dict_get w' (monitored_wallets st) = Some l' ->
        i ∈ ids l -> i ∉ ids l').

(** What can happen to the watcher's state during the life of the process. *)
Inductive Op :=
  | OpCreateUser (telegram_id : string)
  | OpUpdateUserWallet (telegram_id address key : string)
  | OpSetup (feed : Feed) (telegram_id target : string)
      (slippage max_eth : float) (sandbox : bool)
  | OpUpdate (telegram_id : string) (cid : Z) (act : option bool)
      (slippage : option float) (sandbox : option bool)
      (max_eth : option float)
  | OpProcess (transaction : Transaction).

Definition with_db (st : State) (d : DB) : State :=
  {| db := d;
     monitored_wallets := monitored_wallets st;
     processed_transactions := processed_transactions st |}.

Definition step (st : State) (op : Op) : State * list MirrorIntent :=
  match op with
  | OpCreateUser tid => (with_db st (create_user (db st) tid).1, [])
  | OpUpdateUserWallet tid address key =>
      (with_db st (update_user_wallet (db st) tid address key), [])
  | OpSetup feed tid target slippage max_eth sandbox =>
      ((setup_copy_trading feed st tid target slippage max_eth sandbox).1, [])
  | OpUpdate tid cid act slippage sandbox max_eth =>
      ((update_copy_trading st tid cid act slippage sandbox max_eth).1, [])
  | OpProcess transaction => process_transaction st transaction
  end.

Fixpoint run (st : State) (ops : list Op) : State * list MirrorIntent :=
  match ops with
  | [] => (st, [])
  | op :: ops' =>
      let '(st1, out1) := step st op in
      let '(st2, out2) := run st1 ops' in
      (st2, out1 ++ out2)
  end.

(** An entry of the listing of [get_copy_trading_configs], without its two
    time stamps. *)
Record FormattedConfig := {
  fc_id : Z;
  fc_target_wallet : string;
  fc_slippage_guard : option float;
  fc_active : bool;
  fc_sandbox_mode : bool;
  fc_max_eth_per_trade : option float }.

Definition format_config (c : CopyTradeConfig) : FormattedConfig :=
  {| fc_id := config_id c;
     fc_target_wallet := target_wallet c;
     fc_slippage_guard := slippage_guard c;
     fc_active := active c;
     fc_sandbox_mode := sandbox_mode c;
     fc_max_eth_per_trade := max_eth_per_trade c |}.

(** The result of [get_copy_trading_configs]: the error dictionary, or the
    list under ["configs"] (["count"] is its length). *)
Inductive ConfigListing :=
  | ConfigsError (error : string)
  | Configs (configs : list FormattedConfig).

Definition get_copy_trading_configs (st : State) (telegram_id : string)
  : ConfigListing :=
  match get_user_by_telegram_id (db st) telegram_id with
  | None => ConfigsError "User not found"
  | Some _ =>
      Configs (format_config
                 <$> get_user_copy_trade_configs (db st) telegram_id)
  end.

(** The hashes of the transactions a sequence of operations processes. *)
Fixpoint hashes_of (ops : list Op) : gset string :=
  match ops with
  | [] => ∅
  | OpProcess transaction :: ops' => {[ tx_hash transaction ]} ∪ hashes_of ops'
  | _ :: ops' => hashes_of ops'
  end.

(** What an update that does not deactivate does to an entry. *)
Definition patch_if (cid : Z) (act : option bool) (slippage : option float)
    (sandbox : option bool) (max_eth : option float) (cfg : UserConfig)
  : UserConfig :=
  if bool_decide (uc_config_id cfg = cid)
  then patch_entry cfg act slippage sandbox max_eth
  else cfg.

End CopyTrade.

(** ** bot/copytrade_handlers.py: the checks of the setup conversation *)

Module CopytradeHandlers.

(** [slippage < 0.1 or slippage > 50] raises; the value is asked again. *)
Definition slippage_guard_input (slippage : float) : option float :=
  if Float64.lt slippage 0.1%float || Float64.gt slippage 50%float
  then None else Some slippage.

(** [max_eth <= 0] raises; the value is asked again. *)
Definition max_eth_input (max_eth : float) : option float :=
  if Float64.le max_eth 0%float then None else Some max_eth.

End CopytradeHandlers.

(** ** bot/copytrade_handlers.py: the buttons under the list of /mirrors *)

Module MirrorButtons.
Import Database CopyTrade.

(** [context.user_data["mirror_config_<id>"]]: the entries that
    [mirrors_command] stored when it last listed the configurations. *)
Definition Cache := list (Z * FormattedConfig).

Fixpoint cache_get (cid : Z) (c : Cache) : option FormattedConfig :=
  match c with
  | [] => None
  | (k, v) :: c' => if bool_decide (k = cid) then Some v else cache_get cid c'
  end.

Fixpoint cache_set (cid : Z) (v : FormattedConfig) (c : Cache) : Cache :=
  match c with
  | [] => [(cid, v)]
  | (k, v') :: c' =>
      if bool_decide (k = cid) then (cid, v) :: c'
      else (k, v') :: cache_set cid v c'
  end.

(** [mirrors_command]: every listed configuration is stored under its id; on
    an error nothing is stored. *)
Definition mirrors_command (st : State) (telegram_id : string) (c : Cache)
  : Cache :=
  match get_copy_trading_configs st telegram_id with
  | ConfigsError _ => c
  | Configs l => foldl (fun acc cfg => cache_set (fc_id cfg) cfg acc) c l
  end.

(** The callback data of the three buttons of a configuration. *)
Inductive Button :=
  | mirror_pause (cid : Z)
  | mirror_resume (cid : Z)
  | mirror_sandbox (cid : Z).

(** [mirror_button]: the update it asks for and its result; [None] when the
    sandbox button finds no stored entry and nothing is called. *)
Definition mirror_button (st : State) (telegram_id : string) (c : Cache)
    (b : Button) : State * option Result :=
  match b with
  | mirror_pause cid =>
      let '(st', r) :=
        update_copy_trading st telegram_id cid (Some false) None None None in
      (st', Some r)
  | mirror_resume cid =>
      let '(st', r) :=
        update_copy_trading st telegram_id cid (Some true) None None None in
      (st', Some r)
  | mirror_sandbox cid =>
      match cache_get cid c with
      | None => (st, None)
      | Some cfg =>
          let '(st', r) :=
            update_copy_trading st telegram_id cid None None
              (Some (negb (fc_sandbox_mode cfg))) None in
          (st', Some r)
      end
  end.

End MirrorButtons.

(** ** bot/alert_handlers.py: the threshold questions of /addalert *)

Module AlertHandlers.

(** The conversation states. *)
Inductive ConversationState :=
  | TOKEN_ADDRESS | PRICE_HIGH | PRICE_LOW | WATCHLIST_NAME | CONFIRM_ALERT.

(** What the user typed, as the handler reads it: the word "skip", a text
    that [float] accepts (which includes "nan" and "inf"), or anything
    else. *)
Inductive Reply :=
  | Skip
  | Number (x : float)
  | Unparsable.

(** The two thresholds in [context.user_data] during the conversation, where
    [price_high_input] has stored the first before the second is asked for:
    [None] is the stored value [None] of a skipped threshold. *)
Record UserData := {
  alert_price_high : option float;
  alert_price_low : option float }.

Definition price_high_input (reply : Reply) (ud : UserData)
  : ConversationState * UserData :=
  match reply with
  | Skip =>
      (PRICE_LOW, {| alert_price_high := None;
                     alert_price_low := alert_price_low ud |})
  | Number x =>
      if Float64.le x 0%float then (PRICE_HIGH, ud)
      else (PRICE_LOW, {| alert_price_high := Some x;
                          alert_price_low := alert_price_low ud |})
  | Unparsable => (PRICE_HIGH, ud)
  end.

Definition price_low_input (reply : Reply) (ud : UserData)
  : ConversationState * UserData :=
  let proceed (ud' : UserData) :=
    match alert_price_high ud', alert_price_low ud' with
    | None, None => (PRICE_HIGH, ud')
    | _, _ => (WATCHLIST_NAME, ud')
    end in
  match reply with
  | Skip =>
      proceed {| alert_price_high := alert_price_high ud;
                 alert_price_low := None |}
  | Number x =>
      if Float64.le x 0%float then (PRICE_LOW, ud)
      else proceed {| alert_price_high := alert_price_high ud;
                      alert_price_low := Some x |}
  | Unparsable => (PRICE_LOW, ud)
  end.

End AlertHandlers.

(** ** Concrete data for the examples *)

Module Scenario.
Import Database.

Definition alice : User :=
  {| user_id := 1; user_telegram_id := "1001";
     wallet_address := Some "0x00000000000000000000000000000000000a11ce";
     encrypted_private_key := Some "gAAAAAB-alice" |}.

Definition bob : User :=
  {| user_id := 2; user_telegram_id := "1002";
     wallet_address := Some "0x0000000000000000000000000000000000000b0b";
     encrypted_private_key := Some "gAAAAAB-bob" |}.

Definition db0 : DB :=
  {| users := [alice; bob]; watchlists := [];
     watchlist_tokens := []; copy_trade_configs := [] |}.

(** The same users; subscriber 1001 has the watchlist "Art". *)
Definition db1 : DB :=
  {| users := [alice; bob];
     watchlists := [{| watchlist_id := 1; watchlist_user_id := 1;
                       watchlist_name := "Art" |}];
     watchlist_tokens := []; copy_trade_configs := [] |}.

Definition info0 : TokenInfo :=
  {| name := "Token One"; symbol := "T1"; decimals := 18 |}.

(** A feed that answers every query: the given price and ETH liquidity for
    every token, and every string is an address. *)
Definition feed (price liquidity : float) : Feed :=
  {| get_token_info := fun _ => Some info0;
     get_token_price := fun _ =>
       Some {| price_in_eth := price; price_in_usd := (price * 2500)%float |};
     get_token_liquidity := fun _ =>
       Some {| ld_eth_liquidity := liquidity;
               ld_token_liquidity := 10000%float;
               liquidity_usd := (liquidity * 2500)%float |};
     is_address := fun _ => true;
     lower := ascii_lower |}.

(** The same, but the price query of one token raises. *)
Definition feed_failing (token : string) (price liquidity : float) : Feed :=
  {| get_token_info := fun _ => Some info0;
     get_token_price := fun t =>
       if bool_decide (t = token) then None
       else Some {| price_in_eth := price;
                    price_in_usd := (price * 2500)%float |};
     get_token_liquidity := get_token_liquidity (feed price liquidity);
     is_address := fun _ => true;
     lower := ascii_lower |}.

(** A feed for which no string is an address. *)
Definition feed_no_address : Feed :=
  {| get_token_info := fun _ => Some info0;
     get_token_price := mock_get_token_price;
     get_token_liquidity := mock_get_token_liquidity;
     is_address := fun _ => false;
     lower := ascii_lower |}.

(** Subscriber 1001 watches token 0xT1 with high threshold 2 and low
    threshold 1, registered while the price is 1.5 and the liquidity 10. *)
Definition alerts1 : Alerts.State :=
  (Alerts.add_price_alert (feed 1.5 10) (Alerts.initial db0)
     "1001" "0xT1" (Some 2%float) (Some 1%float) None).1.

(** Subscriber 1002 joins with the same thresholds, and 1001 also watches
    token 0xT2. *)
Definition alerts2 : Alerts.State :=
  (Alerts.run alerts1
     [Alerts.OpAdd (feed 1.5 10) "1002" "0xT1"
        (Some 2%float) (Some 1%float) None;
      Alerts.OpAdd (feed 1.5 10) "1001" "0xT2"
        (Some 2%float) None None]).1.

(** Subscribers 1001 (config 1, sandbox) and 1002 (config 2) copy wallet
    0xW1. *)
Definition watcher2 : CopyTrade.State :=
  (CopyTrade.run (CopyTrade.initial db0)
     [CopyTrade.OpSetup (feed 1 10) "1001" "0xW1" 5 0.1 true;
      CopyTrade.OpSetup (feed 1 10) "1002" "0xW1" 2 0.5 false]).1.

Definition entry1 : CopyTrade.UserConfig :=
  {| CopyTrade.uc_telegram_id := "1001"; CopyTrade.uc_config_id := 1;
     CopyTrade.uc_slippage_guard := 5; CopyTrade.uc_max_eth_per_trade := 0.1;
     CopyTrade.uc_sandbox_mode := true; CopyTrade.uc_active := None |}.

Definition entry2 : CopyTrade.UserConfig :=
  {| CopyTrade.uc_telegram_id := "1002"; CopyTrade.uc_config_id := 2;
     CopyTrade.uc_slippage_guard := 2; CopyTrade.uc_max_eth_per_trade := 0.5;
     CopyTrade.uc_sandbox_mode := false; CopyTrade.uc_active := None |}.

Definition tx_abc : CopyTrade.Transaction :=
  {| CopyTrade.tx_hash := "0xabc"; CopyTrade.tx_from := "0xW1";
     CopyTrade.tx_to := "0xR0"; CopyTrade.tx_value := 1000 |}.

Definition tx_def : CopyTrade.Transaction :=
  {| CopyTrade.tx_hash := "0xdef"; CopyTrade.tx_from := "0xW1";
     CopyTrade.tx_to := "0xR0"; CopyTrade.tx_value := 2000 |}.

Definition intent (cfg : CopyTrade.UserConfig)
    (transaction : CopyTrade.Transaction) : CopyTrade.MirrorIntent :=
  {| CopyTrade.user_config := cfg;
     CopyTrade.source_tx := CopyTrade.tx_hash transaction;
     CopyTrade.source_wallet := CopyTrade.tx_from transaction |}.

End Scenario.

(** ** Facts about binary64 comparisons *)

Module Float64Facts.
Import Float64.

Lemma SFcompare_antisym (a b : spec_float) :
  SFcompare b a = option_map CompOpp (SFcompare a b).
Proof.
  destruct a as [sa| sa | | sa ma ea], b as [sb | sb | | sb mb eb];
    simpl; try reflexivity;
    try (destruct sa; reflexivity); try (destruct sb; reflexivity);
    try (destruct sa, sb; reflexivity).
  destruct sa, sb; simpl; try reflexivity; f_equal;
    rewrite (Z.compare_antisym ea eb);
    destruct (ea ?= eb)%Z eqn:He; simpl; try reflexivity;
    rewrite !Pos.compare_cont_spec, (Pos.compare_antisym ma mb); simpl;
    destruct (ma ?= mb)%positive; reflexivity.
Qed.

Lemma lt_irrefl (x : float) : Float64.lt x x = false.
Proof.
  unfold lt. rewrite FloatAxioms.ltb_spec. unfold SFltb.
  pose proof (SFcompare_antisym (Prim2SF x) (Prim2SF x)) as H.
  destruct (SFcompare (Prim2SF x) (Prim2SF x)) as [[]|]; simpl in H;
    congruence.
Qed.

Lemma lt_not_ge (x y : float) : lt x y = true -> ge x y = false.
Proof.
  unfold lt, ge. rewrite FloatAxioms.ltb_spec, FloatAxioms.leb_spec. unfold SFltb, SFleb.
  rewrite (SFcompare_antisym (Prim2SF x) (Prim2SF y)).
  destruct (SFcompare (Prim2SF x) (Prim2SF y)) as [[]|]; simpl; congruence.
Qed.

Lemma lt_not_gt (x y : float) : lt x y = true -> gt x y = false.
Proof.
  unfold lt, gt. rewrite !FloatAxioms.ltb_spec. unfold SFltb.
  rewrite (SFcompare_antisym (Prim2SF x) (Prim2SF y)).
  destruct (SFcompare (Prim2SF x) (Prim2SF y)) as [[]|]; simpl; congruence.
Qed.

(** A float that compares above something is not a NaN, so it is [<=]
    itself. *)
Lemma lt_le_refl (x y : float) : lt x y = true -> le y y = true.
Proof.
  unfold lt, le. rewrite FloatAxioms.ltb_spec, FloatAxioms.leb_spec. unfold SFltb, SFleb.
  destruct (Prim2SF x) as [sa| sa | | sa ma ea],
           (Prim2SF y) as [sb | sb | | sb mb eb]; simpl; try congruence;
    try (destruct sb; reflexivity); intros _.
  - destruct sb; rewrite Z.compare_refl, Pos.compare_cont_refl; reflexivity.
  - destruct sb; rewrite Z.compare_refl, Pos.compare_cont_refl; reflexivity.
  - destruct sb; rewrite Z.compare_refl, Pos.compare_cont_refl; reflexivity.
Qed.

(** A strictly positive float is truthy. *)
Lemma pos_truthy (x : float) : lt 0%float x = true -> bool_of_float x = true.
Proof.
  unfold lt, bool_of_float. rewrite FloatAxioms.ltb_spec, FloatAxioms.eqb_spec. unfold SFltb, SFeqb.
  rewrite (SFcompare_antisym (Prim2SF 0%float) (Prim2SF x)).
  destruct (SFcompare (Prim2SF 0%float) (Prim2SF x)) as [[]|]; simpl;
    congruence.
Qed.

End Float64Facts.

(** ** The order of the binary64 floats *)

Module Float64Order.
Import Float64.

Lemma SFcompare_rank (a b : spec_float) :
  SFcompare a b
  = match rank a, rank b with
    | Some x, Some y => Some (lex_compare x y)
    | _, _ => None
    end.
Proof.
  destruct a as [sa| sa | | sa ma ea], b as [sb | sb | | sb mb eb];
    try (destruct sa); try (destruct sb); try reflexivity.
  simpl. unfold lex_compare. simpl.
  rewrite Z.compare_opp, (Z.compare_antisym ea eb).
  destruct (ea ?= eb)%Z; reflexivity.
Qed.

Lemma lex_compare_Lt x y : lex_compare x y = Lt <-> lex_lt x y.
Proof.
  unfold lex_compare, lex_lt.
  destruct (Z.compare_spec x.1.1 y.1.1), (Z.compare_spec x.1.2 y.1.2),
           (Z.compare_spec x.2 y.2); split; try done; try lia.
Qed.

Lemma lex_compare_Eq x y : lex_compare x y = Eq <-> x = y.
Proof.
  unfold lex_compare. destruct x as [[x1 x2] x3], y as [[y1 y2] y3]. simpl.
  destruct (Z.compare_spec x1 y1), (Z.compare_spec x2 y2),
           (Z.compare_spec x3 y3); split; try done;
    try (intros [= ? ? ?]; lia); intros _; by subst.
Qed.

(** The three comparisons of the code, read on the ranks. *)
Lemma lt_rank (x y : float) :
  lt x y = true <->
  exists rx ry, rank (Prim2SF x) = Some rx /\ rank (Prim2SF y) = Some ry
                /\ lex_lt rx ry.
Proof.
  unfold lt. rewrite FloatAxioms.ltb_spec. unfold SFltb.
  rewrite SFcompare_rank.
  destruct (rank (Prim2SF x)) as [rx|], (rank (Prim2SF y)) as [ry|];
    try (split; [done | by intros (? & ? & ? & ? & ?)]).
  split.
  - intros H. exists rx, ry. split; [done|]. split; [done|].
    apply lex_compare_Lt. by destruct (lex_compare rx ry).
  - intros (? & ? & [= <-] & [= <-] & Hlt). apply lex_compare_Lt in Hlt.
    by rewrite Hlt.
Qed.

Lemma le_rank (x y : float) :
  le x y = true <->
  exists rx ry, rank (Prim2SF x) = Some rx /\ rank (Prim2SF y) = Some ry
                /\ (lex_lt rx ry \/ rx = ry).
Proof.
  unfold le. rewrite FloatAxioms.leb_spec. unfold SFleb.
  rewrite SFcompare_rank.
  destruct (rank (Prim2SF x)) as [rx|], (rank (Prim2SF y)) as [ry|];
    try (split; [done | by intros (? & ? & ? & ? & ?)]).
  split.
  - intros H. exists rx, ry. split; [done|]. split; [done|].
    destruct (lex_compare rx ry) eqn:Hc; try done.
    + right. by apply lex_compare_Eq.
    + left. by apply lex_compare_Lt.
  - intros (? & ? & [= <-] & [= <-] & [Hlt| ->]).
    + apply lex_compare_Lt in Hlt. by rewrite Hlt.
    + by rewrite (proj2 (lex_compare_Eq ry ry) eq_refl).
Qed.

Lemma not_nan_rank (x : float) :
  is_nan x = false <-> is_Some (rank (Prim2SF x)).
Proof.
  unfold is_nan. rewrite FloatAxioms.eqb_spec. unfold SFeqb.
  rewrite SFcompare_rank. destruct (rank (Prim2SF x)) as [rx|].
  - rewrite (proj2 (lex_compare_Eq rx rx) eq_refl). simpl.
    split; [by eexists|done].
  - simpl. split; [done|]. by intros [? ?].
Qed.

Lemma lex_lt_trans x y z : lex_lt x y -> lex_lt y z -> lex_lt x z.
Proof. unfold lex_lt. lia. Qed.

Lemma lex_lt_irrefl x : ~ lex_lt x x.
Proof. unfold lex_lt. lia. Qed.

Lemma lex_total x y : lex_lt x y \/ x = y \/ lex_lt y x.
Proof.
  destruct x as [[x1 x2] x3], y as [[y1 y2] y3]. unfold lex_lt. simpl.
  destruct (Z.lt_total x1 y1) as [?|[?|?]]; [lia| |lia].
  destruct (Z.lt_total x2 y2) as [?|[?|?]]; [lia| |lia].
  destruct (Z.lt_total x3 y3) as [?|[?|?]]; [lia| |lia].
  right. left. by subst.
Qed.

Lemma lt_le_trans (x y z : float) :
  lt x y = true -> le y z = true -> lt x z = true.
Proof.
  rewrite !lt_rank, le_rank.
  intros (rx & ry & Hx & Hy & Hxy) (ry' & rz & Hy' & Hz & Hyz).
  rewrite Hy in Hy'. injection Hy' as <-.
  exists rx, rz. split; [done|]. split; [done|].
  destruct Hyz as [Hyz| <-]; [by eapply lex_lt_trans|done].
Qed.

Lemma le_lt_trans (x y z : float) :
  le x y = true -> lt y z = true -> lt x z = true.
Proof.
  rewrite !lt_rank, le_rank.
  intros (rx & ry & Hx & Hy & Hxy) (ry' & rz & Hy' & Hz & Hyz).
  rewrite Hy in Hy'. injection Hy' as <-.
  exists rx, rz. split; [done|]. split; [done|].
  destruct Hxy as [Hxy| ->]; [by eapply lex_lt_trans|done].
Qed.

Lemma lt_asym (x y : float) : lt x y = true -> lt y x = false.
Proof.
  intros Hxy. destruct (lt y x) eqn:Hyx; [|done].
  apply lt_rank in Hxy as (rx & ry & Hx & Hy & Hxy).
  apply lt_rank in Hyx as (ry' & rx' & Hy' & Hx' & Hyx).
  rewrite Hy in Hy'. rewrite Hx in Hx'. injection Hy' as <-.
  injection Hx' as <-. destruct (lex_lt_irrefl rx).
  by eapply lex_lt_trans.
Qed.

(** Two floats that are not NaN are comparable. *)
Lemma not_lt_le (x y : float) :
  is_nan x = false -> is_nan y = false ->
  lt x y = false -> le y x = true.
Proof.
  rewrite !not_nan_rank. intros [rx Hx] [ry Hy] Hlt.
  apply le_rank. exists ry, rx. split; [done|]. split; [done|].
  destruct (lex_total rx ry) as [H|[H|H]]; [|by right|by left].
  assert (lt x y = true) as Habs by (apply lt_rank; by exists rx, ry).
  congruence.
Qed.

Lemma lt_not_nan (x y : float) :
  lt x y = true -> is_nan x = false /\ is_nan y = false.
Proof.
  intros (rx & ry & Hx & Hy & _)%lt_rank. rewrite !not_nan_rank.
  rewrite Hx, Hy. by split.
Qed.

Lemma nan_compare (x y : float) :
  is_nan x = true ->
  lt x y = false /\ lt y x = false /\ le x y = false /\ le y x = false.
Proof.
  intros Hnan.
  assert (rank (Prim2SF x) = None) as Hr.
  { destruct (rank (Prim2SF x)) eqn:Hr; [|done].
    assert (is_nan x = false) by (apply not_nan_rank; by rewrite Hr).
    congruence. }
  repeat split.
  - destruct (lt x y) eqn:H; [|done].
    apply lt_rank in H as (? & ? & ? & _). congruence.
  - destruct (lt y x) eqn:H; [|done].
    apply lt_rank in H as (? & ? & ? & ? & _). congruence.
  - destruct (le x y) eqn:H; [|done].
    apply le_rank in H as (? & ? & ? & _). congruence.
  - destruct (le y x) eqn:H; [|done].
    apply le_rank in H as (? & ? & ? & ? & _). congruence.
Qed.

End Float64Order.

(** ** Facts about dictionaries *)

Section PyDictFacts.
Context {V : Type}.
Implicit Types (d : dict V) (k : string) (v : V).

Lemma dict_get_set_eq k v d : dict_get k (dict_set k v d) = Some v.
Proof.
  induction d as [|[k' v'] d IH]; csimpl.
  - by rewrite decide_True.
  - destruct (decide (k' = k)) as [->|Hne]; csimpl.
    + by rewrite decide_True.
    + by rewrite decide_False.
Qed.

Lemma dict_get_set_ne k k' v d :
  k <> k' -> dict_get k' (dict_set k v d) = dict_get k' d.
Proof.
  intros Hne. induction d as [|[k0 v0] d IH]; csimpl.
  - by rewrite decide_False.
  - destruct (decide (k0 = k)) as [->|Hne0]; csimpl.
    + by rewrite !decide_False.
    + by rewrite IH.
Qed.

Lemma dict_get_del_eq k d : dict_get k (dict_del k d) = None.
Proof.
  induction d as [|[k' v'] d IH]; csimpl; [done|].
  destruct (decide (k' = k)); csimpl; [done|]. by rewrite decide_False.
Qed.

Lemma dict_get_del_ne k k' d :
  k <> k' -> dict_get k' (dict_del k d) = dict_get k' d.
Proof.
  intros Hne. induction d as [|[k0 v0] d IH]; csimpl; [done|].
  destruct (decide (k0 = k)) as [->|Hne0]; csimpl.
  - by rewrite decide_False.
  - by rewrite IH.
Qed.

Lemma dict_get_Some_elem k v d : dict_get k d = Some v -> (k, v) ∈ d.
Proof.
  induction d as [|[k' v'] d IH]; csimpl; [done|].
  destruct (decide (k' = k)) as [->|Hne]; intros H.
  - injection H as ->. left.
  - right. by apply IH.
Qed.

Lemma dict_get_None_keys k d : dict_get k d = None <-> k ∉ dict_keys d.
Proof.
  unfold dict_keys. induction d as [|[k' v'] d IH]; csimpl.
  - split; [intros _; apply not_elem_of_nil | done].
  - rewrite not_elem_of_cons. destruct (decide (k' = k)) as [->|Hne].
    + split; [done | intros [? _]; done].
    + rewrite IH. split; [intros ?; split; [congruence | done] | tauto].
Qed.

Lemma dict_keys_set_present k v d :
  k ∈ dict_keys d -> dict_keys (dict_set k v d) = dict_keys d.
Proof.
  unfold dict_keys. induction d as [|[k' v'] d IH]; csimpl.
  - intros H. by apply elem_of_nil in H.
  - intros H. destruct (decide (k' = k)) as [->|Hne]; csimpl; [done|].
    f_equal. apply IH. apply elem_of_cons in H as [?|?]; [congruence|done].
Qed.

Lemma dict_keys_set_absent k v d :
  k ∉ dict_keys d -> dict_keys (dict_set k v d) = dict_keys d ++ [k].
Proof.
  unfold dict_keys. induction d as [|[k' v'] d IH]; csimpl; [done|].
  rewrite not_elem_of_cons. intros [Hne Hd].
  rewrite decide_False by congruence. csimpl. by rewrite IH.
Qed.

Lemma dict_keys_del k d :
  dict_keys (dict_del k d) = filter (fun k' => k' <> k) (dict_keys d).
Proof.
  unfold dict_keys. induction d as [|[k' v'] d IH]; csimpl; [done|].
  destruct (decide (k' = k)) as [->|Hne].
  - rewrite filter_cons_False by (csimpl; tauto). done.
  - rewrite filter_cons_True by done. csimpl. by rewrite IH.
Qed.

Lemma dict_set_NoDup k v d :
  NoDup (dict_keys d) -> NoDup (dict_keys (dict_set k v d)).
Proof.
  intros Hd. destruct (decide (k ∈ dict_keys d)) as [Hin|Hout].
  - by rewrite dict_keys_set_present.
  - rewrite dict_keys_set_absent by done.
    apply NoDup_app. split; [done|]. split; [|apply NoDup_singleton].
    intros x Hx Hx'. apply list_elem_of_singleton in Hx'. by subst.
Qed.

Lemma dict_del_NoDup k d :
  NoDup (dict_keys d) -> NoDup (dict_keys (dict_del k d)).
Proof. intros Hd. rewrite dict_keys_del. by apply NoDup_filter. Qed.

Lemma dict_del_absent k d : k ∉ dict_keys d -> dict_del k d = d.
Proof.
  unfold dict_keys. induction d as [|[k' v'] d IH]; csimpl; [done|].
  rewrite not_elem_of_cons. intros [Hne Hd].
  rewrite decide_False by congruence. by rewrite IH.
Qed.

Lemma dict_set_Forall (P : string * V -> Prop) k v d :
  P (k, v) -> Forall P d -> Forall P (dict_set k v d).
Proof.
  intros Hk. induction 1 as [|[k' v'] d Hx Hd IH]; csimpl.
  - by constructor.
  - destruct (decide (k' = k)); by constructor.
Qed.

Lemma dict_del_Forall (P : string * V -> Prop) k d :
  Forall P d -> Forall P (dict_del k d).
Proof.
  induction 1 as [|[k' v'] d Hx Hd IH]; csimpl; [done|].
  destruct (decide (k' = k)); [done | by constructor].
Qed.

Lemma dict_get_Forall (P : string * V -> Prop) k v d :
  Forall P d -> dict_get k d = Some v -> P (k, v).
Proof.
  intros Hd Hk. apply dict_get_Some_elem in Hk.
  rewrite Forall_forall in Hd. by apply Hd.
Qed.
End PyDictFacts.

(** ** The alert engine *)

Module AlertsFacts.
Import Database Alerts Float64Facts.

Lemma count_events_app p l1 l2 :
  count_events p (l1 ++ l2) = (count_events p l1 + count_events p l2)%nat.
Proof. unfold count_events. by rewrite filter_app, length_app. Qed.

Lemma count_events_none p l :
  Forall (fun e => p e = false) l -> count_events p l = 0%nat.
Proof.
  unfold count_events. induction 1 as [|e l He Hl IH]; [done|].
  rewrite filter_cons_False; [done|]. by rewrite He.
Qed.

(** With the metadata at hand the loop over the alerts never stops early. *)
Lemma check_alerts_info feed token previous current alerts info :
  get_token_info feed token = Some info ->
  check_alerts feed token previous current alerts
  = flat_map (alert_events info token previous current) alerts.
Proof.
  intros Hinfo. induction alerts as [|a rest IH]; [done|].
  simpl. unfold check_alert, alert_events. rewrite Hinfo.
  destruct (crossed_high a previous current),
           (crossed_low a previous current); simpl; by rewrite IH.
Qed.

(** Without it the loop appends nothing: it stops at the first crossing. *)
Lemma check_alerts_no_info feed token previous current alerts :
  get_token_info feed token = None ->
  check_alerts feed token previous current alerts = [].
Proof.
  intros Hinfo. induction alerts as [|a rest IH]; [done|].
  simpl. unfold check_alert. rewrite Hinfo.
  destruct (crossed_high a previous current),
           (crossed_low a previous current); simpl; by rewrite ?IH.
Qed.

Lemma alert_events_subscriber info token previous current a :
  Forall (fun e => event_subscriber e = telegram_id a /\ event_token e = token)
    (alert_events info token previous current a).
Proof.
  unfold alert_events.
  destruct (crossed_high a previous current),
           (crossed_low a previous current); simpl; repeat constructor.
Qed.

Lemma check_alerts_tokens feed token previous current alerts :
  Forall (fun e => event_token e = token)
    (check_alerts feed token previous current alerts).
Proof.
  destruct (get_token_info feed token) as [info|] eqn:Hinfo.
  - rewrite (check_alerts_info _ _ _ _ _ info Hinfo).
    induction alerts as [|a rest IH]; simpl; [constructor|].
    apply Forall_app. split; [|done].
    eapply Forall_impl; [apply alert_events_subscriber|]. by intros e [_ ?].
  - rewrite check_alerts_no_info by done. constructor.
Qed.

Lemma is_high_for_about tid token : about tid token (is_high_for tid token).
Proof.
  intros [u t ? ? ?|u t ? ? ?|u t ? ? ? ?]; simpl; try done.
  intros [?%bool_decide_eq_true ?%bool_decide_eq_true]%andb_prop. done.
Qed.

Lemma is_low_for_about tid token : about tid token (is_low_for tid token).
Proof.
  intros [u t ? ? ?|u t ? ? ?|u t ? ? ? ?]; simpl; try done.
  intros [?%bool_decide_eq_true ?%bool_decide_eq_true]%andb_prop. done.
Qed.

Lemma is_liquidity_for_about tid token :
  about tid token (is_liquidity_for tid token).
Proof.
  intros [u t ? ? ?|u t ? ? ?|u t ? ? ? ?]; simpl; try done.
  intros [?%bool_decide_eq_true ?%bool_decide_eq_true]%andb_prop. done.
Qed.

Lemma count_other_token tid token p l :
  about tid token p -> Forall (fun e => event_token e <> token) l ->
  count_events p l = 0%nat.
Proof.
  intros Hp Hl. apply count_events_none.
  eapply Forall_impl; [exact Hl|]. intros e He. simpl in He.
  destruct (p e) eqn:Hpe; [|done]. by destruct (Hp e Hpe).
Qed.

Lemma count_other_subscriber tid token p l :
  about tid token p -> Forall (fun e => event_subscriber e <> tid) l ->
  count_events p l = 0%nat.
Proof.
  intros Hp Hl. apply count_events_none.
  eapply Forall_impl; [exact Hl|]. intros e He. simpl in He.
  destruct (p e) eqn:Hpe; [|done]. by destruct (Hp e Hpe).
Qed.

(** The events of a subscriber among those of a list of alerts in which the
    subscriber has one alert at most: they are the events of that alert. *)
Lemma count_flat_map_alerts tid token p info previous current alerts :
  about tid token p ->
  NoDup (telegram_id <$> alerts) ->
  count_events p (flat_map (alert_events info token previous current) alerts)
  = match find (fun a => bool_decide (telegram_id a = tid)) alerts with
    | Some a => count_events p (alert_events info token previous current a)
    | None => 0%nat
    end.
Proof.
  intros Hp. induction alerts as [|a rest IH]; [done|].
  rewrite fmap_cons, NoDup_cons. intros [Hnotin Hnodup]. simpl.
  rewrite count_events_app. destruct (bool_decide_reflect (telegram_id a = tid))
    as [Heq|Hne].
  - rewrite (count_other_subscriber tid token p (flat_map _ rest)); [lia|done|].
    apply Forall_flat_map, Forall_forall. intros a' Ha'.
    eapply Forall_impl; [apply alert_events_subscriber|].
    intros e [-> _]. simpl. intros Heq'. apply Hnotin. rewrite Heq, <- Heq'.
    apply list_elem_of_fmap. by exists a'.
  - rewrite IH by done.
    rewrite (count_other_subscriber tid token p (alert_events _ _ _ _ a));
      [done|done|].
    eapply Forall_impl; [apply alert_events_subscriber|].
    intros e [-> _]. done.
Qed.

Lemma check_token_tokens feed k alerts td :
  Forall (fun e => event_token e = k) (check_token feed k alerts td).2.
Proof.
  unfold check_token. destruct (get_token_price feed k); simpl.
  - apply check_alerts_tokens.
  - constructor.
Qed.

Lemma check_token_get_ne feed k alerts td token :
  k <> token ->
  dict_get token (check_token feed k alerts td).1 = dict_get token td.
Proof.
  intros Hne. unfold check_token. destruct (get_token_price feed k); simpl.
  - by rewrite dict_get_set_ne.
  - done.
Qed.

(** What a token's iteration does only depends on the token's own record. *)
Lemma check_token_local feed token alerts td td' :
  dict_get token td = dict_get token td' ->
  (check_token feed token alerts td).2 = (check_token feed token alerts td').2
  /\ dict_get token (check_token feed token alerts td).1
     = dict_get token (check_token feed token alerts td').1.
Proof.
  intros Heq. unfold check_token, previous_price. rewrite Heq.
  destruct (get_token_price feed token); simpl.
  - by rewrite !dict_get_set_eq.
  - done.
Qed.

Lemma check_tokens_absent feed items td tid token p :
  about tid token p -> token ∉ dict_keys items ->
  count_events p (check_tokens feed items td).2 = 0%nat
  /\ dict_get token (check_tokens feed items td).1 = dict_get token td.
Proof.
  intros Hp. revert td. induction items as [|[k v] rest IH]; intros td Hnotin.
  - done.
  - unfold dict_keys in Hnotin. rewrite fmap_cons, not_elem_of_cons in Hnotin.
    destruct Hnotin as [Hne Hrest]. simpl in Hne. simpl.
    pose proof (check_token_tokens feed k v td) as Htok.
    pose proof (check_token_get_ne feed k v td token) as Hget.
    destruct (check_token feed k v td) as [td1 evs1]. simpl in *.
    destruct (IH td1 Hrest) as [Hc Hg].
    destruct (check_tokens feed rest td1) as [td2 evs2]. simpl in *.
    rewrite count_events_app, Hc, Hg, Hget by congruence. split; [|done].
    rewrite (count_other_token tid token p evs1); [done|done|].
    eapply Forall_impl; [exact Htok|]. simpl. congruence.
Qed.

Lemma check_tokens_present feed items td tid token p alerts :
  about tid token p -> NoDup (dict_keys items) ->
  dict_get token items = Some alerts ->
  count_events p (check_tokens feed items td).2
  = count_events p (check_token feed token alerts td).2
  /\ dict_get token (check_tokens feed items td).1
     = dict_get token (check_token feed token alerts td).1.
Proof.
  intros Hp. revert td. induction items as [|[k v] rest IH]; intros td Hnd Hget.
  - done.
  - unfold dict_keys in Hnd. rewrite fmap_cons, NoDup_cons in Hnd.
    destruct Hnd as [Hnotin Hnd]. simpl in Hnotin, Hget. simpl.
    destruct (decide (k = token)) as [->|Hne].
    + injection Hget as ->.
      destruct (check_token feed token alerts td) as [td1 evs1]. simpl.
      destruct (check_tokens_absent feed rest td1 tid token p Hp Hnotin)
        as [Hc Hg].
      destruct (check_tokens feed rest td1) as [td2 evs2]. simpl in *.
      rewrite count_events_app, Hc, Hg. split; [lia|done].
    + pose proof (check_token_tokens feed k v td) as Htok.
      pose proof (check_token_get_ne feed k v td token Hne) as Hother.
      destruct (check_token feed k v td) as [td1 evs1]. simpl in *.
      destruct (IH td1 Hnd Hget) as [Hc Hg].
      destruct (check_tokens feed rest td1) as [td2 evs2]. simpl in *.
      destruct (check_token_local feed token alerts td1 td Hother) as [He Hr].
      rewrite count_events_app, Hc, Hg, He, Hr. split; [|done].
      rewrite (count_other_token tid token p evs1); [done|done|].
      eapply Forall_impl; [exact Htok|]. simpl. congruence.
Qed.

(** The events of a subscriber on a token in a poll are those of the token's
    own iteration, and so is the token's new record. *)
Lemma check_price_alerts_token feed st tid token p alerts :
  about tid token p -> well_formed st ->
  dict_get token (price_alerts st) = Some alerts ->
  count_events p (check_price_alerts feed st).2
  = count_events p (check_token feed token alerts (token_data st)).2
  /\ dict_get token (token_data (check_price_alerts feed st).1)
     = dict_get token (check_token feed token alerts (token_data st)).1.
Proof.
  intros Hp [Hnd _] Hget. unfold check_price_alerts.
  pose proof (check_tokens_present feed (price_alerts st) (token_data st)
                tid token p alerts Hp Hnd Hget) as H.
  by destruct (check_tokens feed (price_alerts st) (token_data st)).
Qed.

Lemma check_price_alerts_alerts feed st :
  price_alerts (check_price_alerts feed st).1 = price_alerts st.
Proof.
  unfold check_price_alerts.
  by destruct (check_tokens feed (price_alerts st) (token_data st)).
Qed.

Lemma check_price_alerts_well_formed feed st :
  well_formed st -> well_formed (check_price_alerts feed st).1.
Proof. unfold well_formed. by rewrite check_price_alerts_alerts. Qed.

Lemma well_formed_alerts st token alerts :
  well_formed st -> dict_get token (price_alerts st) = Some alerts ->
  NoDup (telegram_id <$> alerts).
Proof.
  intros [_ Hall] Hget.
  exact (dict_get_Forall (fun kv => NoDup (telegram_id <$> kv.2)) _ _ _
           Hall Hget).
Qed.

Lemma subscription_alerts st tid token a :
  subscription st tid token = Some a ->
  exists alerts, dict_get token (price_alerts st) = Some alerts
    /\ find (fun a => bool_decide (telegram_id a = tid)) alerts = Some a
    /\ telegram_id a = tid.
Proof.
  unfold subscription. destruct (dict_get token (price_alerts st)) as [l|];
    simpl; [|done].
  intros Hfind. exists l. split; [done|]. split; [done|].
  apply find_some in Hfind as [_ H]. by apply bool_decide_eq_true in H.
Qed.

(** A successful poll of a token: the events of a subscriber are those of the
    subscriber's alert, and the price just read is recorded. *)
Lemma poll_subscriber feed st tid token p a price info :
  about tid token p -> well_formed st ->
  subscription st tid token = Some a ->
  get_token_price feed token = Some price ->
  get_token_info feed token = Some info ->
  count_events p (check_price_alerts feed st).2
  = count_events p
      (alert_events info token
         (previous_price (token_data st) token (price_in_eth price))
         (price_in_eth price) a)
  /\ recorded_price (check_price_alerts feed st).1 token
     = Some (price_in_eth price).
Proof.
  intros Hp Hwf Hsub Hprice Hinfo.
  destruct (subscription_alerts _ _ _ _ Hsub) as (alerts & Hget & Hfind & _).
  destruct (check_price_alerts_token feed st tid token p alerts Hp Hwf Hget)
    as [Hc Hr].
  unfold recorded_price. rewrite Hc, Hr. unfold check_token.
  rewrite Hprice. simpl. rewrite dict_get_set_eq. simpl. split; [|done].
  rewrite (check_alerts_info _ _ _ _ _ info Hinfo).
  rewrite (count_flat_map_alerts tid token) by
    eauto using well_formed_alerts.
  by rewrite Hfind.
Qed.

Lemma previous_price_recorded st token current previous :
  recorded_price st token = Some previous ->
  previous_price (token_data st) token current = previous.
Proof.
  unfold recorded_price, previous_price.
  destruct (dict_get token (token_data st)) as [r|]; simpl; [|done].
  by intros ->.
Qed.

Lemma count_high_alert_events info token previous current a :
  count_events (is_high_for (telegram_id a) token)
    (alert_events info token previous current a)
  = if crossed_high a previous current then 1%nat else 0%nat.
Proof.
  unfold alert_events, count_events.
  destruct (crossed_high a previous current),
           (crossed_low a previous current); simpl;
    rewrite ?filter_cons, ?filter_nil; simpl;
    rewrite ?bool_decide_eq_true_2 by done; simpl;
    repeat case_decide; done.
Qed.

Lemma count_low_alert_events info token previous current a :
  count_events (is_low_for (telegram_id a) token)
    (alert_events info token previous current a)
  = if crossed_low a previous current then 1%nat else 0%nat.
Proof.
  unfold alert_events, count_events.
  destruct (crossed_high a previous current),
           (crossed_low a previous current); simpl;
    rewrite ?filter_cons, ?filter_nil; simpl;
    rewrite ?bool_decide_eq_true_2 by done; simpl;
    repeat case_decide; done.
Qed.

Lemma crossed_high_positive a t previous current :
  price_high a = Some t -> Float64.lt 0%float t = true ->
  crossed_high a previous current
  = Float64.lt previous t && Float64.ge current t.
Proof.
  intros Ha Ht. unfold crossed_high. rewrite Ha.
  by rewrite (pos_truthy t Ht).
Qed.

Lemma crossed_low_positive a t previous current :
  price_low a = Some t -> Float64.lt 0%float t = true ->
  crossed_low a previous current
  = Float64.gt previous t && Float64.le current t.
Proof.
  intros Ha Ht. unfold crossed_low. rewrite Ha.
  by rewrite (pos_truthy t Ht).
Qed.

Lemma poll_recorded feed st tid token a price :
  well_formed st ->
  subscription st tid token = Some a ->
  get_token_price feed token = Some price ->
  recorded_price (check_price_alerts feed st).1 token
  = Some (price_in_eth price).
Proof.
  intros Hwf Hsub Hprice.
  destruct (subscription_alerts _ _ _ _ Hsub) as (alerts & Hget & _).
  destruct (check_price_alerts_token feed st tid token _ alerts
              (is_high_for_about tid token) Hwf Hget) as [_ Hr].
  unfold recorded_price. rewrite Hr. unfold check_token.
  rewrite Hprice. simpl. by rewrite dict_get_set_eq.
Qed.

Lemma poll_subscription feed st tid token :
  subscription (check_price_alerts feed st).1 tid token
  = subscription st tid token.
Proof. unfold subscription. by rewrite check_price_alerts_alerts. Qed.

Lemma poll_high feed st tid token a t price info previous :
  well_formed st ->
  subscription st tid token = Some a ->
  price_high a = Some t -> Float64.lt 0%float t = true ->
  recorded_price st token = Some previous ->
  get_token_price feed token = Some price ->
  get_token_info feed token = Some info ->
  count_events (is_high_for tid token) (check_price_alerts feed st).2
  = if Float64.lt previous t && Float64.ge (price_in_eth price) t
    then 1%nat else 0%nat.
Proof.
  intros Hwf Hsub Ha Ht Hprev Hprice Hinfo.
  destruct (poll_subscriber feed st tid token _ a price info
              (is_high_for_about tid token) Hwf Hsub Hprice Hinfo) as [-> _].
  destruct (subscription_alerts _ _ _ _ Hsub) as (_ & _ & _ & <-).
  rewrite count_high_alert_events, (previous_price_recorded _ _ _ _ Hprev).
  by rewrite (crossed_high_positive a t).
Qed.

Lemma poll_low feed st tid token a t price info previous :
  well_formed st ->
  subscription st tid token = Some a ->
  price_low a = Some t -> Float64.lt 0%float t = true ->
  recorded_price st token = Some previous ->
  get_token_price feed token = Some price ->
  get_token_info feed token = Some info ->
  count_events (is_low_for tid token) (check_price_alerts feed st).2
  = if Float64.gt previous t && Float64.le (price_in_eth price) t
    then 1%nat else 0%nat.
Proof.
  intros Hwf Hsub Ha Ht Hprev Hprice Hinfo.
  destruct (poll_subscriber feed st tid token _ a price info
              (is_low_for_about tid token) Hwf Hsub Hprice Hinfo) as [-> _].
  destruct (subscription_alerts _ _ _ _ Hsub) as (_ & _ & _ & <-).
  rewrite count_low_alert_events, (previous_price_recorded _ _ _ _ Hprev).
  by rewrite (crossed_low_positive a t).
Qed.

(** A poll at a price below a positive high threshold reports no high
    crossing, whatever was recorded and whether or not the metadata is
    available. *)
Lemma poll_below_high feed st tid token a t price :
  well_formed st ->
  subscription st tid token = Some a ->
  price_high a = Some t ->
  get_token_price feed token = Some price ->
  Float64.lt (price_in_eth price) t = true ->
  count_events (is_high_for tid token) (check_price_alerts feed st).2 = 0%nat.
Proof.
  intros Hwf Hsub Ha Hprice Hbelow.
  destruct (get_token_info feed token) as [info|] eqn:Hinfo.
  - destruct (poll_subscriber feed st tid token _ a price info
                (is_high_for_about tid token) Hwf Hsub Hprice Hinfo)
      as [-> _].
    destruct (subscription_alerts _ _ _ _ Hsub) as (_ & _ & _ & <-).
    rewrite count_high_alert_events. unfold crossed_high. rewrite Ha.
    rewrite (lt_not_ge _ _ Hbelow). by rewrite !andb_false_r.
  - destruct (subscription_alerts _ _ _ _ Hsub) as (alerts & Hget & _).
    destruct (check_price_alerts_token feed st tid token _ alerts
                (is_high_for_about tid token) Hwf Hget) as [-> _].
    unfold check_token. rewrite Hprice. simpl.
    by rewrite check_alerts_no_info.
Qed.

(** C1. Threshold crossings are edge-triggered. In a store where no
    subscriber has two alerts on a token, take a subscriber's alert on a
    token and a poll in which the token's price and metadata are read
    successfully, with a recorded previous price. A subscriber whose high
    threshold [t] is positive gets exactly one high-crossing event when
    previous < t and current >= t, and none otherwise; symmetrically one
    low-crossing event exactly when previous > t and current <= t. Hence,
    when the polled prices are t-1, t, t+1 (and t-1 is below t in binary64),
    the first poll gives the subscriber no high-crossing event, the second
    exactly one and the third none. *)
Theorem price_crossings_edge_triggered (st : State) (tid token : string)
    (a : Alert) :
  well_formed st ->
  subscription st tid token = Some a ->
  (forall feed price info previous,
      recorded_price st token = Some previous ->
      get_token_price feed token = Some price ->
      get_token_info feed token = Some info ->
      (forall t, price_high a = Some t -> Float64.lt 0%float t = true ->
         count_events (is_high_for tid token) (check_price_alerts feed st).2
         = if Float64.lt previous t && Float64.ge (price_in_eth price) t
           then 1%nat else 0%nat)
      /\ (forall t, price_low a = Some t -> Float64.lt 0%float t = true ->
         count_events (is_low_for tid token) (check_price_alerts feed st).2
         = if Float64.gt previous t && Float64.le (price_in_eth price) t
           then 1%nat else 0%nat))
  /\ (forall t f1 f2 f3 usd1 usd2 usd3 info,
      price_high a = Some t -> Float64.lt 0%float t = true ->
      Float64.lt (t - 1)%float t = true ->
      get_token_price f1 token
        = Some {| price_in_eth := (t - 1)%float; price_in_usd := usd1 |} ->
      get_token_price f2 token
        = Some {| price_in_eth := t; price_in_usd := usd2 |} ->
      get_token_price f3 token
        = Some {| price_in_eth := (t + 1)%float; price_in_usd := usd3 |} ->
      get_token_info f2 token = Some info ->
      get_token_info f3 token = Some info ->
      let poll1 := check_price_alerts f1 st in
      let poll2 := check_price_alerts f2 poll1.1 in
      let poll3 := check_price_alerts f3 poll2.1 in
      count_events (is_high_for tid token) poll1.2 = 0%nat
      /\ count_events (is_high_for tid token) poll2.2 = 1%nat
      /\ count_events (is_high_for tid token) poll3.2 = 0%nat).
Proof.
  intros Hwf Hsub. split.
  - intros feed price info previous Hprev Hprice Hinfo. split; intros t Ha Ht.
    + by apply (poll_high feed st tid token a t price info previous).
    + by apply (poll_low feed st tid token a t price info previous).
  - intros t f1 f2 f3 usd1 usd2 usd3 info Ha Ht Hbelow Hp1 Hp2 Hp3 Hi2 Hi3.
    intros poll1 poll2 poll3. subst poll1 poll2 poll3.
    set (st1 := (check_price_alerts f1 st).1).
    set (st2 := (check_price_alerts f2 st1).1).
    assert (well_formed st1) as Hwf1
      by by apply check_price_alerts_well_formed.
    assert (subscription st1 tid token = Some a) as Hsub1
      by (unfold st1; by rewrite poll_subscription).
    assert (recorded_price st1 token = Some (t - 1)%float) as Hrec1
      by exact (poll_recorded f1 st tid token a _ Hwf Hsub Hp1).
    assert (well_formed st2) as Hwf2
      by by apply check_price_alerts_well_formed.
    assert (subscription st2 tid token = Some a) as Hsub2
      by (unfold st2; by rewrite poll_subscription).
    assert (recorded_price st2 token = Some t) as Hrec2
      by exact (poll_recorded f2 st1 tid token a _ Hwf1 Hsub1 Hp2).
    split; [|split].
    + by apply (poll_below_high f1 st tid token a t _ Hwf Hsub Ha Hp1).
    + rewrite (poll_high f2 st1 tid token a t _ info _ Hwf1 Hsub1 Ha Ht
                 Hrec1 Hp2 Hi2). simpl.
      rewrite Hbelow. unfold Float64.ge.
      by rewrite (lt_le_refl _ _ Hbelow : PrimFloat.leb t t = true).
    + rewrite (poll_high f3 st2 tid token a t _ info _ Hwf2 Hsub2 Ha Ht
                 Hrec2 Hp3 Hi3). simpl.
      by rewrite lt_irrefl.
Qed.

(** *** Registering and unregistering *)

Lemma update_existing_tids tid high low alerts alerts' :
  update_existing tid high low alerts = Some alerts' ->
  telegram_id <$> alerts' = telegram_id <$> alerts.
Proof.
  revert alerts'. induction alerts as [|a rest IH]; intros alerts'; [done|].
  simpl. case_bool_decide.
  - intros [= <-]. done.
  - destruct (update_existing tid high low rest) as [rest'|]; [|done].
    intros [= <-]. csimpl. f_equal. by apply IH.
Qed.

Lemma update_existing_None tid high low alerts :
  update_existing tid high low alerts = None ->
  tid ∉ telegram_id <$> alerts.
Proof.
  induction alerts as [|a rest IH]; simpl.
  - intros _. apply not_elem_of_nil.
  - case_bool_decide; [done|].
    destruct (update_existing tid high low rest); [done|].
    intros _. csimpl. rewrite not_elem_of_cons. split; [congruence|].
    by apply IH.
Qed.

Lemma update_existing_find tid high low alerts alerts' :
  update_existing tid high low alerts = Some alerts' ->
  find (fun a => bool_decide (telegram_id a = tid)) alerts'
  = Some {| telegram_id := tid; price_high := high; price_low := low |}.
Proof.
  revert alerts'. induction alerts as [|a rest IH]; intros alerts'; [done|].
  simpl. case_bool_decide as Ha.
  - intros [= <-]. simpl. rewrite bool_decide_eq_true_2 by done.
    by rewrite Ha.
  - destruct (update_existing tid high low rest) as [rest'|]; [|done].
    intros [= <-]. simpl. rewrite bool_decide_eq_false_2 by done.
    by apply IH.
Qed.

Lemma find_None_tids tid (alerts : list Alert) :
  tid ∉ telegram_id <$> alerts ->
  find (fun a => bool_decide (telegram_id a = tid)) alerts = None.
Proof.
  induction alerts as [|a rest IH]; [done|]. csimpl.
  rewrite not_elem_of_cons. intros [Hne Hrest]. simpl.
  rewrite bool_decide_eq_false_2 by congruence. by apply IH.
Qed.

Lemma update_existing_of_find tid high low alerts a :
  find (fun a => bool_decide (telegram_id a = tid)) alerts = Some a ->
  is_Some (update_existing tid high low alerts).
Proof.
  induction alerts as [|a0 rest IH]; [done|]. simpl.
  case_bool_decide; [done|]. intros Hfind.
  destruct (IH Hfind) as [rest' ->]. done.
Qed.

Lemma count_tid_NoDup tid (alerts : list Alert) :
  NoDup (telegram_id <$> alerts) ->
  length (filter (fun a => telegram_id a = tid) alerts)
  = match find (fun a => bool_decide (telegram_id a = tid)) alerts with
    | Some _ => 1%nat
    | None => 0%nat
    end.
Proof.
  induction alerts as [|a rest IH]; [done|]. csimpl.
  rewrite NoDup_cons. intros [Hnotin Hnd]. simpl.
  case_bool_decide as Ha.
  - rewrite filter_cons_True by done. simpl. f_equal.
    rewrite IH, find_None_tids by congruence. done.
  - rewrite filter_cons_False by done. by apply IH.
Qed.

Lemma pop_alert_sublist tid alerts alerts' :
  pop_alert tid alerts = Some alerts' -> sublist alerts' alerts.
Proof.
  revert alerts'. induction alerts as [|a rest IH]; intros alerts'; [done|].
  simpl. case_bool_decide.
  - intros [= <-]. by apply sublist_cons.
  - destruct (pop_alert tid rest) as [rest'|]; [|done].
    intros [= <-]. apply sublist_skip. by apply IH.
Qed.

Lemma pop_alert_None tid alerts :
  pop_alert tid alerts = None <->
  find (fun a => bool_decide (telegram_id a = tid)) alerts = None.
Proof.
  induction alerts as [|a rest IH]; [done|]. simpl.
  case_bool_decide; [done|].
  destruct (pop_alert tid rest); simpl; [|tauto].
  split; [done|]. intros H'. by apply IH in H'.
Qed.

(** [pop(i)] takes out one alert of the subscriber. *)
Lemma pop_alert_count tid alerts alerts' :
  pop_alert tid alerts = Some alerts' ->
  S (length (filter (fun a => telegram_id a = tid) alerts'))
  = length (filter (fun a => telegram_id a = tid) alerts).
Proof.
  revert alerts'. induction alerts as [|a rest IH]; intros alerts'; [done|].
  simpl. case_bool_decide.
  - intros [= <-]. by rewrite filter_cons_True.
  - destruct (pop_alert tid rest) as [rest'|]; [|done].
    intros [= <-]. rewrite !filter_cons_False by done. by apply IH.
Qed.

Lemma well_formed_set st d token alerts td :
  well_formed st -> NoDup (telegram_id <$> alerts) ->
  well_formed {| db := d;
                 price_alerts := dict_set token alerts (price_alerts st);
                 token_data := td |}.
Proof.
  intros [Hk Hall] Hnd. split; simpl.
  - by apply dict_set_NoDup.
  - by apply dict_set_Forall.
Qed.

Lemma default_alerts_NoDup st token :
  well_formed st ->
  NoDup (telegram_id <$> default [] (dict_get token (price_alerts st))).
Proof.
  intros Hwf. destruct (dict_get token (price_alerts st)) as [l|] eqn:Hget.
  - simpl. by eapply well_formed_alerts.
  - simpl. apply NoDup_nil_2.
Qed.

Lemma add_price_alert_well_formed feed st tid token high low watchlist :
  well_formed st ->
  well_formed (add_price_alert feed st tid token high low watchlist).1.
Proof.
  intros Hwf. unfold add_price_alert.
  destruct (get_user_by_telegram_id (db st) tid); [|done].
  destruct (get_token_info feed token) as [info|]; [|done].
  match goal with |- context [match ?w with Some _ => _ | None => (st, _) end]
    => destruct w as [db'|] end; [|done].
  pose proof (default_alerts_NoDup st token Hwf) as Hnd.
  set (alerts := default [] (dict_get token (price_alerts st))) in *.
  destruct (update_existing tid high low alerts) as [alerts'|] eqn:Hupd.
  - simpl. apply well_formed_set; [done|].
    by rewrite (update_existing_tids _ _ _ _ _ Hupd).
  - assert (NoDup (telegram_id <$>
              alerts ++ [{| telegram_id := tid;
                            price_high := high; price_low := low |}])).
    { rewrite fmap_app. apply NoDup_app. split; [done|].
      split; [|apply NoDup_singleton].
      intros x Hx Hx'. apply list_elem_of_singleton in Hx'. subst x.
      by apply update_existing_None in Hupd. }
    destruct (dict_mem token (token_data st)).
    + simpl. by apply well_formed_set.
    + destruct (get_token_price feed token), (get_token_liquidity feed token);
        simpl; by apply well_formed_set.
Qed.

Lemma remove_price_alert_well_formed st tid token :
  well_formed st -> well_formed (remove_price_alert st tid token).1.
Proof.
  intros Hwf. unfold remove_price_alert.
  destruct (dict_get token (price_alerts st)) as [alerts|] eqn:Hget; [|done].
  destruct (pop_alert tid alerts) as [alerts'|] eqn:Hpop; [|done].
  assert (NoDup (telegram_id <$> alerts')) as Hnd.
  { eapply sublist_NoDup; [by eapply well_formed_alerts|].
    by apply fmap_sublist, (pop_alert_sublist tid). }
  destruct alerts' as [|a rest].
  - destruct Hwf as [Hk Hall]. split; simpl.
    + by apply dict_del_NoDup.
    + by apply dict_del_Forall.
  - simpl. by apply well_formed_set.
Qed.

Lemma step_well_formed st op : well_formed st -> well_formed (step st op).1.
Proof.
  intros Hwf. destruct op; simpl.
  - done.
  - by apply add_price_alert_well_formed.
  - by apply remove_price_alert_well_formed.
  - by apply check_price_alerts_well_formed.
  - done.
Qed.

(** Every state the engine reaches from empty stores is well formed. *)
Lemma run_well_formed st ops : well_formed st -> well_formed (run st ops).1.
Proof.
  revert st. induction ops as [|op ops IH]; intros st Hwf; [done|].
  simpl. pose proof (step_well_formed st op Hwf) as H1.
  destruct (step st op) as [st1 out1]. simpl in H1.
  specialize (IH st1 H1). by destruct (run st1 ops).
Qed.

Lemma initial_well_formed d : well_formed (initial d).
Proof. split; simpl; constructor. Qed.

(** C1 at work: subscriber 1001 has high threshold 2 on 0xT1 and the recorded
    price is 1.5. A poll at 2.5 gives one high crossing and no low crossing;
    the polls at 1, 2, 3 give one high crossing at the second poll and none at
    the third. *)
Lemma price_crossings_edge_triggered_witness :
  (count_events (is_high_for "1001" "0xT1")
     (check_price_alerts (Scenario.feed 2.5 10) Scenario.alerts1).2 = 1%nat
   /\ count_events (is_low_for "1001" "0xT1")
     (check_price_alerts (Scenario.feed 2.5 10) Scenario.alerts1).2 = 0%nat)
  /\ (let poll1 := check_price_alerts (Scenario.feed 1 10) Scenario.alerts1 in
      let poll2 := check_price_alerts (Scenario.feed 2 10) poll1.1 in
      let poll3 := check_price_alerts (Scenario.feed 3 10) poll2.1 in
      count_events (is_high_for "1001" "0xT1") poll1.2 = 0%nat
      /\ count_events (is_high_for "1001" "0xT1") poll2.2 = 1%nat
      /\ count_events (is_high_for "1001" "0xT1") poll3.2 = 0%nat).
Proof.
  destruct (price_crossings_edge_triggered Scenario.alerts1 "1001" "0xT1"
              {| telegram_id := "1001"; price_high := Some 2%float;
                 price_low := Some 1%float |}
              (add_price_alert_well_formed _ _ _ _ _ _ _
                 (initial_well_formed Scenario.db0))
              eq_refl) as [H1 H2].
  split.
  - destruct (H1 (Scenario.feed 2.5 10) _ Scenario.info0 1.5%float
                eq_refl eq_refl eq_refl) as [Hh Hl].
    split.
    + exact (Hh 2%float eq_refl eq_refl).
    + exact (Hl 1%float eq_refl eq_refl).
  - exact (H2 2%float (Scenario.feed 1 10) (Scenario.feed 2 10)
             (Scenario.feed 3 10) _ _ _ Scenario.info0
             eq_refl eq_refl eq_refl eq_refl eq_refl eq_refl eq_refl eq_refl).
Defined.

(** The alerts of a token after an unregistration that found the alert. *)
Lemma remove_price_alert_alerts st tid token alerts alerts' :
  dict_get token (price_alerts st) = Some alerts ->
  pop_alert tid alerts = Some alerts' ->
  default [] (dict_get token
                (price_alerts (remove_price_alert st tid token).1))
  = alerts'.
Proof.
  intros Hget Hpop. unfold remove_price_alert. rewrite Hget, Hpop. simpl.
  destruct alerts' as [|a rest].
  - by rewrite dict_get_del_eq.
  - by rewrite dict_get_set_eq.
Qed.

(** C9, as the code has it. Unregistering never raises. When the subscriber
    has no alert on the token the result is the error "Alert not found" and
    nothing changes; when there is one the result is a success and one alert
    of the subscriber on the token is gone. *)
Theorem remove_price_alert_result (st : State) (tid token : string) :
  match subscription st tid token with
  | None => remove_price_alert st tid token = (st, Error "Alert not found")
  | Some _ =>
      (remove_price_alert st tid token).2
      = Success "Price alert removed successfully!"
      /\ S (subscriptions (remove_price_alert st tid token).1 tid token)
         = subscriptions st tid token
  end.
Proof.
  unfold subscription, subscriptions.
  destruct (dict_get token (price_alerts st)) as [alerts|] eqn:Hget; simpl.
  - destruct (find _ alerts) as [a|] eqn:Hfind.
    + destruct (pop_alert tid alerts) as [alerts'|] eqn:Hpop.
      * rewrite (remove_price_alert_alerts st tid token alerts alerts')
          by done.
        split; [|by apply pop_alert_count].
        unfold remove_price_alert. by rewrite Hget, Hpop.
      * apply pop_alert_None in Hpop. congruence.
    + apply pop_alert_None in Hfind. unfold remove_price_alert.
      by rewrite Hget, Hfind.
  - unfold remove_price_alert. by rewrite Hget.
Qed.

(** C9 as stated fails: with no alert registered, the result of unregistering
    carries the error key. *)
Lemma remove_price_alert_reports_error :
  is_error (remove_price_alert (initial Scenario.db0) "1001" "0xT1").2 = true.
Proof. reflexivity. Qed.

(** C6, as the code has it. Unregistering the only alert of a token removes
    the token from [price_alerts] and leaves [token_data] as it is; a later
    registration for a token that has a record keeps that record, whatever
    the feed says at that time. *)
Theorem unregister_last_keeps_record (st : State) (tid token : string)
    (a : Alert) :
  dict_get token (price_alerts st) = Some [a] ->
  telegram_id a = tid ->
  dict_get token (price_alerts (remove_price_alert st tid token).1) = None
  /\ token_data (remove_price_alert st tid token).1 = token_data st
  /\ forall feed tid' high low watchlist,
       dict_mem token (token_data st) = true ->
       token_data
         (add_price_alert feed (remove_price_alert st tid token).1
            tid' token high low watchlist).1
       = token_data st.
Proof.
  intros Hget Ha. unfold remove_price_alert. rewrite Hget. simpl.
  rewrite bool_decide_eq_true_2 by done. simpl.
  split; [by rewrite dict_get_del_eq|]. split; [done|].
  intros feed tid' high low watchlist Hmem. unfold add_price_alert. simpl.
  destruct (get_user_by_telegram_id (db st) tid'); [|done].
  destruct (get_token_info feed token); [|done].
  match goal with |- context [match ?w with Some _ => _ | None => (_, _) end]
    => destruct w as [db'|] end; [|done].
  rewrite dict_get_del_eq. simpl. by rewrite Hmem.
Qed.

(** The instance of C6 on the example: subscriber 1001 is the only one on
    0xT1. *)
Lemma unregister_last_keeps_record_witness :
  dict_get "0xT1"
    (price_alerts (remove_price_alert Scenario.alerts1 "1001" "0xT1").1)
  = None
  /\ token_data (remove_price_alert Scenario.alerts1 "1001" "0xT1").1
     = token_data Scenario.alerts1.
Proof.
  destruct (unregister_last_keeps_record Scenario.alerts1 "1001" "0xT1"
              {| telegram_id := "1001"; price_high := Some 2%float;
                 price_low := Some 1%float |} eq_refl eq_refl)
    as (H1 & H2 & _).
  exact (conj H1 H2).
Defined.

(** C6 as stated fails. Subscriber 1001 registers on 0xT1 while the price is
    1.5, and unregisters: the record of 0xT1 is still there. The price moves
    to 3; the subscriber registers again with high threshold 2: the baseline
    is still 1.5, and the next poll, at the unchanged price 3, reports a
    crossing of 2. *)
Lemma unregister_leaves_stale_record :
  let st1 := (remove_price_alert Scenario.alerts1 "1001" "0xT1").1 in
  let st2 := (add_price_alert (Scenario.feed 3 10) st1 "1001" "0xT1"
                (Some 2%float) None None).1 in
  recorded_price st1 "0xT1" = Some 1.5%float
  /\ recorded_price st2 "0xT1" = Some 1.5%float
  /\ (check_price_alerts (Scenario.feed 3 10) st2).2
     = [PriceHighAlert "1001" "0xT1" Scenario.info0 2 3].
Proof. repeat split; reflexivity. Qed.

(** *** Registering twice *)

Lemma find_app_r tid (l : list Alert) a :
  tid ∉ telegram_id <$> l -> telegram_id a = tid ->
  find (fun a => bool_decide (telegram_id a = tid)) (l ++ [a]) = Some a.
Proof.
  intros Hl Ha. induction l as [|a0 rest IH]; simpl.
  - by rewrite bool_decide_eq_true_2.
  - csimpl in Hl. rewrite not_elem_of_cons in Hl. destruct Hl as [Hne Hrest].
    rewrite bool_decide_eq_false_2 by congruence. by apply IH.
Qed.

(** A registration that reports success leaves the subscriber with the
    thresholds of the call. *)
Lemma add_price_alert_subscription feed st tid token high low watchlist :
  is_error (add_price_alert feed st tid token high low watchlist).2 = false ->
  subscription (add_price_alert feed st tid token high low watchlist).1
    tid token
  = Some {| telegram_id := tid; price_high := high; price_low := low |}.
Proof.
  unfold add_price_alert, subscription.
  destruct (get_user_by_telegram_id (db st) tid); [|done].
  destruct (get_token_info feed token) as [info|]; [|done].
  match goal with |- context [match ?w with Some _ => _ | None => (st, _) end]
    => destruct w as [db'|] end; [|done].
  set (alerts := default [] (dict_get token (price_alerts st))).
  destruct (update_existing tid high low alerts) as [alerts'|] eqn:Hupd.
  - simpl. intros _. rewrite dict_get_set_eq. simpl.
    by apply (update_existing_find _ _ _ alerts).
  - apply update_existing_None in Hupd.
    destruct (dict_mem token (token_data st)).
    + simpl. intros _. rewrite dict_get_set_eq. simpl. by apply find_app_r.
    + destruct (get_token_price feed token), (get_token_liquidity feed token);
        simpl; try done;
        intros _; rewrite dict_get_set_eq; simpl; by apply find_app_r.
Qed.

(** A registration of a subscriber who already has an alert on the token
    leaves the list of subscribers of the token as it is. *)
Lemma add_price_alert_again feed st tid token high low watchlist a :
  subscription st tid token = Some a ->
  telegram_id <$> default [] (dict_get token
    (price_alerts (add_price_alert feed st tid token high low watchlist).1))
  = telegram_id <$> default [] (dict_get token (price_alerts st)).
Proof.
  unfold add_price_alert, subscription. intros Hsub.
  destruct (get_user_by_telegram_id (db st) tid); [|done].
  destruct (get_token_info feed token) as [info|]; [|done].
  match goal with |- context [match ?w with Some _ => _ | None => (st, _) end]
    => destruct w as [db'|] end; [|done].
  destruct (update_existing_of_find tid high low _ _ Hsub) as [alerts' Hupd].
  rewrite Hupd. simpl. rewrite dict_get_set_eq. simpl.
  by apply (update_existing_tids tid high low).
Qed.

Lemma subscriptions_well_formed st tid token :
  well_formed st ->
  subscriptions st tid token
  = match subscription st tid token with Some _ => 1%nat | None => 0%nat end.
Proof.
  intros Hwf. unfold subscriptions, subscription.
  by apply count_tid_NoDup, default_alerts_NoDup.
Qed.

(** In a poll a subscriber gets at most as many events of a kind on a token
    as one alert can give. *)
Lemma poll_at_most tid token p feed st n :
  about tid token p -> well_formed st ->
  (forall info previous current a,
      (count_events p (alert_events info token previous current a) <= n)%nat) ->
  (count_events p (check_price_alerts feed st).2 <= n)%nat.
Proof.
  intros Hp Hwf Hn.
  destruct (dict_get token (price_alerts st)) as [alerts|] eqn:Hget.
  - destruct (check_price_alerts_token feed st tid token p alerts Hp Hwf Hget)
      as [-> _].
    unfold check_token. destruct (get_token_price feed token); simpl;
      [|unfold count_events; simpl; lia].
    destruct (get_token_info feed token) as [info|] eqn:Hinfo.
    + rewrite (check_alerts_info _ _ _ _ _ info Hinfo).
      rewrite (count_flat_map_alerts tid token) by
        eauto using well_formed_alerts.
      destruct (find _ alerts); [apply Hn | lia].
    + rewrite check_alerts_no_info by done. unfold count_events; simpl; lia.
  - destruct Hwf as [Hk _]. unfold check_price_alerts.
    apply dict_get_None_keys in Hget.
    destruct (check_tokens_absent feed (price_alerts st) (token_data st)
                tid token p Hp Hget) as [Hc _].
    destruct (check_tokens feed (price_alerts st) (token_data st)).
    simpl in *. lia.
Qed.

Lemma alert_events_high_le tid info token previous current a :
  (count_events (is_high_for tid token)
     (alert_events info token previous current a) <= 1)%nat.
Proof.
  unfold alert_events, count_events.
  destruct (crossed_high a previous current),
           (crossed_low a previous current); simpl;
    rewrite ?filter_cons, ?filter_nil; simpl;
    repeat case_decide; simpl; lia.
Qed.

Lemma alert_events_low_le tid info token previous current a :
  (count_events (is_low_for tid token)
     (alert_events info token previous current a) <= 1)%nat.
Proof.
  unfold alert_events, count_events.
  destruct (crossed_high a previous current),
           (crossed_low a previous current); simpl;
    rewrite ?filter_cons, ?filter_nil; simpl;
    repeat case_decide; simpl; lia.
Qed.

(** C5. Registering the same subscriber on the same token twice, successfully:
    the second registration leaves the list of subscribers of the token as
    the first made it, the store holds exactly one alert for the pair, with
    the thresholds of the second call, and any poll afterwards gives the
    subscriber at most one high-crossing and at most one low-crossing event
    on the token. *)
Theorem reregistering_overwrites (st : State) (feed1 feed2 : Feed)
    (tid token : string) (high1 low1 high2 low2 : option float)
    (watchlist1 watchlist2 : option string) :
  well_formed st ->
  let first := add_price_alert feed1 st tid token high1 low1 watchlist1 in
  let second :=
    add_price_alert feed2 first.1 tid token high2 low2 watchlist2 in
  is_error first.2 = false ->
  is_error second.2 = false ->
  telegram_id <$> default [] (dict_get token (price_alerts second.1))
  = telegram_id <$> default [] (dict_get token (price_alerts first.1))
  /\ subscriptions second.1 tid token = 1%nat
  /\ subscription second.1 tid token
     = Some {| telegram_id := tid; price_high := high2; price_low := low2 |}
  /\ forall feed,
       (count_events (is_high_for tid token)
          (check_price_alerts feed second.1).2 <= 1)%nat
       /\ (count_events (is_low_for tid token)
             (check_price_alerts feed second.1).2 <= 1)%nat.
Proof.
  intros Hwf first second Hok1 Hok2.
  assert (well_formed first.1) as Hwf1
    by by apply add_price_alert_well_formed.
  assert (well_formed second.1) as Hwf2
    by by apply add_price_alert_well_formed.
  pose proof (add_price_alert_subscription _ _ _ _ _ _ _ Hok1) as Hsub1.
  pose proof (add_price_alert_subscription _ _ _ _ _ _ _ Hok2) as Hsub2.
  fold first in Hsub1. fold second in Hsub2.
  split; [by eapply add_price_alert_again|].
  split; [by rewrite subscriptions_well_formed, Hsub2|].
  split; [done|]. intros feed. split.
  - apply (poll_at_most tid token); [apply is_high_for_about|done|].
    intros. apply alert_events_high_le.
  - apply (poll_at_most tid token); [apply is_low_for_about|done|].
    intros. apply alert_events_low_le.
Qed.

(** C5 on the example: subscriber 1001 registers on 0xT1 a second time, with
    thresholds 4 and 3. *)
Lemma reregistering_overwrites_witness :
  let second :=
    add_price_alert (Scenario.feed 1.5 10) Scenario.alerts1 "1001" "0xT1"
      (Some 4%float) (Some 3%float) None in
  subscriptions second.1 "1001" "0xT1" = 1%nat
  /\ subscription second.1 "1001" "0xT1"
     = Some {| telegram_id := "1001"; price_high := Some 4%float;
               price_low := Some 3%float |}.
Proof.
  destruct (reregistering_overwrites (initial Scenario.db0)
              (Scenario.feed 1.5 10) (Scenario.feed 1.5 10) "1001" "0xT1"
              (Some 2%float) (Some 1%float) (Some 4%float) (Some 3%float)
              None None (initial_well_formed Scenario.db0) eq_refl eq_refl)
    as (_ & H1 & H2 & _).
  exact (conj H1 H2).
Defined.

(** *** A price query that fails *)

Lemma check_tokens_skip feed items td token :
  get_token_price feed token = None ->
  check_tokens feed items td = check_tokens feed (dict_del token items) td.
Proof.
  intros Hfail. revert td. induction items as [|[k v] rest IH]; intros td.
  - done.
  - simpl. destruct (decide (k = token)) as [->|Hne].
    + unfold check_token at 1. rewrite Hfail. rewrite <- IH.
      by destruct (check_tokens feed rest td).
    + simpl. destruct (check_token feed k v td) as [td1 evs1].
      by rewrite IH.
Qed.

Lemma check_tokens_untouched feed items td token :
  get_token_price feed token = None ->
  dict_get token (check_tokens feed items td).1 = dict_get token td
  /\ Forall (fun e => event_token e <> token) (check_tokens feed items td).2.
Proof.
  intros Hfail. revert td. induction items as [|[k v] rest IH]; intros td.
  - split; [done|constructor].
  - simpl. pose proof (check_token_tokens feed k v td) as Htok.
    assert (dict_get token (check_token feed k v td).1 = dict_get token td
            /\ (k = token -> (check_token feed k v td).2 = [])) as [Hget Hev].
    { unfold check_token. destruct (decide (k = token)) as [->|Hne].
      - by rewrite Hfail.
      - destruct (get_token_price feed k); simpl; [|done].
        by rewrite dict_get_set_ne. }
    destruct (check_token feed k v td) as [td1 evs1]. simpl in *.
    destruct (IH td1) as [Hg Hf].
    destruct (check_tokens feed rest td1) as [td2 evs2]. simpl in *.
    split; [congruence|]. apply Forall_app. split; [|done].
    destruct (decide (k = token)) as [Heq|Hne].
    + rewrite (Hev Heq). constructor.
    + eapply Forall_impl; [exact Htok|]. simpl. congruence.
Qed.

(** A listed token whose price is read gets the price recorded, wherever it
    stands in the iteration. *)
Lemma check_tokens_records feed items td token price :
  get_token_price feed token = Some price ->
  token ∈ dict_keys items
  \/ dict_get token td ≫= price_eth = Some (price_in_eth price) ->
  dict_get token (check_tokens feed items td).1 ≫= price_eth
  = Some (price_in_eth price).
Proof.
  intros Hprice. revert td. induction items as [|[k v] rest IH]; intros td.
  - intros [Hin|Hrec]; [|done]. by apply elem_of_nil in Hin.
  - intros Hor. simpl.
    assert (token ∈ dict_keys rest
            \/ dict_get token (check_token feed k v td).1 ≫= price_eth
               = Some (price_in_eth price)) as Hor'.
    { destruct (decide (k = token)) as [->|Hne].
      - right. unfold check_token. rewrite Hprice. simpl.
        by rewrite dict_get_set_eq.
      - rewrite (check_token_get_ne feed k v td token Hne).
        destruct Hor as [Hin|Hrec]; [left|by right].
        unfold dict_keys in Hin. rewrite fmap_cons in Hin.
        apply elem_of_cons in Hin as [?|?]; [simpl in *; congruence|done]. }
    destruct (check_token feed k v td) as [td1 evs1]. simpl in *.
    specialize (IH td1 Hor').
    by destruct (check_tokens feed rest td1) as [td2 evs2].
Qed.

(** The price poll alone. A token whose price query fails in a poll is
    skipped by it: its record in [token_data] is what it was, no event of the
    poll is about it, the poll leaves the alerts and the database alone, its
    events and records are those of the same poll without the token, and
    every other listed token whose price is read has that price recorded. *)
Theorem failed_price_fetch_skips_token (feed : Feed) (st : State)
    (token : string) :
  get_token_price feed token = None ->
  let without :=
    {| db := db st;
       price_alerts := dict_del token (price_alerts st);
       token_data := token_data st |} in
  dict_get token (token_data (check_price_alerts feed st).1)
  = dict_get token (token_data st)
  /\ Forall (fun e => event_token e <> token) (check_price_alerts feed st).2
  /\ price_alerts (check_price_alerts feed st).1 = price_alerts st
  /\ db (check_price_alerts feed st).1 = db st
  /\ (check_price_alerts feed st).2 = (check_price_alerts feed without).2
  /\ token_data (check_price_alerts feed st).1
     = token_data (check_price_alerts feed without).1
  /\ forall other price,
       other ∈ dict_keys (price_alerts st) ->
       get_token_price feed other = Some price ->
       recorded_price (check_price_alerts feed st).1 other
       = Some (price_in_eth price).
Proof.
  intros Hfail without.
  destruct (check_tokens_untouched feed (price_alerts st) (token_data st)
              token Hfail) as [Hget Hev].
  pose proof (check_tokens_skip feed (price_alerts st) (token_data st)
                token Hfail) as Hskip.
  assert (forall other price,
             other ∈ dict_keys (price_alerts st) ->
             get_token_price feed other = Some price ->
             dict_get other
               (check_tokens feed (price_alerts st) (token_data st)).1
               ≫= price_eth = Some (price_in_eth price)) as Hrec.
  { intros other price Hin Hprice.
    apply check_tokens_records; [done|by left]. }
  unfold check_price_alerts, without, recorded_price. simpl.
  rewrite <- Hskip.
  destruct (check_tokens feed (price_alerts st) (token_data st))
    as [td evs]. simpl in *.
  repeat split; done.
Qed.

(** On the example: the price query of 0xT1 fails while 0xT2 is read at 2.5:
    the record of 0xT1 stays, nothing is reported about 0xT1, and 0xT2, which
    comes after 0xT1, is updated and reported. *)
Lemma failed_price_fetch_skips_token_witness :
  let feed := Scenario.feed_failing "0xT1" 2.5 10 in
  dict_get "0xT1" (token_data (check_price_alerts feed Scenario.alerts2).1)
  = dict_get "0xT1" (token_data Scenario.alerts2)
  /\ recorded_price (check_price_alerts feed Scenario.alerts2).1 "0xT2"
     = Some 2.5%float
  /\ (check_price_alerts feed Scenario.alerts2).2
     = [PriceHighAlert "1001" "0xT2" Scenario.info0 2 2.5].
Proof.
  destruct (failed_price_fetch_skips_token
              (Scenario.feed_failing "0xT1" 2.5 10) Scenario.alerts2 "0xT1"
              eq_refl) as (H1 & _ & _ & _ & _ & _ & H2).
  split; [exact H1|]. split; [|reflexivity].
  refine (H2 "0xT2" _ _ eq_refl).
  apply (bool_decide_unpack _). vm_compute. exact I.
Defined.

(** *** Liquidity swings *)

Lemma check_liquidity_tokens feed pa token data :
  Forall (fun e => event_token e = token)
    (check_liquidity feed pa token data).2.
Proof.
  unfold check_liquidity.
  destruct (get_token_liquidity feed token); simpl; [|constructor].
  destruct (significant _); simpl; [|constructor].
  destruct (get_token_info feed token); simpl; [|constructor].
  apply Forall_fmap, Forall_forall. done.
Qed.

Lemma count_singleton_NoDup (x : string) (l : list string) :
  NoDup l ->
  length (filter (fun y => y = x) l)
  = if bool_decide (x ∈ l) then 1%nat else 0%nat.
Proof.
  induction 1 as [|y l Hy Hl IH]; [done|].
  destruct (decide (y = x)) as [->|Hne].
  - rewrite filter_cons_True by done. simpl.
    rewrite bool_decide_eq_true_2 by left. f_equal.
    rewrite IH. by rewrite bool_decide_eq_false_2.
  - rewrite filter_cons_False by done. rewrite IH.
    rewrite (bool_decide_ext (x ∈ l) (x ∈ y :: l)); [done|].
    rewrite elem_of_cons. split; [by right | intros [?|?]; [congruence|done]].
Qed.

Lemma count_liquidity_fmap tid token info previous current change
    (l : list string) :
  count_events (is_liquidity_for tid token)
    ((fun u => LiquidityAlert u token info previous current change) <$> l)
  = length (filter (fun u => u = tid) l).
Proof.
  unfold count_events. induction l as [|u l IH]; [done|]. csimpl.
  rewrite !filter_cons. simpl.
  destruct (decide (u = tid)) as [->|Hne].
  - rewrite !bool_decide_eq_true_2 by done. simpl. by rewrite IH.
  - rewrite (bool_decide_eq_false_2 (u = tid)) by done. simpl.
    by rewrite ?decide_False.
Qed.

(** What a successful liquidity poll of a token reports to a subscriber, and
    what it records: an event exactly when the change that the code computes
    in binary64 from the recorded and the current ETH liquidity is
    significant and the subscriber has an alert on the token; the current
    liquidity is recorded either way, so the next poll compares against it. *)
Lemma liquidity_alerts_spec feed st tid token data liquidity info :
  NoDup (dict_keys (token_data st)) ->
  dict_get token (token_data st) = Some data ->
  get_token_liquidity feed token = Some liquidity ->
  get_token_info feed token = Some info ->
  let current := ld_eth_liquidity liquidity in
  let previous := default current (eth_liquidity data) in
  count_events (is_liquidity_for tid token)
    (check_liquidity_changes feed st).2
  = (if significant (change_percent previous current)
        && bool_decide (tid ∈ users_of (price_alerts st) token)
     then 1%nat else 0%nat)
  /\ dict_get token (token_data (check_liquidity_changes feed st).1)
       ≫= eth_liquidity = Some current.
Proof.
  intros Hnd Hget Hliq Hinfo current previous.
  unfold check_liquidity_changes. simpl.
  generalize (price_alerts st) as pa. intros pa.
  revert Hnd Hget. generalize (token_data st) as td.
  induction td as [|[k d] td IH]; intros Hnd Hget; [done|].
  unfold dict_keys in Hnd. rewrite fmap_cons, NoDup_cons in Hnd.
  destruct Hnd as [Hnotin Hnd]. simpl in Hnotin, Hget.
  simpl. rewrite count_events_app.
  destruct (decide (k = token)) as [->|Hne].
  - injection Hget as ->. split.
    + rewrite (count_other_token tid token _ (flat_map _ td));
        [|apply is_liquidity_for_about|].
      * unfold check_liquidity. rewrite Hliq, Hinfo. fold current previous.
        destruct (significant (change_percent previous current)); simpl.
        -- rewrite count_liquidity_fmap, count_singleton_NoDup
             by apply NoDup_elements.
           rewrite (bool_decide_ext _ _ (elem_of_elements _ tid)). lia.
        -- done.
      * apply Forall_flat_map, Forall_forall. intros [k' d'] Hin.
        eapply Forall_impl; [apply check_liquidity_tokens|].
        intros e ->. simpl. intros ->. apply Hnotin.
        apply list_elem_of_fmap. by exists (token, d').
    + unfold check_liquidity. rewrite Hliq, Hinfo.
      by destruct (significant _).
  - destruct (IH Hnd Hget) as [Hc Hr]. split; [|done].
    rewrite Hc.
    rewrite (count_other_token tid token _ (check_liquidity feed pa k d).2);
      [done|apply is_liquidity_for_about|].
    eapply Forall_impl; [apply check_liquidity_tokens|]. simpl. congruence.
Qed.

(** The keys of [token_data] stay distinct in every state the engine
    reaches, so [liquidity_alerts_spec] applies there. *)
Lemma check_tokens_keys feed items td :
  NoDup (dict_keys td) -> NoDup (dict_keys (check_tokens feed items td).1).
Proof.
  revert td. induction items as [|[k v] rest IH]; intros td Hnd; [done|].
  simpl.
  assert (NoDup (dict_keys (check_token feed k v td).1)) as H1.
  { unfold check_token. destruct (get_token_price feed k); simpl; [|done].
    by apply dict_set_NoDup. }
  destruct (check_token feed k v td) as [td1 evs1]. simpl in H1.
  specialize (IH td1 H1). by destruct (check_tokens feed rest td1).
Qed.

Lemma check_liquidity_changes_keys feed st :
  dict_keys (token_data (check_liquidity_changes feed st).1)
  = dict_keys (token_data st).
Proof.
  unfold check_liquidity_changes, dict_keys. simpl.
  induction (token_data st) as [|[k d] td IH]; [done|]. csimpl.
  by rewrite IH.
Qed.

Lemma step_token_data_keys st op :
  NoDup (dict_keys (token_data st)) ->
  NoDup (dict_keys (token_data (step st op).1)).
Proof.
  intros Hnd.
  destruct op as [tid|feed tid token high low watchlist|tid token|feed|feed];
    simpl.
  - done.
  - unfold add_price_alert.
    destruct (get_user_by_telegram_id (db st) tid); [|done].
    destruct (get_token_info feed token); [|done].
    match goal with |- context [match ?w with Some _ => _ | None => (st, _) end]
      => destruct w as [db'|] end; [|done].
    destruct (update_existing _ _ _ _); [done|].
    destruct (dict_mem token (token_data st)); [done|].
    destruct (get_token_price feed token),
             (get_token_liquidity feed token); simpl; try done.
    by apply dict_set_NoDup.
  - unfold remove_price_alert.
    destruct (dict_get token (price_alerts st)) as [alerts|]; [|done].
    by destruct (pop_alert tid alerts).
  - unfold check_price_alerts.
    pose proof (check_tokens_keys feed (price_alerts st) (token_data st) Hnd).
    by destruct (check_tokens feed (price_alerts st) (token_data st)).
  - by rewrite <- (check_liquidity_changes_keys feed st) in Hnd.
Qed.

Lemma run_token_data_keys st ops :
  NoDup (dict_keys (token_data st)) ->
  NoDup (dict_keys (token_data (run st ops).1)).
Proof.
  revert st. induction ops as [|op ops IH]; intros st Hnd; [done|].
  simpl. pose proof (step_token_data_keys st op Hnd) as H1.
  destruct (step st op) as [st1 out1]. simpl in H1.
  specialize (IH st1 H1). by destruct (run st1 ops).
Qed.

(** In a monitoring round a token whose price query fails keeps the price part
    of its record; its liquidity is polled by the second loop all the same. *)
Lemma round_failed_price_keeps_price feed st token :
  get_token_price feed token = None ->
  dict_get token (token_data (monitoring_round feed st).1) ≫= price_eth
  = dict_get token (token_data st) ≫= price_eth.
Proof.
  intros Hfail. unfold monitoring_round.
  destruct (check_tokens_untouched feed (price_alerts st) (token_data st)
              token Hfail) as [Hget _].
  unfold check_price_alerts.
  destruct (check_tokens feed (price_alerts st) (token_data st)) as [td evs].
  simpl in *. rewrite <- Hget. clear Hget.
  generalize (price_alerts st). intros pa.
  induction td as [|[k d] td IH]; [done|]. csimpl.
  destruct (decide (k = token)) as [->|Hne]; [|done].
  unfold check_liquidity.
  destruct (get_token_liquidity feed token); simpl; [|done].
  destruct (significant _); simpl; [|done].
  by destruct (get_token_info feed token).
Qed.

(** C3 at the boundary. The recorded ETH liquidity of 0xT1 is 10 and
    subscribers 1001 and 1002 have alerts on it. For a current liquidity of
    12 the code computes (12 / 10 - 1) * 100 in binary64: the quotient rounds
    to the double below 1.2 and the product is 19.999999999999996, which is
    not [>= 20]: the poll reports nothing, and neither does the drop to 8. A
    rise to 12.5 is reported to both subscribers, and so is the next rise, from
    12.5 to 15.625. *)
Theorem liquidity_exact_twenty_percent_missed :
  change_percent 10 12 = 19.999999999999996%float
  /\ significant (change_percent 10 12) = false
  /\ (check_liquidity_changes (Scenario.feed 1.5 12) Scenario.alerts2).2 = []
  /\ (check_liquidity_changes (Scenario.feed 1.5 8) Scenario.alerts2).2 = []
  /\ (let poll1 :=
        check_liquidity_changes (Scenario.feed 1.5 12.5) Scenario.alerts2 in
      let poll2 := check_liquidity_changes (Scenario.feed 1.5 15.625) poll1.1 in
      count_events (is_liquidity_for "1001" "0xT1") poll1.2 = 1%nat
      /\ count_events (is_liquidity_for "1002" "0xT1") poll1.2 = 1%nat
      /\ count_events (is_liquidity_for "1001" "0xT1") poll2.2 = 1%nat
      /\ count_events (is_liquidity_for "1002" "0xT1") poll2.2 = 1%nat).
Proof. repeat split; vm_compute; reflexivity. Qed.

End AlertsFacts.

(** ** The copy-trade watcher *)

Module CopyTradeFacts.
Import Database CopyTrade.

(** *** The table of configurations *)

Lemma foldr_max_ge (l : list Z) x : x ∈ l -> x <= foldr Z.max 0 l.
Proof.
  induction l as [|y l IH]; [by intros ?%elem_of_nil|].
  intros [->|Hin]%elem_of_cons; simpl; [lia|]. specialize (IH Hin). lia.
Qed.

Lemma next_id_fresh (l : list Z) : next_id l ∉ l.
Proof.
  intros Hin. apply foldr_max_ge in Hin. unfold next_id in Hin. lia.
Qed.

Lemma patch_first_ids cid act slippage sandbox max_eth l :
  config_id <$> (patch_first cid act slippage sandbox max_eth l).1
  = config_id <$> l.
Proof.
  induction l as [|c l IH]; [done|]. simpl. case_bool_decide.
  - done.
  - destruct (patch_first cid act slippage sandbox max_eth l) as [l' r].
    csimpl in *. by rewrite IH.
Qed.

Lemma patch_first_found cid act slippage sandbox max_eth l :
  cid ∈ config_id <$> l ->
  exists c, (patch_first cid act slippage sandbox max_eth l).2 = Some c
    /\ c ∈ (patch_first cid act slippage sandbox max_eth l).1
    /\ config_id c = cid
    /\ active c = default (active c) act.
Proof.
  induction l as [|c0 l IH]; [by intros ?%elem_of_nil|].
  csimpl. case_bool_decide as Hc.
  - intros _. eexists. split; [done|]. split; [left|]. split; [done|].
    simpl. by destruct act.
  - intros [?|Hin]%elem_of_cons; [congruence|].
    destruct (IH Hin) as (c & Hr & Hc' & Hid & Hact).
    destruct (patch_first cid act slippage sandbox max_eth l) as [l' r].
    simpl in *. exists c. split; [done|]. split; [by right|done].
Qed.

Lemma patch_first_None cid act slippage sandbox max_eth l :
  (patch_first cid act slippage sandbox max_eth l).2 = None ->
  (patch_first cid act slippage sandbox max_eth l).1 = l.
Proof.
  induction l as [|c0 l IH]; [done|]. simpl. case_bool_decide; [done|].
  destruct (patch_first cid act slippage sandbox max_eth l) as [l' r].
  simpl in *. intros ->. by rewrite IH.
Qed.

Lemma update_copy_trade_config_ids d cid act slippage sandbox max_eth :
  db_ids (update_copy_trade_config d cid act slippage sandbox max_eth).1
  = db_ids d.
Proof.
  unfold update_copy_trade_config, db_ids.
  pose proof (patch_first_ids cid act slippage sandbox max_eth
                (copy_trade_configs d)) as H.
  by destruct (patch_first _ _ _ _ _ _).
Qed.

Lemma update_copy_trade_config_users d cid act slippage sandbox max_eth :
  users (update_copy_trade_config d cid act slippage sandbox max_eth).1
  = users d.
Proof.
  unfold update_copy_trade_config. by destruct (patch_first _ _ _ _ _ _).
Qed.

(** *** The processed set only grows *)

Lemma setup_processed feed st tid target slippage max_eth sandbox :
  processed_transactions
    (setup_copy_trading feed st tid target slippage max_eth sandbox).1
  = processed_transactions st.
Proof.
  unfold setup_copy_trading. destruct (negb (is_address feed target)); [done|].
  destruct (get_user_by_telegram_id (db st) tid) as [u|]; [|done].
  destruct (negb (str_truthy (wallet_address u))); [done|].
  by destruct (create_copy_trade_config _ _ _ _ _ _ _) as [d [c|]].
Qed.

Lemma update_processed st tid cid act slippage sandbox max_eth :
  processed_transactions
    (update_copy_trading st tid cid act slippage sandbox max_eth).1
  = processed_transactions st.
Proof.
  unfold update_copy_trading.
  destruct (get_user_by_telegram_id (db st) tid); [|done].
  destruct (update_copy_trade_config _ _ _ _ _ _) as [d [c|]]; [|done].
  by destruct (update_wallets _ _ _ _ _ _ _).
Qed.

Lemma process_processed st transaction :
  processed_transactions (process_transaction st transaction).1
  = {[ tx_hash transaction ]} ∪ processed_transactions st.
Proof.
  unfold process_transaction. case_bool_decide as Hin.
  - simpl. apply set_eq. intros x.
    rewrite elem_of_union, elem_of_singleton. split; [tauto|].
    intros [->|?]; done.
  - by destruct (dict_get _ _).
Qed.

Lemma step_processed st op :
  processed_transactions st ⊆ processed_transactions (step st op).1.
Proof.
  destruct op; simpl.
  - done.
  - done.
  - by rewrite setup_processed.
  - by rewrite update_processed.
  - rewrite process_processed. set_solver.
Qed.

Lemma run_processed st ops :
  processed_transactions st ⊆ processed_transactions (run st ops).1.
Proof.
  revert st. induction ops as [|op ops IH]; intros st; [done|]. simpl.
  pose proof (step_processed st op) as H1.
  destruct (step st op) as [st1 out1]. simpl in H1.
  specialize (IH st1). destruct (run st1 ops) as [st2 out2]. simpl in *.
  set_solver.
Qed.

(** A transaction whose hash is in the set is dropped at the first test. *)
Lemma process_seen st transaction :
  tx_hash transaction ∈ processed_transactions st ->
  process_transaction st transaction = (st, []).
Proof.
  intros Hin. unfold process_transaction. by rewrite bool_decide_eq_true_2.
Qed.

(** A transaction that is new goes through the entries of its sender. *)
Lemma process_new st transaction :
  tx_hash transaction ∉ processed_transactions st ->
  (process_transaction st transaction).2
  = intents_of (db st) transaction (watchers st (tx_from transaction)).
Proof.
  intros Hin. unfold process_transaction, watchers, intents_of.
  rewrite bool_decide_eq_false_2 by done. by destruct (dict_get _ _).
Qed.

(** *** Updating the entries *)

Lemma dict_elem_get {V} (d : dict V) k v :
  NoDup (dict_keys d) -> (k, v) ∈ d -> dict_get k d = Some v.
Proof.
  unfold dict_keys. induction d as [|[k' v'] d IH]; [by intros _ ?%elem_of_nil|].
  rewrite fmap_cons, NoDup_cons. intros [Hnotin Hnd].
  intros [[= -> ->]|Hin]%elem_of_cons; simpl.
  - by rewrite decide_True.
  - rewrite decide_False; [by apply IH|]. intros ->. apply Hnotin.
    apply list_elem_of_fmap. by exists (k, v).
Qed.

Lemma dict_keys_elem {V} (d : dict V) k :
  k ∈ dict_keys d -> exists v, (k, v) ∈ d.
Proof.
  unfold dict_keys. intros ([k' v] & -> & Hin)%list_elem_of_fmap.
  by exists v.
Qed.

Lemma filter_ids_notin cid (l : list UserConfig) :
  cid ∉ ids l -> filter (fun c => uc_config_id c <> cid) l = l.
Proof.
  induction l as [|c l IH]; [done|]. unfold ids. csimpl.
  rewrite not_elem_of_cons. intros [Hne Hl].
  rewrite filter_cons_True by congruence. by rewrite IH.
Qed.

Lemma update_configs_None cid act slippage sandbox max_eth configs :
  update_configs cid act slippage sandbox max_eth configs = None ->
  cid ∉ ids configs.
Proof.
  induction configs as [|c l IH]; [intros _; apply not_elem_of_nil|].
  simpl. case_bool_decide.
  - by destruct act as [[]|].
  - destruct (update_configs cid act slippage sandbox max_eth l); [done|].
    intros _. unfold ids. csimpl. rewrite not_elem_of_cons.
    split; [congruence|by apply IH].
Qed.

Lemma update_configs_sublist cid act slippage sandbox max_eth configs configs' :
  update_configs cid act slippage sandbox max_eth configs = Some configs' ->
  ids configs' `sublist_of` ids configs.
Proof.
  revert configs'. induction configs as [|c l IH]; intros configs'; [done|].
  simpl. case_bool_decide.
  - destruct act as [[]|]; intros [= <-]; unfold ids; csimpl;
      try done; by apply sublist_cons.
  - destruct (update_configs cid act slippage sandbox max_eth l) as [l'|];
      [|done].
    intros [= <-]. unfold ids. csimpl. apply sublist_skip. by apply IH.
Qed.

(** A deactivation pops the entry of the config. *)
Lemma update_configs_pop cid slippage sandbox max_eth configs configs' :
  NoDup (ids configs) ->
  update_configs cid (Some false) slippage sandbox max_eth configs
  = Some configs' ->
  configs' = filter (fun c => uc_config_id c <> cid) configs.
Proof.
  revert configs'. induction configs as [|c l IH]; intros configs'; [done|].
  unfold ids. csimpl. rewrite NoDup_cons. intros [Hnotin Hnd].
  case_bool_decide as Hc.
  - intros [= <-]. rewrite filter_cons_False by (simpl; tauto).
    symmetry. apply filter_ids_notin. by rewrite <- Hc.
  - destruct (update_configs cid (Some false) slippage sandbox max_eth l)
      as [l'|]; [|done].
    intros [= <-]. rewrite filter_cons_True by done. f_equal. by apply IH.
Qed.

Lemma update_wallets_keys cid act slippage sandbox max_eth items mw :
  NoDup (dict_keys mw) ->
  NoDup (dict_keys
           (update_wallets cid act slippage sandbox max_eth items mw).1).
Proof.
  revert mw. induction items as [|[wallet configs] rest IH]; intros mw Hnd;
    [done|].
  simpl. destruct (update_configs _ _ _ _ _ configs) as [[|c cs]|].
  - simpl. by apply dict_del_NoDup.
  - by apply IH, dict_set_NoDup.
  - by apply IH.
Qed.

(** After an update every list of entries is what is left of the list the
    wallet had before. *)
Lemma update_wallets_lookup cid act slippage sandbox max_eth items mw :
  NoDup (dict_keys items) ->
  (forall w l, (w, l) ∈ items -> dict_get w mw = Some l) ->
  forall w l',
    dict_get w (update_wallets cid act slippage sandbox max_eth items mw).1
    = Some l' ->
    exists l, dict_get w mw = Some l /\ ids l' `sublist_of` ids l.
Proof.
  revert mw. induction items as [|[wallet configs] rest IH];
    intros mw Hnd Hitems w l'.
  - simpl. intros Hget. by exists l'.
  - unfold dict_keys in Hnd. rewrite fmap_cons, NoDup_cons in Hnd.
    destruct Hnd as [Hnotin Hnd]. simpl in Hnotin.
    assert (forall w l, (w, l) ∈ rest -> w <> wallet) as Hrest.
    { intros w0 l0 Hin ->. apply Hnotin. apply list_elem_of_fmap.
      by exists (wallet, l0). }
    simpl.
    destruct (update_configs cid act slippage sandbox max_eth configs)
      as [[|c cs]|] eqn:Hupd.
    + simpl. destruct (decide (wallet = w)) as [->|Hne].
      * by rewrite dict_get_del_eq.
      * rewrite dict_get_del_ne by done. intros Hget. by exists l'.
    + intros Hget.
      destruct (IH (dict_set wallet (c :: cs) mw) Hnd) with (w := w) (l' := l')
        as (l1 & Hl1 & Hsub); [|done|].
      { intros w0 l0 Hin. rewrite dict_get_set_ne by (symmetry; eauto).
        apply Hitems. by right. }
      destruct (decide (wallet = w)) as [->|Hne].
      * rewrite dict_get_set_eq in Hl1. injection Hl1 as <-.
        exists configs. split; [apply Hitems; left|].
        etrans; [exact Hsub|]. by eapply update_configs_sublist.
      * rewrite dict_get_set_ne in Hl1 by done. by exists l1.
    + intros Hget. apply (IH mw Hnd); [|done].
      intros w0 l0 Hin. apply Hitems. by right.
Qed.

Lemma update_wallets_cons cid act slippage sandbox max_eth wallet configs
    rest mw :
  update_wallets cid act slippage sandbox max_eth ((wallet, configs) :: rest)
    mw
  = match update_configs cid act slippage sandbox max_eth configs with
    | None => update_wallets cid act slippage sandbox max_eth rest mw
    | Some [] => (dict_del wallet mw, false)
    | Some configs' =>
        update_wallets cid act slippage sandbox max_eth rest
          (dict_set wallet configs' mw)
    end.
Proof. reflexivity. Qed.

(** A deactivation takes the entry of the config out of every list. *)
Lemma update_wallets_deactivate cid slippage sandbox max_eth items mw :
  NoDup (dict_keys items) ->
  (forall w l, (w, l) ∈ items -> dict_get w mw = Some l) ->
  (forall w l, (w, l) ∈ items -> NoDup (ids l)) ->
  (forall w w' l l', w <> w' -> (w, l) ∈ items -> (w', l') ∈ items ->
     cid ∈ ids l -> cid ∉ ids l') ->
  forall w,
    default [] (dict_get w
      (update_wallets cid (Some false) slippage sandbox max_eth items mw).1)
    = if bool_decide (w ∈ dict_keys items)
      then filter (fun c => uc_config_id c <> cid)
             (default [] (dict_get w mw))
      else default [] (dict_get w mw).
Proof.
  revert mw. induction items as [|[wallet configs] rest IH];
    intros mw Hnd Hitems Hlists Hcross w.
  - rewrite bool_decide_eq_false_2; [done|apply not_elem_of_nil].
  - unfold dict_keys in Hnd. rewrite fmap_cons, NoDup_cons in Hnd.
    destruct Hnd as [Hnotin Hnd]. simpl in Hnotin.
    assert (forall w l, (w, l) ∈ rest -> w <> wallet) as Hrest.
    { intros w0 l0 Hin ->. apply Hnotin. apply list_elem_of_fmap.
      by exists (wallet, l0). }
    assert (dict_get wallet mw = Some configs) as Hhead
      by (apply Hitems; left).
    assert (NoDup (ids configs)) as Hndc by (eapply Hlists; left).
    assert (forall mw1,
      (forall w0, w0 <> wallet -> dict_get w0 mw1 = dict_get w0 mw) ->
      forall w0,
        default [] (dict_get w0
          (update_wallets cid (Some false) slippage sandbox max_eth rest
             mw1).1)
        = if bool_decide (w0 ∈ dict_keys rest)
          then filter (fun c => uc_config_id c <> cid)
                 (default [] (dict_get w0 mw1))
          else default [] (dict_get w0 mw1)) as IH'.
    { intros mw1 Hmw1. apply IH; [done| | |].
      - intros w0 l0 Hin. rewrite Hmw1 by eauto. apply Hitems. by right.
      - intros w0 l0 Hin. eapply Hlists. by right.
      - intros w1 w2 l1 l2 Hne H1 H2. eapply Hcross; [done| |]; by right. }
    rewrite update_wallets_cons.
    unfold dict_keys in *. rewrite fmap_cons.
    change ((wallet, configs).1) with wallet.
    destruct (update_configs cid (Some false) slippage sandbox max_eth configs)
      as [[|c cs]|] eqn:Hupd.
    + pose proof (update_configs_pop _ _ _ _ _ _ Hndc Hupd) as Hpop.
      cbn [fst]. destruct (decide (wallet = w)) as [<-|Hne].
      * rewrite dict_get_del_eq, Hhead, bool_decide_eq_true_2 by left.
        simpl. done.
      * rewrite dict_get_del_ne by done.
        destruct (decide (w ∈ rest.*1)) as [Hin|Hout].
        -- rewrite bool_decide_eq_true_2 by by right.
           destruct (dict_keys_elem rest w Hin) as [l Hl].
           rewrite (Hitems w l) by by right. simpl.
           symmetry. apply filter_ids_notin.
           apply (Hcross wallet w configs l); [done|left|by right|].
           destruct (decide (cid ∈ ids configs)) as [?|Hno]; [done|].
           rewrite (filter_ids_notin _ _ Hno) in Hpop. subst configs.
           by simpl in Hupd.
        -- rewrite bool_decide_eq_false_2; [done|].
           rewrite not_elem_of_cons. split; [congruence|done].
    + pose proof (update_configs_pop _ _ _ _ _ _ Hndc Hupd) as Hpop.
      rewrite (IH' (dict_set wallet (c :: cs) mw))
        by (intros; by rewrite dict_get_set_ne).
      destruct (decide (wallet = w)) as [<-|Hne].
      * rewrite bool_decide_eq_false_2 by done.
        rewrite bool_decide_eq_true_2 by left.
        by rewrite dict_get_set_eq, Hhead, Hpop.
      * rewrite dict_get_set_ne by done.
        apply (f_equal (fun b : bool => if b then _ else _)).
        apply bool_decide_ext. rewrite elem_of_cons.
        split; [by right|]. intros [?|?]; [congruence|done].
    + apply update_configs_None in Hupd.
      rewrite (IH' mw) by done.
      destruct (decide (wallet = w)) as [<-|Hne].
      * rewrite bool_decide_eq_false_2 by done.
        rewrite bool_decide_eq_true_2 by left.
        rewrite Hhead. simpl. by rewrite filter_ids_notin.
      * apply (f_equal (fun b : bool => if b then _ else _)).
        apply bool_decide_ext. rewrite elem_of_cons.
        split; [by right|]. intros [?|?]; [congruence|done].
Qed.

(** *** The invariant *)

Lemma invariant_initial d : invariant (initial d).
Proof.
  split; [constructor|]. split; simpl; intros; congruence.
Qed.

(** The invariant survives whatever only shortens lists and keeps the ids of
    the table. *)
Lemma invariant_shrink st st' :
  invariant st ->
  NoDup (dict_keys (monitored_wallets st')) ->
  (forall w l', dict_get w (monitored_wallets st') = Some l' ->
     exists l, dict_get w (monitored_wallets st) = Some l
       /\ ids l' `sublist_of` ids l) ->
  (forall i, i ∈ db_ids (db st) -> i ∈ db_ids (db st')) ->
  invariant st'.
Proof.
  intros (Hk & Hl & Hx) Hk' Hsub Hdb. split; [done|]. split.
  - intros w l' Hget. destruct (Hsub w l' Hget) as (l & Hgl & Hs).
    destruct (Hl w l Hgl) as [Hnd Hin]. split.
    + by eapply sublist_NoDup.
    + intros i Hi. apply Hdb, Hin. by eapply elem_of_sublist.
  - intros w w' l1' l2' i Hne Hg1 Hg2 Hi1 Hi2.
    destruct (Hsub w l1' Hg1) as (l1 & Hgl1 & Hs1).
    destruct (Hsub w' l2' Hg2) as (l2 & Hgl2 & Hs2).
    apply (Hx w w' l1 l2 i Hne Hgl1 Hgl2).
    + exact (elem_of_sublist _ _ _ Hi1 Hs1).
    + exact (elem_of_sublist _ _ _ Hi2 Hs2).
Qed.

Lemma invariant_with_db st d :
  invariant st -> db_ids d = db_ids (db st) -> invariant (with_db st d).
Proof.
  intros Hinv Hids. apply (invariant_shrink st); [done|by destruct Hinv| |].
  - intros w l' Hget. by exists l'.
  - intros i. simpl. by rewrite Hids.
Qed.

Lemma create_user_ids d tid : db_ids (create_user d tid).1 = db_ids d.
Proof.
  unfold create_user. by destruct (get_user_by_telegram_id d tid).
Qed.

Lemma setup_invariant feed st tid target slippage max_eth sandbox :
  invariant st ->
  invariant (setup_copy_trading feed st tid target slippage max_eth sandbox).1.
Proof.
  intros Hinv. unfold setup_copy_trading.
  destruct (negb (is_address feed target)); [done|].
  destruct (get_user_by_telegram_id (db st) tid) as [u|] eqn:Hu; [|done].
  destruct (negb (str_truthy (wallet_address u))); [done|].
  unfold create_copy_trade_config. rewrite Hu. simpl.
  destruct Hinv as (Hk & Hl & Hx).
  set (fresh := next_id (config_id <$> copy_trade_configs (db st))).
  set (entry := {| uc_telegram_id := tid; uc_config_id := fresh;
                   uc_slippage_guard := slippage;
                   uc_max_eth_per_trade := max_eth;
                   uc_sandbox_mode := sandbox; uc_active := None |}).
  set (configs := default [] (dict_get target (monitored_wallets st))).
  assert (forall w l, dict_get w (monitored_wallets st) = Some l ->
            fresh ∉ ids l) as Hfresh.
  { intros w l Hget Hin. apply (Hl w l Hget) in Hin.
    by apply next_id_fresh in Hin. }
  assert (NoDup (ids configs) /\ (fresh ∉ ids configs)
          /\ forall i, i ∈ ids configs -> i ∈ db_ids (db st))
    as (Hc1 & Hc2 & Hc3).
  { unfold configs.
    destruct (dict_get target (monitored_wallets st)) as [l|] eqn:Hget; simpl.
    - destruct (Hl target l Hget). eauto.
    - split; [constructor|].
      split; [apply not_elem_of_nil | by intros i ?%elem_of_nil]. }
  assert (forall i, i ∈ ids (configs ++ [entry]) ->
            i ∈ ids configs \/ i = fresh) as Hsplit.
  { intros i. unfold ids. rewrite fmap_app, elem_of_app. simpl.
    rewrite list_elem_of_singleton. tauto. }
  split; [by apply dict_set_NoDup|]. split; simpl.
  - intros w l. destruct (decide (target = w)) as [<-|Hne].
    + rewrite dict_get_set_eq. intros [= <-]. split.
      * unfold ids. rewrite fmap_app. apply NoDup_app. split; [done|].
        split; [|apply NoDup_singleton].
        intros x Hx' ->%list_elem_of_singleton. done.
      * intros i [Hi| ->]%Hsplit; unfold db_ids; simpl;
          rewrite fmap_app, elem_of_app; [left; by apply Hc3|right].
        simpl. by apply list_elem_of_singleton.
    + rewrite dict_get_set_ne by done. intros Hget.
      destruct (Hl w l Hget) as [Hnd Hin]. split; [done|].
      intros i Hi. unfold db_ids. simpl. rewrite fmap_app, elem_of_app.
      left. by apply Hin.
  - intros w w' l l' i Hne.
    destruct (decide (target = w)) as [<-|Hw];
      destruct (decide (target = w')) as [<-|Hw']; try done.
    + rewrite dict_get_set_eq, dict_get_set_ne by done.
      intros [= <-] Hget' [Hi| ->]%Hsplit; [|by eapply Hfresh].
      unfold configs in Hi.
      destruct (dict_get target (monitored_wallets st)) as [l0|] eqn:Hget;
        simpl in Hi; [by eapply (Hx target w')|by apply elem_of_nil in Hi].
    + rewrite dict_get_set_eq, dict_get_set_ne by done.
      intros Hget [= <-] Hi [Hi'| ->]%Hsplit.
      * unfold configs in Hi'.
        destruct (dict_get target (monitored_wallets st)) as [l0|] eqn:Hget0;
          simpl in Hi'; [|by apply elem_of_nil in Hi'].
        by apply (Hx w target l l0 i).
      * by apply (Hfresh w l).
    + rewrite !dict_get_set_ne by done. by apply Hx.
Qed.

Lemma update_invariant st tid cid act slippage sandbox max_eth :
  invariant st ->
  invariant (update_copy_trading st tid cid act slippage sandbox max_eth).1.
Proof.
  intros Hinv. unfold update_copy_trading.
  destruct (get_user_by_telegram_id (db st) tid); [|done].
  pose proof (update_copy_trade_config_ids (db st) cid act slippage sandbox
                max_eth) as Hids.
  destruct (update_copy_trade_config _ _ _ _ _ _) as [d [c|]]; simpl in Hids.
  - pose proof (update_wallets_keys cid act slippage sandbox max_eth
                  (monitored_wallets st) (monitored_wallets st)) as Hkeys.
    pose proof (update_wallets_lookup cid act slippage sandbox max_eth
                  (monitored_wallets st) (monitored_wallets st)) as Hlook.
    destruct (update_wallets _ _ _ _ _ _ _) as [mw fin]. simpl in *.
    destruct Hinv as (Hk & Hl & Hx).
    apply (invariant_shrink st); simpl; [done|by apply Hkeys| |].
    + apply Hlook; [done|]. intros w l. by apply dict_elem_get.
    + intros i. by rewrite Hids.
  - apply (invariant_shrink st); simpl; [done|by destruct Hinv| |].
    + intros w l' Hget. by exists l'.
    + intros i. by rewrite Hids.
Qed.

Lemma process_invariant st transaction :
  invariant st -> invariant (process_transaction st transaction).1.
Proof.
  intros Hinv. unfold process_transaction. case_bool_decide; [done|].
  destruct (dict_get _ _); simpl;
    (apply (invariant_shrink st); simpl; [done|by destruct Hinv| |done];
     intros w l' Hget; by exists l').
Qed.

Lemma step_invariant st op : invariant st -> invariant (step st op).1.
Proof.
  intros Hinv. destruct op; simpl.
  - apply invariant_with_db; [done|apply create_user_ids].
  - by apply invariant_with_db.
  - by apply setup_invariant.
  - by apply update_invariant.
  - by apply process_invariant.
Qed.

(** Every state the watcher reaches from empty stores satisfies the
    invariant. *)
Lemma run_invariant st ops : invariant st -> invariant (run st ops).1.
Proof.
  revert st. induction ops as [|op ops IH]; intros st Hinv; [done|].
  simpl. pose proof (step_invariant st op Hinv) as H1.
  destruct (step st op) as [st1 out1]. simpl in H1.
  specialize (IH st1 H1). by destruct (run st1 ops).
Qed.

(** *** Mirror intents *)

Lemma count_intents_app cid h l1 l2 :
  count_intents cid h (l1 ++ l2)
  = (count_intents cid h l1 + count_intents cid h l2)%nat.
Proof. unfold count_intents. by rewrite filter_app, length_app. Qed.

Lemma intents_other_hash d transaction l cid h :
  tx_hash transaction <> h ->
  count_intents cid h (intents_of d transaction l) = 0%nat.
Proof.
  intros Hne. unfold count_intents, intents_of.
  induction (filter _ l) as [|c l' IH]; [done|]. csimpl.
  rewrite filter_cons_False; [done|]. simpl. tauto.
Qed.

Lemma intents_other_config d transaction l cid h :
  cid ∉ ids l -> count_intents cid h (intents_of d transaction l) = 0%nat.
Proof.
  unfold count_intents, intents_of, ids.
  induction l as [|c l IH]; [done|]. csimpl.
  rewrite not_elem_of_cons. intros [Hne Hl]. rewrite filter_cons.
  case_decide; csimpl; [|by apply IH].
  rewrite filter_cons_False; [by apply IH|]. simpl. intros [? _]. congruence.
Qed.

(** The entries of a wallet have distinct config ids, so a transaction gets
    one intent per config at most. *)
Lemma intents_at_most_one d transaction l cid h :
  NoDup (ids l) ->
  (count_intents cid h (intents_of d transaction l) <= 1)%nat.
Proof.
  induction l as [|c l IH]; [unfold count_intents; simpl; lia|].
  unfold ids. csimpl. rewrite NoDup_cons. intros [Hnotin Hnd].
  unfold intents_of. rewrite filter_cons.
  case_decide; csimpl; [|by apply IH].
  change (count_intents cid h
            ([{| user_config := c; source_tx := tx_hash transaction;
                 source_wallet := tx_from transaction |}]
             ++ intents_of d transaction l) <= 1)%nat.
  rewrite count_intents_app.
  destruct (decide (uc_config_id c = cid)) as [Hc|Hc].
  - rewrite (intents_other_config d transaction l cid h) by by rewrite <- Hc.
    unfold count_intents. rewrite filter_cons. case_decide; simpl; lia.
  - specialize (IH Hnd). unfold count_intents at 1.
    rewrite filter_cons_False by (simpl; tauto). simpl. lia.
Qed.

Lemma watchers_NoDup st w : invariant st -> NoDup (ids (watchers st w)).
Proof.
  intros (_ & Hl & _). unfold watchers.
  destruct (dict_get w (monitored_wallets st)) as [l|] eqn:Hget; simpl.
  - by destruct (Hl w l Hget).
  - constructor.
Qed.

Lemma process_count st transaction cid h :
  invariant st ->
  (count_intents cid h (process_transaction st transaction).2 <= 1)%nat
  /\ (tx_hash transaction <> h ->
      count_intents cid h (process_transaction st transaction).2 = 0%nat).
Proof.
  intros Hinv.
  destruct (decide (tx_hash transaction ∈ processed_transactions st))
    as [Hin|Hout].
  - rewrite process_seen by done. unfold count_intents. simpl. split; [lia|done].
  - rewrite process_new by done. split.
    + by apply intents_at_most_one, watchers_NoDup.
    + apply intents_other_hash.
Qed.

(** Once a hash is in the set, nothing that happens later produces an intent
    for it. *)
Lemma run_seen st ops cid h :
  h ∈ processed_transactions st ->
  count_intents cid h (run st ops).2 = 0%nat.
Proof.
  revert st. induction ops as [|op ops IH]; intros st Hin; [done|].
  simpl. pose proof (step_processed st op) as Hmono.
  assert (count_intents cid h (step st op).2 = 0%nat) as H0.
  { destruct op; try done. simpl.
    destruct (decide (tx_hash transaction = h)) as [<-|Hne].
    - by rewrite process_seen.
    - destruct (decide (tx_hash transaction ∈ processed_transactions st)).
      + by rewrite process_seen.
      + rewrite process_new by done. by apply intents_other_hash. }
  destruct (step st op) as [st1 out1]. simpl in *.
  specialize (IH st1 (Hmono h Hin)).
  destruct (run st1 ops) as [st2 out2]. simpl in *.
  rewrite count_intents_app. lia.
Qed.

Lemma run_at_most_one st ops cid h :
  invariant st -> (count_intents cid h (run st ops).2 <= 1)%nat.
Proof.
  revert st. induction ops as [|op ops IH]; intros st Hinv;
    [unfold count_intents; simpl; lia|].
  simpl. pose proof (step_invariant st op Hinv) as Hinv1.
  assert ((count_intents cid h (step st op).2 <= 1)%nat
          /\ (count_intents cid h (step st op).2 = 1%nat ->
              h ∈ processed_transactions (step st op).1)) as [Hle Hseen].
  { destruct op; simpl; try (unfold count_intents; simpl; split; [lia|done]).
    destruct (process_count st transaction cid h Hinv) as [Hle Hother].
    split; [done|]. intros H1.
    destruct (decide (tx_hash transaction = h)) as [<-|Hne].
    - rewrite process_processed. apply elem_of_union. left.
      by apply elem_of_singleton.
    - rewrite Hother in H1 by done. done. }
  destruct (step st op) as [st1 out1]. simpl in *.
  specialize (IH st1 Hinv1).
  pose proof (run_seen st1 ops cid h) as Hrest.
  destruct (run st1 ops) as [st2 out2]. simpl in *.
  rewrite count_intents_app.
  destruct (decide (count_intents cid h out1 = 1%nat)) as [H1|H1].
  - rewrite Hrest by auto. lia.
  - lia.
Qed.

(** C2. Over the whole life of the watcher, started with empty stores on any
    database and going through any sequence of user creations, wallet updates,
    set-ups, updates and processed transactions, at most one mirror intent is
    produced per subscription (config id) and transaction hash. No step ever
    takes a hash out of the processed set, and a transaction whose hash was
    processed before, with whatever happened in between, produces no intent
    and changes nothing. *)
Theorem mirror_intent_at_most_once :
  (forall (d : DB) (ops : list Op) (cid : Z) (h : string),
      (count_intents cid h (run (initial d) ops).2 <= 1)%nat)
  /\ (forall (st : State) (op : Op),
        processed_transactions st ⊆ processed_transactions (step st op).1)
  /\ (forall (st : State) (transaction : Transaction) (ops : list Op)
        (sender recipient : string) (value : Z),
        let later := (run (process_transaction st transaction).1 ops).1 in
        process_transaction later
          {| tx_hash := tx_hash transaction; tx_from := sender;
             tx_to := recipient; tx_value := value |}
        = (later, [])).
Proof.
  split; [|split].
  - intros d ops cid h. apply run_at_most_one, invariant_initial.
  - apply step_processed.
  - intros st transaction ops sender recipient value later.
    apply process_seen. simpl. unfold later.
    apply run_processed. rewrite process_processed.
    apply elem_of_union. left. by apply elem_of_singleton.
Qed.

(** C10. A transaction is marked as processed before its sender is looked up:
    whatever the sender, the hash is in the processed set after the call;
    when the sender is not watched the call does nothing else; and any later
    call with the same hash, after any sequence of operations, produces no
    intent. So it is for a wallet that gets its first subscription between
    the two calls: 0xabc from 0xW1 is seen while nobody watches 0xW1, then
    subscriber 1001 sets up copy trading on 0xW1; 0xabc then produces no
    intent, while the new transaction 0xdef from 0xW1 does. *)
Theorem transactions_marked_before_matching :
  (forall (st : State) (transaction : Transaction),
      tx_hash transaction
        ∈ processed_transactions (process_transaction st transaction).1
      /\ (dict_get (tx_from transaction) (monitored_wallets st) = None ->
          (process_transaction st transaction).2 = []
          /\ monitored_wallets (process_transaction st transaction).1
             = monitored_wallets st)
      /\ forall (ops : list Op) (sender recipient : string) (value : Z),
           let later := (run (process_transaction st transaction).1 ops).1 in
           process_transaction later
             {| tx_hash := tx_hash transaction; tx_from := sender;
                tx_to := recipient; tx_value := value |}
           = (later, []))
  /\ (let st1 :=
        (process_transaction (initial Scenario.db0) Scenario.tx_abc).1 in
      let st2 :=
        (setup_copy_trading (Scenario.feed 1 10) st1 "1001" "0xW1" 5 0.1
           true).1 in
      watchers st1 "0xW1" = []
      /\ watchers st2 "0xW1" = [Scenario.entry1]
      /\ (process_transaction st2 Scenario.tx_abc).2 = []
      /\ (process_transaction st2 Scenario.tx_def).2
         = [Scenario.intent Scenario.entry1 Scenario.tx_def]).
Proof.
  split.
  - intros st transaction. split; [|split].
    + rewrite process_processed. apply elem_of_union. left.
      by apply elem_of_singleton.
    + intros Hnone. unfold process_transaction. rewrite Hnone.
      by case_bool_decide.
    + intros ops sender recipient value later.
      apply process_seen. simpl. unfold later.
      apply run_processed. rewrite process_processed.
      apply elem_of_union. left. by apply elem_of_singleton.
  - repeat split; vm_compute; reflexivity.
Qed.

(** *** Deactivating a subscription *)

Lemma intents_of_filter d transaction cid l :
  intents_of d transaction (filter (fun c => uc_config_id c <> cid) l)
  = filter (fun i => uc_config_id (user_config i) <> cid)
      (intents_of d transaction l).
Proof.
  unfold intents_of. induction l as [|c l IH]; [done|].
  rewrite (filter_cons (fun c => uc_config_id c <> cid)).
  rewrite (filter_cons (fun cfg => can_trade d (uc_telegram_id cfg) : Prop)).
  destruct (decide (uc_config_id c <> cid)) as [Hc|Hc];
    destruct (decide (can_trade d (uc_telegram_id c))) as [Ht|Ht]; csimpl.
  - rewrite filter_cons_True by done. csimpl.
    rewrite filter_cons_True by done. by rewrite IH.
  - rewrite filter_cons_False by done. done.
  - rewrite filter_cons_False by done. done.
  - done.
Qed.

Lemma can_trade_users d d' tid :
  users d' = users d -> can_trade d' tid = can_trade d tid.
Proof.
  intros Hu. unfold can_trade, get_user_by_telegram_id. by rewrite Hu.
Qed.

Lemma intents_of_users d d' transaction l :
  users d' = users d ->
  intents_of d' transaction l = intents_of d transaction l.
Proof.
  intros Hu. unfold intents_of. f_equal. apply list_filter_iff.
  intros c. by rewrite (can_trade_users d d').
Qed.

(** C8. In a state the watcher can be in, deactivate a subscription
    ([active = False]) as a known user, for a config that is in the table.
    Then the entries watching any wallet are the former ones without the
    entry of that config, in the same order and unchanged; a transaction
    that was not processed yet produces the intents it would have produced
    before, except the one of that config; the processed set is untouched;
    and the table still has as many rows, with the same ids, among them the
    row of the config, now inactive. *)
Theorem deactivation_removes_only_that_subscription (st : State)
    (tid : string) (cid : Z) (slippage : option float) (sandbox : option bool)
    (max_eth : option float) :
  invariant st ->
  is_Some (get_user_by_telegram_id (db st) tid) ->
  cid ∈ db_ids (db st) ->
  let st' :=
    (update_copy_trading st tid cid (Some false) slippage sandbox max_eth).1 in
  (forall w,
      watchers st' w = filter (fun c => uc_config_id c <> cid) (watchers st w))
  /\ (forall transaction,
        tx_hash transaction ∉ processed_transactions st ->
        (process_transaction st' transaction).2
        = filter (fun i => uc_config_id (user_config i) <> cid)
            (process_transaction st transaction).2)
  /\ processed_transactions st' = processed_transactions st
  /\ db_ids (db st') = db_ids (db st)
  /\ length (copy_trade_configs (db st'))
     = length (copy_trade_configs (db st))
  /\ exists row, row ∈ copy_trade_configs (db st')
       /\ config_id row = cid /\ active row = false.
Proof.
  intros Hinv [u Hu] Hcid st'.
  assert (forall w,
    watchers st' w = filter (fun c => uc_config_id c <> cid) (watchers st w))
    as Hwatch.
  { intros w. unfold st', update_copy_trading, watchers. rewrite Hu.
    unfold update_copy_trade_config.
    destruct (patch_first_found cid (Some false) slippage sandbox max_eth
                (copy_trade_configs (db st)) Hcid) as (row & Hrow & _).
    destruct (patch_first _ _ _ _ _ _) as [rows r]. simpl in Hrow. subst r.
    destruct Hinv as (Hk & Hl & Hx).
    pose proof (update_wallets_deactivate cid slippage sandbox max_eth
                  (monitored_wallets st) (monitored_wallets st) Hk) as Hd.
    destruct (update_wallets _ _ _ _ _ _ _) as [mw fin]. simpl in *.
    rewrite Hd.
    - case_bool_decide as Hin; [done|].
      apply dict_get_None_keys in Hin. by rewrite Hin.
    - intros w0 l. by apply dict_elem_get.
    - intros w0 l Hin. apply (dict_elem_get _ _ _ Hk) in Hin.
      by destruct (Hl w0 l Hin).
    - intros w1 w2 l1 l2 Hne H1 H2.
      apply (dict_elem_get _ _ _ Hk) in H1, H2. by eapply Hx. }
  assert (processed_transactions st' = processed_transactions st) as Hproc
    by apply update_processed.
  assert (users (db st') = users (db st)) as Husers.
  { unfold st', update_copy_trading. rewrite Hu.
    pose proof (update_copy_trade_config_users (db st) cid (Some false)
                  slippage sandbox max_eth) as H.
    destruct (update_copy_trade_config _ _ _ _ _ _) as [d [c|]];
      simpl in *; [|done].
    by destruct (update_wallets _ _ _ _ _ _ _). }
  assert (copy_trade_configs (db st')
          = (patch_first cid (Some false) slippage sandbox max_eth
               (copy_trade_configs (db st))).1) as Hrows.
  { unfold st', update_copy_trading, update_copy_trade_config. rewrite Hu.
    destruct (patch_first _ _ _ _ _ _) as [rows [c|]]; simpl; [|done].
    by destruct (update_wallets _ _ _ _ _ _ _). }
  split; [done|]. split.
  { intros transaction Hnew.
    rewrite !process_new by by rewrite ?Hproc.
    rewrite Hwatch, intents_of_filter.
    by rewrite (intents_of_users (db st) (db st')). }
  split; [done|].
  assert (db_ids (db st') = db_ids (db st)) as Hids.
  { unfold db_ids. rewrite Hrows. apply patch_first_ids. }
  split; [done|]. split.
  { unfold db_ids in Hids. apply (f_equal length) in Hids.
    by rewrite !length_fmap in Hids. }
  destruct (patch_first_found cid (Some false) slippage sandbox max_eth
              (copy_trade_configs (db st)) Hcid) as (row & _ & Hin & Hid & Hact).
  exists row. by rewrite Hrows.
Qed.

(** C8 on the example: subscriber 1001 pauses config 1; a transaction from
    0xW1 then only produces the intent of subscriber 1002, and the table
    still has both rows. *)
Lemma deactivation_removes_only_that_subscription_witness :
  let st' :=
    (update_copy_trading Scenario.watcher2 "1001" 1 (Some false)
       None None None).1 in
  (process_transaction Scenario.watcher2 Scenario.tx_abc).2
  = [Scenario.intent Scenario.entry1 Scenario.tx_abc;
     Scenario.intent Scenario.entry2 Scenario.tx_abc]
  /\ (process_transaction st' Scenario.tx_abc).2
     = [Scenario.intent Scenario.entry2 Scenario.tx_abc]
  /\ db_ids (db st') = [1; 2].
Proof.
  assert (1 ∈ db_ids (db Scenario.watcher2)) as Hcid
    by (apply (bool_decide_unpack _); vm_compute; exact I).
  assert ("0xabc" ∉ processed_transactions Scenario.watcher2) as Hnew
    by (apply (bool_decide_unpack _); vm_compute; exact I).
  destruct (deactivation_removes_only_that_subscription Scenario.watcher2
              "1001" 1 None None None
              (run_invariant _ _ (invariant_initial Scenario.db0))
              (mk_is_Some _ _ eq_refl) Hcid)
    as (_ & H2 & _ & H4 & _).
  split; [reflexivity|]. split.
  - exact (H2 Scenario.tx_abc Hnew).
  - exact H4.
Defined.

(** *** Setting up a subscription *)

(** C7, as the code has it. [setup_copy_trading] refuses a target that is not
    an address with the error "Invalid wallet address"; whenever it reports
    an error, the monitored wallets and the table of configurations are what
    they were; and for an address and a user with a wallet it succeeds
    whatever the slippage guard and the maximum spend are, adding an entry
    with exactly those values. The bounds are checked in the set-up
    conversation: [slippage_guard_input] refuses a slippage below 0.1 or
    above 50, and [max_eth_input] a maximum spend that is [<= 0]. *)
Theorem setup_copy_trading_checks (feed : Feed) (st : State)
    (tid target : string) (slippage max_eth : float) (sandbox : bool) :
  let r := setup_copy_trading feed st tid target slippage max_eth sandbox in
  (is_address feed target = false ->
   r = (st, Error "Invalid wallet address"))
  /\ (is_error r.2 = true ->
      monitored_wallets r.1 = monitored_wallets st
      /\ copy_trade_configs (db r.1) = copy_trade_configs (db st))
  /\ (is_address feed target = true ->
      (exists u, get_user_by_telegram_id (db st) tid = Some u
                 /\ str_truthy (wallet_address u) = true) ->
      r.2 = Success "Copy trading set up successfully!"
      /\ watchers r.1 target
         = watchers st target
           ++ [{| uc_telegram_id := tid;
                  uc_config_id := next_id (db_ids (db st));
                  uc_slippage_guard := slippage;
                  uc_max_eth_per_trade := max_eth;
                  uc_sandbox_mode := sandbox;
                  uc_active := None |}])
  /\ (CopytradeHandlers.slippage_guard_input slippage = None <->
      Float64.lt slippage 0.1%float = true
      \/ Float64.gt slippage 50%float = true)
  /\ (CopytradeHandlers.max_eth_input max_eth = None <->
      Float64.le max_eth 0%float = true).
Proof.
  intros r. split; [|split; [|split; [|split]]].
  - intros Haddr. unfold r, setup_copy_trading. by rewrite Haddr.
  - unfold r, setup_copy_trading.
    destruct (negb (is_address feed target)); [done|].
    destruct (get_user_by_telegram_id (db st) tid) as [u|] eqn:Hu; [|done].
    destruct (negb (str_truthy (wallet_address u))); [done|].
    unfold create_copy_trade_config. rewrite Hu. done.
  - intros Haddr (u & Hu & Hwallet). unfold r, setup_copy_trading, watchers.
    rewrite Haddr, Hu, Hwallet. simpl.
    unfold create_copy_trade_config. rewrite Hu. simpl.
    by rewrite dict_get_set_eq.
  - unfold CopytradeHandlers.slippage_guard_input.
    destruct (Float64.lt slippage 0.1), (Float64.gt slippage 50); simpl;
      split; try done; try tauto; intros [?|?]; done.
  - unfold CopytradeHandlers.max_eth_input.
    by destruct (Float64.le max_eth 0).
Qed.

(** C7 on the example: with a feed for which nothing is an address, the
    set-up of subscriber 1001 is refused and nothing is stored. *)
Lemma setup_copy_trading_checks_witness :
  setup_copy_trading Scenario.feed_no_address (initial Scenario.db0)
    "1001" "not-an-address" 5 0.1 true
  = (initial Scenario.db0, Error "Invalid wallet address").
Proof.
  exact (proj1 (setup_copy_trading_checks Scenario.feed_no_address
                  (initial Scenario.db0) "1001" "not-an-address" 5 0.1 true)
           eq_refl).
Defined.

(** C7 as stated fails: a slippage guard of 100 and a maximum spend of -1 are
    outside the bounds, and the set-up succeeds and stores them. *)
Lemma setup_accepts_out_of_range_limits :
  let r := setup_copy_trading (Scenario.feed 1 10) (initial Scenario.db0)
             "1001" "0xW1" 100 (-1) true in
  Float64.gt 100 50 = true
  /\ Float64.le (-1) 0 = true
  /\ r.2 = Success "Copy trading set up successfully!"
  /\ watchers r.1 "0xW1"
     = [{| uc_telegram_id := "1001"; uc_config_id := 1;
           uc_slippage_guard := 100; uc_max_eth_per_trade := (-1);
           uc_sandbox_mode := true; uc_active := None |}]
  /\ length (copy_trade_configs (db r.1)) = 1%nat.
Proof. repeat split; vm_compute; reflexivity. Qed.

End CopyTradeFacts.

(** ** More about dictionaries *)

Lemma filter_all {A} (P : A -> Prop) `{!forall x, Decision (P x)} (l : list A) :
  Forall P l -> filter P l = l.
Proof.
  induction 1 as [|x l Hx Hl IH]; [done|].
  by rewrite filter_cons_True, IH.
Qed.

Lemma filter_none {A} (P : A -> Prop) `{!forall x, Decision (P x)}
    (l : list A) :
  Forall (fun x => ~ P x) l -> filter P l = [].
Proof.
  induction 1 as [|x l Hx Hl IH]; [done|].
  by rewrite filter_cons_False, IH.
Qed.

Section PyDictMore.
Context {V : Type}.
Implicit Types (d : dict V) (k : string) (v : V).

Lemma dict_del_set k v d : dict_del k (dict_set k v d) = dict_del k d.
Proof.
  induction d as [|[k' v'] d IH]; csimpl.
  - by rewrite decide_True.
  - destruct (decide (k' = k)) as [->|Hne]; csimpl.
    + by rewrite decide_True.
    + by rewrite decide_False, IH.
Qed.

Lemma dict_set_set k v v' d : dict_set k v (dict_set k v' d) = dict_set k v d.
Proof.
  induction d as [|[k0 v0] d IH]; csimpl.
  - by rewrite decide_True.
  - destruct (decide (k0 = k)) as [->|Hne]; csimpl.
    + by rewrite decide_True.
    + by rewrite decide_False, IH.
Qed.

Lemma dict_set_same k v d : dict_get k d = Some v -> dict_set k v d = d.
Proof.
  induction d as [|[k0 v0] d IH]; csimpl; [done|].
  destruct (decide (k0 = k)) as [->|Hne].
  - by intros [= ->].
  - intros H. by rewrite IH.
Qed.

Lemma dict_del_None k d : dict_get k d = None -> dict_del k d = d.
Proof. intros H. by apply dict_del_absent, dict_get_None_keys. Qed.

(** Collecting, over the items of a dictionary, things that are tagged with
    the key of their item, and keeping those of one key: what the item of that
    key gives. *)
Lemma flat_map_filter_key {B} (f : string * V -> list B) (tag : B -> string)
    d k :
  NoDup (dict_keys d) ->
  (forall kv, Forall (fun b => tag b = kv.1) (f kv)) ->
  filter (fun b => tag b = k) (flat_map f d)
  = match dict_get k d with
    | Some v => f (k, v)
    | None => []
    end.
Proof.
  intros Hnd Htag. induction d as [|[k' v'] d IH]; [done|].
  unfold dict_keys in Hnd. rewrite fmap_cons, NoDup_cons in Hnd.
  destruct Hnd as [Hnotin Hnd]. csimpl. rewrite filter_app, IH by done.
  destruct (decide (k' = k)) as [->|Hne].
  - assert (dict_get k d = None) as -> by by apply dict_get_None_keys.
    rewrite app_nil_r. apply filter_all, (Htag (k, v')).
  - rewrite (filter_none _ (f (k', v'))); [done|].
    eapply Forall_impl; [apply (Htag (k', v'))|]. simpl. congruence.
Qed.
End PyDictMore.

(** ** The alert engine: registering, listing, polling *)

Module AlertsExtra.
Import Database Alerts Float64Facts Float64Order AlertsFacts.

Lemma update_existing_nonempty tid high low alerts alerts' :
  update_existing tid high low alerts = Some alerts' -> alerts' <> [].
Proof.
  destruct alerts as [|a rest]; [done|]. simpl. case_bool_decide.
  - by intros [= <-].
  - destruct (update_existing tid high low rest); [|done]. by intros [= <-].
Qed.

Lemma add_price_alert_nonempty feed st tid token high low watchlist :
  nonempty_lists st ->
  nonempty_lists (add_price_alert feed st tid token high low watchlist).1.
Proof.
  intros Hne. unfold add_price_alert, nonempty_lists.
  destruct (get_user_by_telegram_id (db st) tid); [|done].
  destruct (get_token_info feed token) as [info|]; [|done].
  match goal with |- context [match ?w with Some _ => _ | None => (st, _) end]
    => destruct w as [db'|] end; [|done].
  set (alerts := default [] (dict_get token (price_alerts st))).
  destruct (update_existing tid high low alerts) as [alerts'|] eqn:Hupd.
  - simpl. apply dict_set_Forall; [|done]. simpl.
    by eapply update_existing_nonempty.
  - assert (alerts ++ [{| telegram_id := tid; price_high := high;
                          price_low := low |}] <> []) as Hl
      by by destruct alerts.
    destruct (dict_mem token (token_data st)); simpl;
      [by apply dict_set_Forall|].
    destruct (get_token_price feed token), (get_token_liquidity feed token);
      simpl; by apply dict_set_Forall.
Qed.

Lemma remove_price_alert_nonempty st tid token :
  nonempty_lists st -> nonempty_lists (remove_price_alert st tid token).1.
Proof.
  intros Hne. unfold remove_price_alert, nonempty_lists.
  destruct (dict_get token (price_alerts st)) as [alerts|]; [|done].
  destruct (pop_alert tid alerts) as [[|a rest]|]; simpl; [| |done].
  - by apply dict_del_Forall.
  - by apply dict_set_Forall.
Qed.

Lemma step_nonempty st op : nonempty_lists st -> nonempty_lists (step st op).1.
Proof.
  intros Hne.
  destruct op as [tid|feed tid token high low watchlist|tid token|feed|feed];
    simpl.
  - done.
  - by apply add_price_alert_nonempty.
  - by apply remove_price_alert_nonempty.
  - unfold nonempty_lists. by rewrite check_price_alerts_alerts.
  - done.
Qed.

Lemma run_nonempty st ops : nonempty_lists st -> nonempty_lists (run st ops).1.
Proof.
  revert st. induction ops as [|op ops IH]; intros st Hne; [done|].
  simpl. pose proof (step_nonempty st op Hne) as H1.
  destruct (step st op) as [st1 out1]. simpl in H1.
  specialize (IH st1 H1). by destruct (run st1 ops).
Qed.

(** X1. Whatever sequence of user creations, registrations, unregistrations
    and polls the engine goes through from empty stores, on any database: no
    token is listed twice in [price_alerts], no subscriber has two alerts on
    a token, no token is left with an empty list of alerts, and no token has
    two records in [token_data]. *)
Theorem reachable_alert_stores (d : DB) (ops : list Op) :
  reachable_shape (run (initial d) ops).1.
Proof.
  split; [|split].
  - apply run_well_formed, initial_well_formed.
  - apply run_nonempty. constructor.
  - apply run_token_data_keys. constructor.
Qed.

(** *** What a registration leaves alone *)

Lemma find_update_existing_other tid tid' high low alerts alerts' :
  tid' <> tid ->
  update_existing tid high low alerts = Some alerts' ->
  find (fun a => bool_decide (telegram_id a = tid')) alerts'
  = find (fun a => bool_decide (telegram_id a = tid')) alerts.
Proof.
  intros Hne. revert alerts'.
  induction alerts as [|a rest IH]; intros alerts'; [done|].
  simpl. case_bool_decide as Ha.
  - intros [= <-]. simpl. rewrite Ha.
    by rewrite !bool_decide_eq_false_2 by congruence.
  - destruct (update_existing tid high low rest) as [rest'|]; [|done].
    intros [= <-]. simpl. case_bool_decide; [done|]. by apply IH.
Qed.

Lemma find_app_other tid' (l : list Alert) a :
  telegram_id a <> tid' ->
  find (fun a => bool_decide (telegram_id a = tid')) (l ++ [a])
  = find (fun a => bool_decide (telegram_id a = tid')) l.
Proof.
  intros Hne. induction l as [|a0 rest IH]; simpl.
  - by rewrite bool_decide_eq_false_2.
  - by case_bool_decide.
Qed.

(** X2. A registration of (subscriber, token), whatever its result, leaves the
    alert of every other (subscriber, token) pair as it was, and the record of
    every other token. *)
Theorem add_price_alert_frame (feed : Feed) (st : State)
    (tid token : string) (high low : option float) (watchlist : option string)
    (tid' token' : string) :
  tid' <> tid \/ token' <> token ->
  subscription (add_price_alert feed st tid token high low watchlist).1
    tid' token'
  = subscription st tid' token'
  /\ (token' <> token ->
      dict_get token'
        (token_data (add_price_alert feed st tid token high low watchlist).1)
      = dict_get token' (token_data st)).
Proof.
  intros Hother. unfold add_price_alert, subscription.
  destruct (get_user_by_telegram_id (db st) tid); [|done].
  destruct (get_token_info feed token) as [info|]; [|done].
  match goal with |- context [match ?w with Some _ => _ | None => (st, _) end]
    => destruct w as [db'|] end; [|done].
  set (alerts := default [] (dict_get token (price_alerts st))).
  assert (forall alerts',
    (tid' <> tid ->
     find (fun a => bool_decide (telegram_id a = tid')) alerts'
     = find (fun a => bool_decide (telegram_id a = tid')) alerts) ->
    find (fun a => bool_decide (telegram_id a = tid'))
      (default [] (dict_get token' (dict_set token alerts' (price_alerts st))))
    = find (fun a => bool_decide (telegram_id a = tid'))
        (default [] (dict_get token' (price_alerts st)))) as Hset.
  { intros alerts' Hfind. destruct (decide (token = token')) as [<-|Hne].
    - rewrite dict_get_set_eq. simpl. apply Hfind.
      destruct Hother; [done|congruence].
    - by rewrite dict_get_set_ne. }
  destruct (update_existing tid high low alerts) as [alerts'|] eqn:Hupd.
  - simpl. split; [|done]. apply Hset. intros Hne.
    by apply (find_update_existing_other tid tid' high low).
  - assert (find (fun a => bool_decide (telegram_id a = tid'))
              (default [] (dict_get token'
                 (dict_set token
                    (alerts ++ [{| telegram_id := tid; price_high := high;
                                   price_low := low |}])
                    (price_alerts st))))
            = find (fun a => bool_decide (telegram_id a = tid'))
                (default [] (dict_get token' (price_alerts st)))) as Happ.
    { apply Hset. intros Hne. apply find_app_other. simpl. congruence. }
    destruct (dict_mem token (token_data st)); simpl; [done|].
    destruct (get_token_price feed token), (get_token_liquidity feed token);
      simpl; split; try done.
    intros Hne. by rewrite dict_get_set_ne by congruence.
Qed.

(** X2 on the example: subscriber 1002 registers on 0xT1; the alert of
    subscriber 1001 on 0xT1 stays. *)
Lemma add_price_alert_frame_witness :
  subscription
    (add_price_alert (Scenario.feed 1.5 10) Scenario.alerts1 "1002" "0xT1"
       (Some 7%float) None None).1 "1001" "0xT1"
  = Some {| telegram_id := "1001"; price_high := Some 2%float;
            price_low := Some 1%float |}.
Proof.
  refine (proj1 (add_price_alert_frame (Scenario.feed 1.5 10)
                   Scenario.alerts1 "1002" "0xT1" (Some 7%float) None None
                   "1001" "0xT1" _)).
  left. apply (bool_decide_unpack _). vm_compute. exact I.
Defined.

(** *** A registration that fails half way *)

Lemma update_existing_find_None tid high low alerts :
  find (fun a => bool_decide (telegram_id a = tid)) alerts = None ->
  update_existing tid high low alerts = None.
Proof.
  induction alerts as [|a rest IH]; [done|]. simpl.
  case_bool_decide; [done|]. intros H'. by rewrite IH.
Qed.

(** X3. A first registration on a token without a record, by a known user and
    with the metadata at hand, during which the price or the liquidity query
    raises: the call reports the error "Error adding price alert", and yet the
    alert is registered, while the token still has no record. A second try
    then reports "Price alert updated successfully!" and fetches nothing. *)
Theorem add_price_alert_failed_fetch_registers (feed feed2 : Feed)
    (st : State) (tid token : string) (high low high2 low2 : option float) :
  is_Some (get_user_by_telegram_id (db st) tid) ->
  is_Some (get_token_info feed token) ->
  is_Some (get_token_info feed2 token) ->
  subscription st tid token = None ->
  dict_get token (token_data st) = None ->
  get_token_price feed token = None \/ get_token_liquidity feed token = None ->
  let first := add_price_alert feed st tid token high low None in
  let second := add_price_alert feed2 first.1 tid token high2 low2 None in
  first.2 = Error "Error adding price alert"
  /\ subscription first.1 tid token
     = Some {| telegram_id := tid; price_high := high; price_low := low |}
  /\ token_data first.1 = token_data st
  /\ second.2 = Success "Price alert updated successfully!"
  /\ subscription second.1 tid token
     = Some {| telegram_id := tid; price_high := high2; price_low := low2 |}
  /\ token_data second.1 = token_data st.
Proof.
  intros [u Hu] [info Hinfo] [info2 Hinfo2] Hsub Hrec Hfail first second.
  assert (update_existing tid high low
            (default [] (dict_get token (price_alerts st))) = None) as Hupd.
  { by apply update_existing_find_None. }
  assert (first = ({| db := db st;
                      price_alerts :=
                        dict_set token
                          (default [] (dict_get token (price_alerts st))
                           ++ [{| telegram_id := tid; price_high := high;
                                  price_low := low |}]) (price_alerts st);
                      token_data := token_data st |},
                   Error "Error adding price alert")) as Hfirst.
  { unfold first, add_price_alert. rewrite Hu, Hinfo. simpl. rewrite Hupd.
    unfold dict_mem. rewrite Hrec.
    destruct Hfail as [-> | ->]; [done|].
    by destruct (get_token_price feed token). }
  assert (subscription first.1 tid token
          = Some {| telegram_id := tid; price_high := high;
                    price_low := low |}) as Hsub1.
  { rewrite Hfirst. unfold subscription. simpl. rewrite dict_get_set_eq.
    simpl. apply find_app_r; [|done]. by eapply update_existing_None. }
  assert (db first.1 = db st) as Hdb by by rewrite Hfirst.
  destruct (update_existing_of_find tid high2 low2 _ _ Hsub1)
    as [alerts2 Hupd2].
  assert (second = ({| db := db st;
                       price_alerts :=
                         dict_set token alerts2 (price_alerts first.1);
                       token_data := token_data st |},
                    Success "Price alert updated successfully!")) as Hsecond.
  { unfold second, add_price_alert. rewrite Hdb, Hu, Hinfo2. simpl.
    rewrite Hupd2. by rewrite Hfirst. }
  split; [by rewrite Hfirst|]. split; [done|]. split; [by rewrite Hfirst|].
  split; [by rewrite Hsecond|]. split; [|by rewrite Hsecond].
  rewrite Hsecond. unfold subscription. simpl. rewrite dict_get_set_eq. simpl.
  by apply (update_existing_find tid high2 low2
              (default [] (dict_get token (price_alerts first.1)))).
Qed.

(** X3 on the example: the price query of 0xT9 raises while subscriber 1001
    registers on it. *)
Lemma add_price_alert_failed_fetch_registers_witness :
  let first :=
    add_price_alert (Scenario.feed_failing "0xT9" 1.5 10)
      (initial Scenario.db0) "1001" "0xT9" (Some 2%float) None None in
  first.2 = Error "Error adding price alert"
  /\ subscription first.1 "1001" "0xT9"
     = Some {| telegram_id := "1001"; price_high := Some 2%float;
               price_low := None |}.
Proof.
  destruct (add_price_alert_failed_fetch_registers
              (Scenario.feed_failing "0xT9" 1.5 10) (Scenario.feed 1.5 10)
              (initial Scenario.db0) "1001" "0xT9" (Some 2%float) None
              (Some 3%float) None
              (mk_is_Some _ _ eq_refl) (mk_is_Some _ _ eq_refl)
              (mk_is_Some _ _ eq_refl) eq_refl eq_refl (or_introl eq_refl))
    as (H1 & H2 & _).
  exact (conj H1 H2).
Defined.

(** *** Registering and unregistering again *)

Lemma pop_alert_app tid (l : list Alert) a :
  find (fun a => bool_decide (telegram_id a = tid)) l = None ->
  telegram_id a = tid ->
  pop_alert tid (l ++ [a]) = Some l.
Proof.
  intros Hl Ha. induction l as [|a0 rest IH]; simpl.
  - by rewrite bool_decide_eq_true_2.
  - simpl in Hl. case_bool_decide; [done|]. by rewrite IH.
Qed.

(** X4. Registering a subscriber who has no alert on the token, successfully,
    and unregistering the subscriber again brings [price_alerts] back to
    exactly what it was, order included (no list in it being empty, as in
    every reachable state); the unregistration succeeds. *)
Theorem register_unregister_restores (feed : Feed) (st : State)
    (tid token : string) (high low : option float)
    (watchlist : option string) :
  subscription st tid token = None ->
  dict_get token (price_alerts st) <> Some [] ->
  is_error (add_price_alert feed st tid token high low watchlist).2 = false ->
  let st1 := (add_price_alert feed st tid token high low watchlist).1 in
  (remove_price_alert st1 tid token).2
  = Success "Price alert removed successfully!"
  /\ price_alerts (remove_price_alert st1 tid token).1 = price_alerts st.
Proof.
  intros Hsub Hne Hok st1.
  set (alerts := default [] (dict_get token (price_alerts st))).
  set (a := {| telegram_id := tid; price_high := high; price_low := low |}).
  assert (price_alerts st1 = dict_set token (alerts ++ [a]) (price_alerts st))
    as Hpa.
  { unfold st1. revert Hok. unfold add_price_alert.
    destruct (get_user_by_telegram_id (db st) tid); [|done].
    destruct (get_token_info feed token) as [info|]; [|done].
    match goal with
    | |- context [match ?w with Some _ => _ | None => (st, _) end] =>
        destruct w as [db'|] end; [|done].
    fold alerts. rewrite (update_existing_find_None tid high low alerts Hsub).
    destruct (dict_mem token (token_data st)); [done|].
    by destruct (get_token_price feed token),
                (get_token_liquidity feed token). }
  unfold remove_price_alert. rewrite Hpa, dict_get_set_eq.
  rewrite (pop_alert_app tid alerts a Hsub eq_refl). simpl.
  unfold alerts in *.
  destruct (dict_get token (price_alerts st)) as [[|a0 l]|] eqn:Hget; simpl.
  - done.
  - split; [done|]. rewrite dict_set_set. by apply dict_set_same.
  - split; [done|]. rewrite dict_del_set. by apply dict_del_None.
Qed.

(** X4 on the example: subscriber 1002 registers on 0xT1 and unregisters. *)
Lemma register_unregister_restores_witness :
  price_alerts
    (remove_price_alert
       (add_price_alert (Scenario.feed 1.5 10) Scenario.alerts1 "1002" "0xT1"
          (Some 7%float) None None).1 "1002" "0xT1").1
  = price_alerts Scenario.alerts1.
Proof.
  refine (proj2 (register_unregister_restores (Scenario.feed 1.5 10)
                   Scenario.alerts1 "1002" "0xT1" (Some 7%float) None None
                   eq_refl _ eq_refl)).
  vm_compute. discriminate.
Defined.

(** *** Listing the alerts of a user *)

Lemma user_alerts_of_tag feed td tid token alerts :
  Forall (fun e => ua_token_address e = token)
    (user_alerts_of feed td tid token alerts).
Proof.
  unfold user_alerts_of. apply Forall_flat_map, Forall_forall.
  intros a _. case_bool_decide; [|constructor].
  destruct (get_token_info feed token); repeat constructor.
Qed.

Lemma user_alerts_of_found feed td tid token alerts a info :
  NoDup (telegram_id <$> alerts) ->
  find (fun a => bool_decide (telegram_id a = tid)) alerts = Some a ->
  get_token_info feed token = Some info ->
  user_alerts_of feed td tid token alerts
  = [{| ua_token_address := token; ua_info := info;
        ua_price_high := price_high a; ua_price_low := price_low a;
        ua_current_price := current_price_of td token |}].
Proof.
  intros Hnd Hfind Hinfo. unfold user_alerts_of.
  induction alerts as [|a0 rest IH]; [done|].
  rewrite fmap_cons, NoDup_cons in Hnd. destruct Hnd as [Hnotin Hnd].
  simpl in Hfind. simpl. case_bool_decide as Ha.
  - injection Hfind as ->. rewrite Hinfo. simpl. f_equal.
    clear IH. induction rest as [|b rest IH]; [done|]. simpl.
    rewrite fmap_cons, not_elem_of_cons in Hnotin.
    destruct Hnotin as [Hb Hrest].
    rewrite bool_decide_eq_false_2 by congruence. simpl. apply IH; [done|].
    rewrite fmap_cons, NoDup_cons in Hnd. by destruct Hnd.
  - simpl. by apply IH.
Qed.

Lemma user_alerts_of_none feed td tid token alerts :
  find (fun a => bool_decide (telegram_id a = tid)) alerts = None ->
  user_alerts_of feed td tid token alerts = [].
Proof.
  unfold user_alerts_of. induction alerts as [|a0 rest IH]; [done|].
  simpl. case_bool_decide; [done|]. simpl. apply IH.
Qed.

(** The entries of a listing that are about one token. *)
Lemma get_user_alerts_token feed st tid token :
  well_formed st ->
  is_Some (get_user_by_telegram_id (db st) tid) ->
  exists l, get_user_alerts feed st tid = Listed l
    /\ filter (fun e => ua_token_address e = token) l
       = user_alerts_of feed (token_data st) tid token
           (default [] (dict_get token (price_alerts st))).
Proof.
  intros [Hk _] [u Hu]. unfold get_user_alerts. rewrite Hu.
  eexists. split; [done|].
  rewrite (flat_map_filter_key _ ua_token_address (price_alerts st) token Hk).
  - by destruct (dict_get token (price_alerts st)).
  - intros [k l]. apply user_alerts_of_tag.
Qed.

(** X5. After a successful registration in a well-formed store, the listing of
    the subscriber's alerts (asked while the token's metadata is available)
    has exactly one entry for the token: the thresholds just registered, and
    as current price the recorded price of the token. After unregistering, it
    has none. *)
Theorem registration_is_listed (feed feed' : Feed) (st : State)
    (tid token : string) (high low : option float)
    (watchlist : option string) (info : TokenInfo) :
  well_formed st ->
  is_error (add_price_alert feed st tid token high low watchlist).2 = false ->
  get_token_info feed' token = Some info ->
  let st1 := (add_price_alert feed st tid token high low watchlist).1 in
  let st2 := (remove_price_alert st1 tid token).1 in
  (exists l, get_user_alerts feed' st1 tid = Listed l
     /\ filter (fun e => ua_token_address e = token) l
        = [{| ua_token_address := token; ua_info := info;
              ua_price_high := high; ua_price_low := low;
              ua_current_price := current_price_of (token_data st1) token |}])
  /\ (exists l, get_user_alerts feed' st2 tid = Listed l
        /\ filter (fun e => ua_token_address e = token) l = []).
Proof.
  intros Hwf Hok Hinfo st1 st2.
  assert (well_formed st1) as Hwf1 by by apply add_price_alert_well_formed.
  assert (well_formed st2) as Hwf2 by by apply remove_price_alert_well_formed.
  pose proof (add_price_alert_subscription _ _ _ _ _ _ _ Hok) as Hsub.
  fold st1 in Hsub.
  assert (is_Some (get_user_by_telegram_id (db st1) tid)) as Hu1.
  { unfold st1. revert Hok. unfold add_price_alert.
    destruct (get_user_by_telegram_id (db st) tid) as [u|] eqn:Hu; [|done].
    destruct (get_token_info feed token); [|done].
    unfold get_user_watchlists. rewrite Hu.
    destruct (str_truthy watchlist).
    - destruct (find _ _); [|done]. simpl.
      destruct (update_existing _ _ _ _); simpl.
      + intros _. unfold get_user_by_telegram_id in *. simpl. by rewrite Hu.
      + destruct (dict_mem _ _); simpl;
          [intros _; unfold get_user_by_telegram_id in *; simpl; by rewrite Hu|].
        destruct (get_token_price feed token),
                 (get_token_liquidity feed token); simpl; try done;
          intros _; unfold get_user_by_telegram_id in *; simpl; by rewrite Hu.
    - destruct (update_existing _ _ _ _); simpl; [by rewrite Hu|].
      destruct (dict_mem _ _); simpl; [by rewrite Hu|].
      destruct (get_token_price feed token),
               (get_token_liquidity feed token); simpl; try done;
        by rewrite Hu. }
  assert (is_Some (get_user_by_telegram_id (db st2) tid)) as Hu2.
  { unfold st2, remove_price_alert.
    destruct (dict_get token (price_alerts st1)); [|done].
    by destruct (pop_alert tid l). }
  split.
  - destruct (get_user_alerts_token feed' st1 tid token Hwf1 Hu1)
      as (l & Hl & Hfilter).
    exists l. split; [done|]. rewrite Hfilter.
    unfold subscription in Hsub.
    rewrite (user_alerts_of_found feed' _ tid token _ _ info
               (default_alerts_NoDup st1 token Hwf1) Hsub Hinfo).
    done.
  - destruct (get_user_alerts_token feed' st2 tid token Hwf2 Hu2)
      as (l & Hl & Hfilter).
    exists l. split; [done|]. rewrite Hfilter.
    apply user_alerts_of_none.
    pose proof (subscriptions_well_formed st2 tid token Hwf2) as Hcount.
    pose proof (subscriptions_well_formed st1 tid token Hwf1) as Hcount1.
    rewrite Hsub in Hcount1.
    assert (S (subscriptions st2 tid token) = subscriptions st1 tid token)
      as Hpop.
    { unfold st2, subscriptions. unfold subscription in Hsub.
      destruct (dict_get token (price_alerts st1)) as [alerts|] eqn:Hget;
        [|done].
      simpl in *. destruct (pop_alert tid alerts) as [alerts'|] eqn:Hp.
      - rewrite (remove_price_alert_alerts st1 tid token alerts alerts')
          by done.
        by apply pop_alert_count.
      - apply pop_alert_None in Hp. congruence. }
    unfold subscription in Hcount.
    destruct (find _ (default [] (dict_get token (price_alerts st2))));
      [lia|done].
Qed.

(** X5 on the example: the listing of subscriber 1001 after the registration
    on 0xT1 at price 1.5. *)
Lemma registration_is_listed_witness :
  exists l,
    get_user_alerts (Scenario.feed 2.5 10) Scenario.alerts1 "1001" = Listed l
    /\ filter (fun e => ua_token_address e = "0xT1") l
       = [{| ua_token_address := "0xT1"; ua_info := Scenario.info0;
             ua_price_high := Some 2%float; ua_price_low := Some 1%float;
             ua_current_price := 1.5 |}].
Proof.
  exact (proj1 (registration_is_listed (Scenario.feed 1.5 10)
                  (Scenario.feed 2.5 10) (initial Scenario.db0) "1001" "0xT1"
                  (Some 2%float) (Some 1%float) None Scenario.info0
                  (initial_well_formed Scenario.db0) eq_refl eq_refl)).
Defined.

(** *** A price that does not move *)

Lemma crossed_same (a : Alert) (p : float) :
  crossed_high a p p = false /\ crossed_low a p p = false.
Proof.
  unfold crossed_high, crossed_low. split.
  - destruct (price_high a) as [t|]; [|done].
    destruct (Float64.lt p t) eqn:Hlt.
    + rewrite (lt_not_ge _ _ Hlt). by rewrite !andb_false_r.
    + by rewrite andb_false_r.
  - destruct (price_low a) as [t|]; [|done].
    destruct (Float64.gt p t) eqn:Hgt.
    + unfold Float64.gt in Hgt. pose proof (lt_not_ge _ _ Hgt) as Hge.
      unfold Float64.ge in Hge. unfold Float64.le. rewrite Hge.
      by rewrite !andb_false_r.
    + by rewrite andb_false_r.
Qed.

Lemma check_alerts_same feed token p alerts :
  check_alerts feed token p p alerts = [].
Proof.
  induction alerts as [|a rest IH]; [done|]. simpl. unfold check_alert.
  destruct (crossed_same a p) as [-> ->]. done.
Qed.

(** The price on record for a token, if any, is [p]. *)
Lemma check_token_constant feed token alerts td p :
  (dict_get token td ≫= price_eth = None
   \/ dict_get token td ≫= price_eth = Some p) ->
  match get_token_price feed token with
  | Some price => price_in_eth price = p
  | None => True
  end ->
  (check_token feed token alerts td).2 = []
  /\ (dict_get token (check_token feed token alerts td).1 ≫= price_eth = None
      \/ dict_get token (check_token feed token alerts td).1 ≫= price_eth
         = Some p).
Proof.
  intros Hrec Hprice. unfold check_token.
  destruct (get_token_price feed token) as [price|]; simpl; [|done].
  subst p. rewrite dict_get_set_eq. simpl. split; [|by right].
  assert (previous_price td token (price_in_eth price) = price_in_eth price)
    as ->.
  { unfold previous_price. destruct (dict_get token td) as [r|]; [|done].
    simpl in Hrec. destruct Hrec as [->| ->]; done. }
  apply check_alerts_same.
Qed.

Lemma check_tokens_constant feed items td token p :
  (dict_get token td ≫= price_eth = None
   \/ dict_get token td ≫= price_eth = Some p) ->
  match get_token_price feed token with
  | Some price => price_in_eth price = p
  | None => True
  end ->
  Forall (fun e => event_token e <> token) (check_tokens feed items td).2
  /\ (dict_get token (check_tokens feed items td).1 ≫= price_eth = None
      \/ dict_get token (check_tokens feed items td).1 ≫= price_eth = Some p).
Proof.
  intros Hrec Hprice. revert td Hrec.
  induction items as [|[k v] rest IH]; intros td Hrec; [by split|].
  simpl.
  assert (Forall (fun e => event_token e <> token) (check_token feed k v td).2
          /\ (dict_get token (check_token feed k v td).1 ≫= price_eth = None
              \/ dict_get token (check_token feed k v td).1 ≫= price_eth
                 = Some p)) as [He1 Hr1].
  { destruct (decide (k = token)) as [->|Hne].
    - destruct (check_token_constant feed token v td p Hrec Hprice)
        as [-> Hr]. by split.
    - rewrite (check_token_get_ne feed k v td token Hne). split; [|done].
      eapply Forall_impl; [apply check_token_tokens|]. simpl. congruence. }
  destruct (check_token feed k v td) as [td1 evs1]. simpl in *.
  destruct (IH td1 Hr1) as [He2 Hr2].
  destruct (check_tokens feed rest td1) as [td2 evs2]. simpl in *.
  split; [by apply Forall_app|done].
Qed.

Lemma check_liquidity_changes_price feed st token :
  recorded_price (check_liquidity_changes feed st).1 token
  = recorded_price st token.
Proof.
  unfold recorded_price, check_liquidity_changes. simpl.
  generalize (price_alerts st). intros pa.
  induction (token_data st) as [|[k d] td IH]; [done|]. csimpl.
  destruct (decide (k = token)) as [->|Hne]; [|done].
  unfold check_liquidity.
  destruct (get_token_liquidity feed token); simpl; [|done].
  destruct (significant _); simpl; [|done].
  by destruct (get_token_info feed token).
Qed.

Lemma check_liquidity_changes_events feed st :
  Forall (fun e => is_price_event e = false)
    (check_liquidity_changes feed st).2.
Proof.
  unfold check_liquidity_changes. simpl. apply Forall_flat_map, Forall_forall.
  intros [k d] _. unfold check_liquidity.
  destruct (get_token_liquidity feed k); simpl; [|constructor].
  destruct (significant _); simpl; [|constructor].
  destruct (get_token_info feed k); simpl; [|constructor].
  apply Forall_fmap, Forall_forall. done.
Qed.

Lemma step_constant st op token p :
  (recorded_price st token = None \/ recorded_price st token = Some p) ->
  answers_price token p op ->
  Forall (fun e => event_token e = token -> is_price_event e = false)
    (step st op).2
  /\ (recorded_price (step st op).1 token = None
      \/ recorded_price (step st op).1 token = Some p).
Proof.
  intros Hrec Hop.
  destruct op as [tid|feed tid tok high low watchlist|tid tok|feed|feed];
    [simpl..|].
  - by split.
  - split; [constructor|]. simpl in Hop. unfold add_price_alert.
    destruct (get_user_by_telegram_id (db st) tid); [|done].
    destruct (get_token_info feed tok); [|done].
    match goal with |- context [match ?w with Some _ => _ | None => (st, _) end]
      => destruct w as [db'|] end; [|done].
    destruct (update_existing _ _ _ _); [done|].
    destruct (dict_mem tok (token_data st)) eqn:Hmem; [done|].
    destruct (get_token_price feed tok) as [price|] eqn:Hprice; [|done].
    destruct (get_token_liquidity feed tok); [|done].
    unfold recorded_price. simpl.
    destruct (decide (tok = token)) as [->|Hne].
    + rewrite dict_get_set_eq. simpl. rewrite Hprice in Hop. right.
      by rewrite Hop.
    + by rewrite dict_get_set_ne.
  - split; [constructor|]. unfold remove_price_alert.
    destruct (dict_get tok (price_alerts st)) as [alerts|]; [|done].
    by destruct (pop_alert tid alerts).
  - simpl in Hop. unfold check_price_alerts, recorded_price in *.
    destruct (check_tokens_constant feed (price_alerts st) (token_data st)
                token p Hrec Hop) as [He Hr].
    destruct (check_tokens feed (price_alerts st) (token_data st)).
    simpl in *. split; [|done].
    eapply Forall_impl; [exact He|]. done.
  - change (step st (OpCheckLiquidity feed))
      with (check_liquidity_changes feed st).
    rewrite check_liquidity_changes_price. split; [|done].
    eapply Forall_impl; [apply check_liquidity_changes_events|]. done.
Qed.

Lemma run_constant st ops token p :
  (recorded_price st token = None \/ recorded_price st token = Some p) ->
  Forall (answers_price token p) ops ->
  Forall (fun e => event_token e = token -> is_price_event e = false)
    (run st ops).2.
Proof.
  revert st. induction ops as [|op ops IH]; intros st Hrec Hops;
    [constructor|].
  apply Forall_cons in Hops. destruct Hops as [Hop Hops]. simpl.
  destruct (step_constant st op token p Hrec Hop) as [He1 Hr1].
  destruct (step st op) as [st1 out1]. simpl in *.
  specialize (IH st1 Hr1 Hops).
  destruct (run st1 ops) as [st2 out2]. simpl in *. by apply Forall_app.
Qed.

(** X6. A price alert needs the price to move: as long as every price query
    for a token that answers gives the same price (as the placeholder of
    utils/tokens.py does), no sequence of registrations, removals and polls
    that starts with empty stores reports a price event for the token,
    whatever the thresholds. *)
Theorem constant_price_never_fires (d : DB) (ops : list Op) (token : string)
    (p : float) :
  Forall (answers_price token p) ops ->
  Forall (fun e => event_token e = token -> is_price_event e = false)
    (run (initial d) ops).2.
Proof. intros Hops. apply (run_constant _ _ token p); [by left|done]. Qed.

(** X6 on the example: an alert with a high threshold of 0.0005 under the
    placeholder price of 0.001. *)
Lemma constant_price_never_fires_witness :
  Forall (fun e => event_token e = "0xT1" -> is_price_event e = false)
    (run (initial Scenario.db0)
       [OpAdd Scenario.feed_no_address "1001" "0xT1"
          (Some 0.0005%float) (Some 0.002%float) None;
        OpCheckPrices Scenario.feed_no_address;
        OpCheckLiquidity Scenario.feed_no_address;
        OpCheckPrices Scenario.feed_no_address]).2.
Proof.
  apply (constant_price_never_fires Scenario.db0 _ "0xT1" 0.001%float).
  repeat (apply Forall_cons_2; [reflexivity || exact I|]).
  apply Forall_nil_2.
Defined.

(** *** One alert, one direction *)

Lemma crossed_not_both (a : Alert) (previous current : float) :
  crossed_high a previous current && crossed_low a previous current = false.
Proof.
  unfold crossed_high, crossed_low.
  destruct (price_high a) as [h|]; [|done].
  destruct (price_low a) as [l|]; [|by rewrite andb_false_r].
  destruct (Float64.lt previous h) eqn:H1; [|by rewrite andb_false_r].
  destruct (Float64.ge current h) eqn:H2; [|by rewrite andb_false_r].
  destruct (Float64.gt previous l) eqn:H3; [|by rewrite !andb_false_r].
  destruct (Float64.le current l) eqn:H4; [|by rewrite !andb_false_r].
  exfalso. unfold Float64.ge in H2. unfold Float64.gt in H3.
  pose proof (lt_le_trans _ _ _ H1 H2) as Hup.
  pose proof (le_lt_trans _ _ _ H4 H3) as Hdown.
  pose proof (lt_asym _ _ Hup). congruence.
Qed.

Lemma is_price_event_for_about tid token :
  about tid token (is_price_event_for tid token).
Proof.
  intros e. unfold is_price_event_for.
  rewrite !andb_true_iff, !bool_decide_eq_true. tauto.
Qed.

Lemma alert_events_price_le tid info token previous current a :
  (count_events (is_price_event_for tid token)
     (alert_events info token previous current a) <= 1)%nat.
Proof.
  pose proof (crossed_not_both a previous current) as Hnot.
  unfold alert_events, count_events.
  destruct (crossed_high a previous current),
           (crossed_low a previous current); simpl in *; try done;
    rewrite ?filter_cons, ?filter_nil; simpl;
    repeat case_decide; simpl; lia.
Qed.

(** X7. In one poll a subscriber gets at most one price event for a token, in
    every state the engine reaches: an alert never fires for its high and its
    low threshold at once, however the two thresholds are ordered. *)
Theorem poll_one_price_event (d : DB) (ops : list Op) (feed : Feed)
    (tid token : string) :
  (count_events (is_price_event_for tid token)
     (check_price_alerts feed (run (initial d) ops).1).2 <= 1)%nat.
Proof.
  apply (poll_at_most tid token).
  - apply is_price_event_for_about.
  - apply run_well_formed, initial_well_formed.
  - intros. apply alert_events_price_le.
Qed.

(** *** Liquidity polls *)

Lemma users_of_subscription st tid token :
  tid ∈ users_of (price_alerts st) token
  <-> is_Some (subscription st tid token).
Proof.
  unfold users_of, subscription. rewrite elem_of_list_to_set.
  generalize (default [] (dict_get token (price_alerts st))). intros l.
  induction l as [|a rest IH]; csimpl.
  - rewrite elem_of_nil. split; [done|]. by intros [? ?].
  - rewrite elem_of_cons. case_bool_decide as Ha.
    + split; [by eexists|]. by left.
    + rewrite <- IH. split; [|by right]. intros [?|?]; [congruence|done].
Qed.

(** X8. A liquidity poll in a state the engine reaches, for a token on record
    whose liquidity and metadata queries answer: a subscriber gets exactly
    one liquidity event if the change against the recorded liquidity (against
    the current one when none is recorded) is significant and the subscriber
    has an alert on the token, and none otherwise; the current liquidity is
    recorded either way. *)
Theorem liquidity_poll_reports (d : DB) (ops : list Op) (feed : Feed)
    (tid token : string) (data : TokenData) (liquidity : LiquidityData)
    (info : TokenInfo) :
  let st := (run (initial d) ops).1 in
  dict_get token (token_data st) = Some data ->
  get_token_liquidity feed token = Some liquidity ->
  get_token_info feed token = Some info ->
  let current := ld_eth_liquidity liquidity in
  let previous := default current (eth_liquidity data) in
  count_events (is_liquidity_for tid token)
    (check_liquidity_changes feed st).2
  = (if significant (change_percent previous current)
        && bool_decide (is_Some (subscription st tid token))
     then 1%nat else 0%nat)
  /\ dict_get token (token_data (check_liquidity_changes feed st).1)
       ≫= eth_liquidity = Some current.
Proof.
  intros st Hget Hliq Hinfo current previous.
  assert (NoDup (dict_keys (token_data st))) as Hnd.
  { apply run_token_data_keys. constructor. }
  destruct (liquidity_alerts_spec feed st tid token data liquidity info
              Hnd Hget Hliq Hinfo) as [Hc Hr].
  split; [|done]. rewrite Hc.
  by rewrite (bool_decide_ext _ _ (users_of_subscription st tid token)).
Qed.

(** X8 on the example: the liquidity of 0xT1 rises from 10 to 15. *)
Lemma liquidity_poll_reports_witness :
  count_events (is_liquidity_for "1001" "0xT1")
    (check_liquidity_changes (Scenario.feed 1.5 15) Scenario.alerts1).2
  = 1%nat
  /\ dict_get "0xT1"
       (token_data
          (check_liquidity_changes (Scenario.feed 1.5 15)
             Scenario.alerts1).1) ≫= eth_liquidity
     = Some 15%float.
Proof.
  exact (liquidity_poll_reports Scenario.db0
           [OpAdd (Scenario.feed 1.5 10) "1001" "0xT1"
              (Some 2%float) (Some 1%float) None]
           (Scenario.feed 1.5 15) "1001" "0xT1"
           {| price_eth := Some 1.5%float;
              price_usd := Some (1.5 * 2500)%float;
              eth_liquidity := Some 10%float;
              token_liquidity := Some 10000%float |}
           {| ld_eth_liquidity := 15; ld_token_liquidity := 10000;
              liquidity_usd := (15 * 2500)%float |}
           Scenario.info0 eq_refl eq_refl eq_refl).
Defined.

Lemma check_liquidity_silent feed pa token data previous liquidity :
  eth_liquidity data = Some previous ->
  Float64.gt previous 0%float = false ->
  get_token_liquidity feed token = Some liquidity ->
  (check_liquidity feed pa token data).2 = []
  /\ eth_liquidity (check_liquidity feed pa token data).1
     = Some (ld_eth_liquidity liquidity).
Proof.
  intros Hprev Hgt Hliq. unfold check_liquidity. rewrite Hliq, Hprev. simpl.
  unfold change_percent. rewrite Hgt.
  change (significant 0%float) with false. done.
Qed.

Lemma check_liquidity_changes_silent feed pa td token data previous
    liquidity :
  NoDup (dict_keys td) ->
  dict_get token td = Some data ->
  eth_liquidity data = Some previous ->
  Float64.gt previous 0%float = false ->
  get_token_liquidity feed token = Some liquidity ->
  Forall (fun e => event_token e <> token)
    (flat_map (fun '(t, d) => (check_liquidity feed pa t d).2) td)
  /\ dict_get token
       ((fun '(t, d) => (t, (check_liquidity feed pa t d).1)) <$> td)
       ≫= eth_liquidity
     = Some (ld_eth_liquidity liquidity).
Proof.
  intros Hnd Hget Hprev Hgt Hliq.
  induction td as [|[k d0] td IH]; [done|].
  unfold dict_keys in Hnd. rewrite fmap_cons, NoDup_cons in Hnd.
  destruct Hnd as [Hnotin Hnd]. simpl in Hnotin, Hget. csimpl.
  destruct (decide (k = token)) as [->|Hne].
  - injection Hget as ->.
    destruct (check_liquidity_silent feed pa token data previous liquidity
                Hprev Hgt Hliq) as [-> Hr].
    simpl. split; [|done].
    apply Forall_flat_map, Forall_forall. intros [k' d'] Hin.
    eapply Forall_impl; [apply check_liquidity_tokens|].
    intros e ->. simpl. intros ->. apply Hnotin.
    apply list_elem_of_fmap. by exists (token, d').
  - destruct (IH Hnd Hget) as [He Hr]. split; [|done].
    apply Forall_app. split; [|done].
    eapply Forall_impl; [apply check_liquidity_tokens|]. simpl. congruence.
Qed.

(** X9. A token whose recorded ETH liquidity is not greater than zero (zero,
    negative or not a number) gives no liquidity event in the next poll,
    whatever the liquidity then is: the change is taken to be 0; the new
    liquidity is recorded all the same. *)
Theorem liquidity_from_nothing_is_silent (d : DB) (ops : list Op)
    (feed : Feed) (token : string) (data : TokenData) (previous : float)
    (liquidity : LiquidityData) :
  let st := (run (initial d) ops).1 in
  dict_get token (token_data st) = Some data ->
  eth_liquidity data = Some previous ->
  Float64.gt previous 0%float = false ->
  get_token_liquidity feed token = Some liquidity ->
  Forall (fun e => event_token e <> token) (check_liquidity_changes feed st).2
  /\ dict_get token (token_data (check_liquidity_changes feed st).1)
       ≫= eth_liquidity = Some (ld_eth_liquidity liquidity).
Proof.
  intros st Hget Hprev Hgt Hliq.
  assert (NoDup (dict_keys (token_data st))) as Hnd.
  { apply run_token_data_keys. constructor. }
  exact (check_liquidity_changes_silent feed (price_alerts st) (token_data st)
           token data previous liquidity Hnd Hget Hprev Hgt Hliq).
Qed.

(** X9 on the example: 0xT1 is registered while its pool is empty; the pool
    then holds 100 ETH. *)
Lemma liquidity_from_nothing_is_silent_witness :
  let st :=
    (run (initial Scenario.db0)
       [OpAdd (Scenario.feed 1.5 0) "1001" "0xT1"
          (Some 2%float) None None]).1 in
  Forall (fun e => event_token e <> "0xT1")
    (check_liquidity_changes (Scenario.feed 1.5 100) st).2
  /\ dict_get "0xT1"
       (token_data (check_liquidity_changes (Scenario.feed 1.5 100) st).1)
       ≫= eth_liquidity
     = Some 100%float.
Proof.
  exact (liquidity_from_nothing_is_silent Scenario.db0
           [OpAdd (Scenario.feed 1.5 0) "1001" "0xT1"
              (Some 2%float) None None]
           (Scenario.feed 1.5 100) "0xT1"
           {| price_eth := Some 1.5%float;
              price_usd := Some (1.5 * 2500)%float;
              eth_liquidity := Some 0%float;
              token_liquidity := Some 10000%float |}
           0%float
           {| ld_eth_liquidity := 100; ld_token_liquidity := 10000;
              liquidity_usd := (100 * 2500)%float |}
           eq_refl eq_refl eq_refl eq_refl).
Defined.

(** *** Records are never dropped *)

Lemma dict_keys_set_prefix {V} k (v : V) d :
  dict_keys d `prefix_of` dict_keys (dict_set k v d).
Proof.
  destruct (decide (k ∈ dict_keys d)) as [Hin|Hnotin].
  - by rewrite dict_keys_set_present.
  - rewrite dict_keys_set_absent by done. by apply prefix_app_r.
Qed.

Lemma check_tokens_prefix feed items td :
  dict_keys td `prefix_of` dict_keys (check_tokens feed items td).1.
Proof.
  revert td. induction items as [|[k v] rest IH]; intros td; [done|].
  simpl.
  assert (dict_keys td `prefix_of` dict_keys (check_token feed k v td).1)
    as H1.
  { unfold check_token. destruct (get_token_price feed k); simpl; [|done].
    apply dict_keys_set_prefix. }
  destruct (check_token feed k v td) as [td1 evs1]. simpl in H1.
  specialize (IH td1). destruct (check_tokens feed rest td1). simpl in *.
  by etrans.
Qed.

Lemma step_token_data_prefix st op :
  dict_keys (token_data st) `prefix_of` dict_keys (token_data (step st op).1).
Proof.
  destruct op as [tid|feed tid token high low watchlist|tid token|feed|feed];
    [simpl..|].
  - done.
  - unfold add_price_alert.
    destruct (get_user_by_telegram_id (db st) tid); [|done].
    destruct (get_token_info feed token); [|done].
    match goal with |- context [match ?w with Some _ => _ | None => (st, _) end]
      => destruct w as [db'|] end; [|done].
    destruct (update_existing _ _ _ _); [done|].
    destruct (dict_mem token (token_data st)); [done|].
    destruct (get_token_price feed token),
             (get_token_liquidity feed token); simpl; try done.
    apply dict_keys_set_prefix.
  - unfold remove_price_alert.
    destruct (dict_get token (price_alerts st)) as [alerts|]; [|done].
    by destruct (pop_alert tid alerts).
  - unfold check_price_alerts.
    pose proof (check_tokens_prefix feed (price_alerts st) (token_data st)).
    by destruct (check_tokens feed (price_alerts st) (token_data st)).
  - change (step st (OpCheckLiquidity feed))
      with (check_liquidity_changes feed st).
    by rewrite check_liquidity_changes_keys.
Qed.

(** X10. No operation of the engine ever drops a token's record: after any
    sequence of registrations, removals and polls the tokens on record are
    those on record before, in the same order, followed by the new ones. *)
Theorem token_records_only_grow (st : State) (ops : list Op) :
  dict_keys (token_data st) `prefix_of` dict_keys (token_data (run st ops).1).
Proof.
  revert st. induction ops as [|op ops IH]; intros st; [done|].
  simpl. pose proof (step_token_data_prefix st op) as H1.
  destruct (step st op) as [st1 out1]. simpl in H1.
  specialize (IH st1). destruct (run st1 ops). simpl in *. by etrans.
Qed.

(** *** A metadata query that fails *)

Lemma check_tokens_no_info feed items td token :
  get_token_info feed token = None ->
  Forall (fun e => event_token e <> token) (check_tokens feed items td).2.
Proof.
  intros Hinfo. revert td.
  induction items as [|[k v] rest IH]; intros td; [constructor|].
  simpl.
  assert (Forall (fun e => event_token e <> token)
            (check_token feed k v td).2) as H1.
  { destruct (decide (k = token)) as [->|Hne].
    - unfold check_token. destruct (get_token_price feed token); simpl;
        [|constructor].
      rewrite check_alerts_no_info by done. constructor.
    - eapply Forall_impl; [apply check_token_tokens|]. simpl. congruence. }
  destruct (check_token feed k v td) as [td1 evs1]. simpl in H1.
  specialize (IH td1). destruct (check_tokens feed rest td1). simpl in *.
  by apply Forall_app.
Qed.

(** X11. A poll in which the price of a listed token is read but its metadata
    query fails reports nothing for the token and still records the price
    read; so the next poll, at the same price, reports nothing for the token
    either: the crossings of that poll are never reported. *)
Theorem failed_metadata_swallows_crossings (feed1 feed2 : Feed) (st : State)
    (token : string) (price price2 : PriceData) :
  token ∈ dict_keys (price_alerts st) ->
  get_token_price feed1 token = Some price ->
  get_token_info feed1 token = None ->
  get_token_price feed2 token = Some price2 ->
  price_in_eth price2 = price_in_eth price ->
  let poll1 := check_price_alerts feed1 st in
  let poll2 := check_price_alerts feed2 poll1.1 in
  Forall (fun e => event_token e <> token) poll1.2
  /\ recorded_price poll1.1 token = Some (price_in_eth price)
  /\ Forall (fun e => event_token e <> token) poll2.2.
Proof.
  intros Hin Hprice Hinfo Hprice2 Hsame poll1 poll2.
  assert (Forall (fun e => event_token e <> token) poll1.2
          /\ recorded_price poll1.1 token = Some (price_in_eth price))
    as [He1 Hr1].
  { unfold poll1, check_price_alerts, recorded_price.
    pose proof (check_tokens_no_info feed1 (price_alerts st) (token_data st)
                  token Hinfo) as He.
    pose proof (check_tokens_records feed1 (price_alerts st) (token_data st)
                  token price Hprice (or_introl Hin)) as Hr.
    by destruct (check_tokens feed1 (price_alerts st) (token_data st)). }
  split; [done|]. split; [done|].
  unfold poll2, check_price_alerts.
  unfold recorded_price in Hr1.
  destruct (check_tokens_constant feed2 (price_alerts poll1.1)
              (token_data poll1.1) token (price_in_eth price)) as [He2 _].
  - by right.
  - by rewrite Hprice2.
  - by destruct (check_tokens feed2 (price_alerts poll1.1)
                   (token_data poll1.1)).
Qed.

(** X11 on the example: the price of 0xT1 rises from 1.5 to 2.5, over the
    high threshold of 2, while the metadata of the token cannot be read. *)
Lemma failed_metadata_swallows_crossings_witness :
  let blind :=
    {| get_token_info := fun _ => None;
       get_token_price := get_token_price (Scenario.feed 2.5 10);
       get_token_liquidity := get_token_liquidity (Scenario.feed 2.5 10);
       is_address := fun _ => true;
       lower := ascii_lower |} in
  let poll1 := check_price_alerts blind Scenario.alerts1 in
  let poll2 := check_price_alerts (Scenario.feed 2.5 10) poll1.1 in
  Forall (fun e => event_token e <> "0xT1") poll1.2
  /\ recorded_price poll1.1 "0xT1" = Some 2.5%float
  /\ Forall (fun e => event_token e <> "0xT1") poll2.2.
Proof.
  assert ("0xT1" ∈ dict_keys (price_alerts Scenario.alerts1)) as Hin
    by (apply (bool_decide_unpack _); vm_compute; exact I).
  exact (failed_metadata_swallows_crossings
           {| get_token_info := fun _ => None;
              get_token_price := get_token_price (Scenario.feed 2.5 10);
              get_token_liquidity :=
                get_token_liquidity (Scenario.feed 2.5 10);
              is_address := fun _ => true;
              lower := ascii_lower |}
           (Scenario.feed 2.5 10) Scenario.alerts1 "0xT1"
           {| price_in_eth := 2.5; price_in_usd := (2.5 * 2500)%float |}
           {| price_in_eth := 2.5; price_in_usd := (2.5 * 2500)%float |}
           Hin eq_refl eq_refl eq_refl eq_refl).
Defined.

(** *** Alerts registered through a watchlist *)

Lemma add_price_alert_watchlist_db feed st tid token high low name wl info :
  is_Some (get_user_by_telegram_id (db st) tid) ->
  get_token_info feed token = Some info ->
  name <> "" ->
  find (fun w => bool_decide (lower feed (watchlist_name w) = lower feed name))
    (get_user_watchlists (db st) tid) = Some wl ->
  db (add_price_alert feed st tid token high low (Some name)).1
  = add_token_to_watchlist (db st) (watchlist_id wl) token (symbol info)
      high low.
Proof.
  intros [u Hu] Hinfo Hname Hfind. unfold add_price_alert.
  rewrite Hu, Hinfo. unfold str_truthy.
  rewrite bool_decide_eq_false_2 by done. cbn [negb from_option id].
  rewrite Hfind.
  destruct (update_existing _ _ _ _); [done|].
  destruct (dict_mem token (token_data st)); [done|].
  by destruct (get_token_price feed token), (get_token_liquidity feed token).
Qed.

(** X12. Every call of [add_price_alert] that names one of the caller's
    watchlists adds a row to the watchlist, also when it only updates the
    caller's alert. Let [wl] be the first of the caller's watchlists whose
    name is the given one up to [str.lower]. After a successful registration
    and a second call with other thresholds, the second call reports an
    update, the subscriber has one alert with the new thresholds, and the
    table has two new rows of [wl] for the token, with distinct ids: one
    holding the old thresholds and one the new, each as a [Float] column
    holds it. *)
Theorem watchlist_rows_accumulate (feed1 feed2 : Feed) (st : State)
    (tid token name : string) (high1 low1 high2 low2 : option float)
    (wl : Watchlist) (info1 info2 : TokenInfo) :
  get_token_info feed1 token = Some info1 ->
  get_token_info feed2 token = Some info2 ->
  name <> "" ->
  lower feed2 = lower feed1 ->
  find (fun w =>
          bool_decide (lower feed1 (watchlist_name w) = lower feed1 name))
    (get_user_watchlists (db st) tid) = Some wl ->
  let first := add_price_alert feed1 st tid token high1 low1 (Some name) in
  let second :=
    add_price_alert feed2 first.1 tid token high2 low2 (Some name) in
  is_error first.2 = false ->
  second.2 = Success "Price alert updated successfully!"
  /\ subscription second.1 tid token
     = Some {| telegram_id := tid; price_high := high2; price_low := low2 |}
  /\ exists r1 r2,
       watchlist_tokens (db second.1)
       = watchlist_tokens (db st) ++ [r1; r2]
       /\ wt_id r1 <> wt_id r2
       /\ (wt_watchlist_id r1, wt_token_address r1,
           alert_price_high r1, alert_price_low r1)
          = (watchlist_id wl, token,
             high1 ≫= float_column, low1 ≫= float_column)
       /\ (wt_watchlist_id r2, wt_token_address r2,
           alert_price_high r2, alert_price_low r2)
          = (watchlist_id wl, token,
             high2 ≫= float_column, low2 ≫= float_column).
Proof.
  intros Hinfo1 Hinfo2 Hname Hlower Hfind first second Hok.
  assert (is_Some (get_user_by_telegram_id (db st) tid)) as Hu.
  { revert Hok. unfold first, add_price_alert.
    by destruct (get_user_by_telegram_id (db st) tid). }
  pose proof (add_price_alert_watchlist_db feed1 st tid token high1 low1 name
                wl info1 Hu Hinfo1 Hname Hfind) as Hdb1.
  fold first in Hdb1.
  assert (is_Some (get_user_by_telegram_id (db first.1) tid)) as Hu1
    by by rewrite Hdb1.
  assert (find (fun w =>
                  bool_decide (lower feed2 (watchlist_name w)
                               = lower feed2 name))
            (get_user_watchlists (db first.1) tid) = Some wl) as Hfind1
    by by rewrite Hdb1, Hlower.
  pose proof (add_price_alert_watchlist_db feed2 first.1 tid token high2 low2
                name wl info2 Hu1 Hinfo2 Hname Hfind1) as Hdb2.
  fold second in Hdb2.
  pose proof (add_price_alert_subscription feed1 st tid token high1 low1
                (Some name) Hok) as Hsub1.
  fold first in Hsub1.
  assert (second.2 = Success "Price alert updated successfully!") as Hres.
  { unfold second, add_price_alert. destruct Hu1 as [u1 ->].
    rewrite Hinfo2. unfold str_truthy.
    rewrite bool_decide_eq_false_2 by done. cbn [negb from_option id].
    rewrite Hfind1.
    destruct (update_existing_of_find tid high2 low2 _ _ Hsub1)
      as [alerts' ->]. done. }
  split; [done|]. split.
  { apply add_price_alert_subscription. fold second. by rewrite Hres. }
  rewrite Hdb2, Hdb1. unfold add_token_to_watchlist. simpl.
  eexists _, _. split; [by rewrite <- app_assoc|]. simpl.
  split; [|done].
  pose proof (CopyTradeFacts.next_id_fresh
                (wt_id <$> watchlist_tokens (db st)
                   ++ [{| wt_id := next_id (wt_id <$> watchlist_tokens (db st));
                          wt_watchlist_id := watchlist_id wl;
                          wt_token_address := token;
                          wt_token_symbol := symbol info1;
                          alert_price_high := high1 ≫= float_column;
                          alert_price_low := low1 ≫= float_column |}]))
    as Hfresh.
  intros Heq. apply Hfresh. rewrite <- Heq, fmap_app.
  apply elem_of_app. right. by left.
Qed.

(** X12 on the example: subscriber 1001 registers on 0xT1 through the
    watchlist "Art", named in lower case, and then raises the threshold. *)
Lemma watchlist_rows_accumulate_witness :
  let first :=
    add_price_alert (Scenario.feed 1.5 10) (initial Scenario.db1)
      "1001" "0xT1" (Some 2%float) None (Some "art") in
  let second :=
    add_price_alert (Scenario.feed 1.5 10) first.1
      "1001" "0xT1" (Some 3%float) None (Some "art") in
  second.2 = Success "Price alert updated successfully!"
  /\ subscription second.1 "1001" "0xT1"
     = Some {| telegram_id := "1001"; price_high := Some 3%float;
               price_low := None |}
  /\ length (watchlist_tokens (db second.1)) = 2%nat.
Proof.
  assert ("art" <> "") as Hname by discriminate.
  destruct (watchlist_rows_accumulate (Scenario.feed 1.5 10)
              (Scenario.feed 1.5 10) (initial Scenario.db1) "1001" "0xT1"
              "art" (Some 2%float) None (Some 3%float) None
              {| watchlist_id := 1; watchlist_user_id := 1;
                 watchlist_name := "Art" |}
              Scenario.info0 Scenario.info0 eq_refl eq_refl Hname eq_refl
              eq_refl eq_refl) as (H1 & H2 & r1 & r2 & H3 & _).
  split; [exact H1|]. split; [exact H2|].
  rewrite H3. reflexivity.
Defined.

End AlertsExtra.

(** ** A monitoring round in which a price query fails *)

Module MonitoringRound.
Import Database Alerts AlertsFacts AlertsExtra.









End MonitoringRound.

(** ** The copy-trade watcher: updates, listings, the life of a subscription *)

Module CopyTradeExtra.
Import Database CopyTrade CopyTradeFacts.

Lemma update_configs_notin cid act slippage sandbox max_eth configs :
  cid ∉ ids configs ->
  update_configs cid act slippage sandbox max_eth configs = None.
Proof.
  induction configs as [|c l IH]; [done|]. unfold ids. csimpl.
  rewrite not_elem_of_cons. intros [Hne Hl].
  rewrite bool_decide_eq_false_2 by congruence. by rewrite IH.
Qed.

(** An update for a config that no wallet lists leaves the wallets alone. *)
Lemma update_wallets_absent cid act slippage sandbox max_eth items mw :
  (forall w l, (w, l) ∈ items -> cid ∉ ids l) ->
  update_wallets cid act slippage sandbox max_eth items mw = (mw, true).
Proof.
  induction items as [|[wallet configs] rest IH]; intros Hno; [done|].
  rewrite update_wallets_cons, update_configs_notin.
  - apply IH. intros w l Hin. apply (Hno w l). by right.
  - apply (Hno wallet configs). by left.
Qed.

Lemma ids_filter_notin cid (l : list UserConfig) :
  cid ∉ ids (filter (fun c => uc_config_id c <> cid) l).
Proof.
  unfold ids. rewrite list_elem_of_fmap. intros (c & -> & Hin).
  by apply list_elem_of_filter in Hin as [Hne _].
Qed.

Lemma filter_pop_length cid (l : list UserConfig) :
  NoDup (ids l) -> cid ∈ ids l ->
  S (length (filter (fun c => uc_config_id c <> cid) l)) = length l.
Proof.
  induction l as [|c l IH]; [by intros _ ?%elem_of_nil|].
  unfold ids. csimpl. rewrite NoDup_cons, elem_of_cons.
  intros [Hnotin Hnd] Hin.
  destruct (decide (uc_config_id c = cid)) as [Hc|Hc].
  - rewrite filter_cons_False by (simpl; tauto).
    rewrite filter_ids_notin; [done|]. by rewrite <- Hc.
  - rewrite filter_cons_True by done. simpl. f_equal. apply IH; [done|].
    destruct Hin as [?|?]; [congruence|done].
Qed.

Lemma update_users st tid cid act slippage sandbox max_eth :
  users (db (update_copy_trading st tid cid act slippage sandbox max_eth).1)
  = users (db st).
Proof.
  unfold update_copy_trading.
  destruct (get_user_by_telegram_id (db st) tid); [|done].
  pose proof (update_copy_trade_config_users (db st) cid act slippage sandbox
                max_eth) as H.
  destruct (update_copy_trade_config _ _ _ _ _ _) as [d [c|]];
    simpl in *; [|done].
  by destruct (update_wallets _ _ _ _ _ _ _).
Qed.

Lemma update_db_ids st tid cid act slippage sandbox max_eth :
  db_ids (db (update_copy_trading st tid cid act slippage sandbox max_eth).1)
  = db_ids (db st).
Proof.
  unfold update_copy_trading.
  destruct (get_user_by_telegram_id (db st) tid); [|done].
  pose proof (update_copy_trade_config_ids (db st) cid act slippage sandbox
                max_eth) as H.
  destruct (update_copy_trade_config _ _ _ _ _ _) as [d [c|]];
    simpl in *; [|done].
  by destruct (update_wallets _ _ _ _ _ _ _).
Qed.

Lemma update_rows st tid cid act slippage sandbox max_eth :
  is_Some (get_user_by_telegram_id (db st) tid) ->
  copy_trade_configs
    (db (update_copy_trading st tid cid act slippage sandbox max_eth).1)
  = (patch_first cid act slippage sandbox max_eth
       (copy_trade_configs (db st))).1.
Proof.
  intros [u Hu]. unfold update_copy_trading, update_copy_trade_config.
  rewrite Hu.
  destruct (patch_first _ _ _ _ _ _) as [rows [c|]]; simpl; [|done].
  by destruct (update_wallets _ _ _ _ _ _ _).
Qed.

(** After a deactivation the entries of any wallet are the former ones
    without the entry of the config. *)
Lemma pause_watchers st tid cid slippage sandbox max_eth w :
  invariant st ->
  is_Some (get_user_by_telegram_id (db st) tid) ->
  cid ∈ db_ids (db st) ->
  watchers
    (update_copy_trading st tid cid (Some false) slippage sandbox max_eth).1 w
  = filter (fun c => uc_config_id c <> cid) (watchers st w).
Proof.
  intros Hinv [u Hu] Hcid.
  unfold update_copy_trading, watchers. rewrite Hu.
  unfold update_copy_trade_config.
  destruct (patch_first_found cid (Some false) slippage sandbox max_eth
              (copy_trade_configs (db st)) Hcid) as (row & Hrow & _).
  destruct (patch_first _ _ _ _ _ _) as [rows r]. simpl in Hrow. subst r.
  destruct Hinv as (Hk & Hl & Hx).
  pose proof (update_wallets_deactivate cid slippage sandbox max_eth
                (monitored_wallets st) (monitored_wallets st) Hk) as Hd.
  destruct (update_wallets _ _ _ _ _ _ _) as [mw fin]. simpl in *.
  rewrite Hd.
  - case_bool_decide as Hin; [done|].
    apply dict_get_None_keys in Hin. by rewrite Hin.
  - intros w0 l. by apply dict_elem_get.
  - intros w0 l Hin. apply (dict_elem_get _ _ _ Hk) in Hin.
    by destruct (Hl w0 l Hin).
  - intros w1 w2 l1 l2 Hne H1 H2.
    apply (dict_elem_get _ _ _ Hk) in H1, H2. by eapply Hx.
Qed.

(** X13. Resuming does not bring a paused subscription back. After a
    deactivation, an update with [active = True] for the same config reports
    success and marks the row of the table active, but no wallet lists the
    config again: the wallets stay as the deactivation left them, and no
    transaction produces a mirror intent for the config. *)
Theorem resume_does_not_restore (st : State) (tid : string) (cid : Z)
    (slippage : option float) (sandbox : option bool)
    (max_eth : option float) (slippage' : option float)
    (sandbox' : option bool) (max_eth' : option float) :
  invariant st ->
  is_Some (get_user_by_telegram_id (db st) tid) ->
  cid ∈ db_ids (db st) ->
  let paused :=
    (update_copy_trading st tid cid (Some false) slippage sandbox max_eth).1 in
  let resumed :=
    update_copy_trading paused tid cid (Some true) slippage' sandbox'
      max_eth' in
  resumed.2 = Success "Copy trading configuration updated successfully!"
  /\ (exists row, row ∈ copy_trade_configs (db resumed.1)
        /\ config_id row = cid /\ active row = true)
  /\ monitored_wallets resumed.1 = monitored_wallets paused
  /\ (forall w, cid ∉ ids (watchers resumed.1 w))
  /\ (forall transaction,
        count_intents cid (tx_hash transaction)
          (process_transaction resumed.1 transaction).2 = 0%nat).
Proof.
  intros Hinv Hu Hcid paused resumed.
  assert (invariant paused) as Hinv1 by by apply update_invariant.
  assert (forall w l, (w, l) ∈ monitored_wallets paused -> cid ∉ ids l)
    as Habsent.
  { intros w l Hin. destruct Hinv1 as (Hk1 & _).
    apply (dict_elem_get _ _ _ Hk1) in Hin.
    pose proof (pause_watchers st tid cid slippage sandbox max_eth w
                  Hinv Hu Hcid) as Hw.
    fold paused in Hw. unfold watchers at 1 in Hw. rewrite Hin in Hw.
    simpl in Hw. rewrite Hw. apply ids_filter_notin. }
  assert (is_Some (get_user_by_telegram_id (db paused) tid)) as Hu1.
  { unfold get_user_by_telegram_id, paused. by rewrite update_users. }
  assert (cid ∈ db_ids (db paused)) as Hcid1.
  { unfold paused. by rewrite update_db_ids. }
  assert (resumed.2 = Success "Copy trading configuration updated successfully!"
          /\ monitored_wallets resumed.1 = monitored_wallets paused)
    as [Hres Hmw].
  { unfold resumed, update_copy_trading. destruct Hu1 as [u1 ->].
    unfold update_copy_trade_config.
    destruct (patch_first_found cid (Some true) slippage' sandbox' max_eth'
                (copy_trade_configs (db paused)) Hcid1) as (row & Hrow & _).
    destruct (patch_first _ _ _ _ _ _) as [rows r]. simpl in Hrow. subst r.
    by rewrite (update_wallets_absent _ _ _ _ _ _ _ Habsent). }
  assert (forall w, cid ∉ ids (watchers resumed.1 w)) as Hnone.
  { intros w. unfold watchers. rewrite Hmw.
    destruct (dict_get w (monitored_wallets paused)) as [l|] eqn:Hget; simpl.
    - apply (Habsent w l). by apply dict_get_Some_elem.
    - apply not_elem_of_nil. }
  split; [done|]. split.
  { destruct (patch_first_found cid (Some true) slippage' sandbox' max_eth'
                (copy_trade_configs (db paused)) Hcid1)
      as (row & _ & Hin & Hid & Hact).
    exists row. unfold resumed. by rewrite update_rows. }
  split; [done|]. split; [done|].
  intros transaction.
  destruct (decide (tx_hash transaction ∈ processed_transactions resumed.1))
    as [Hseen|Hnew].
  - by rewrite process_seen.
  - rewrite process_new by done. by apply intents_other_config.
Qed.

(** X13 on the example: subscriber 1001 pauses config 1 and resumes it. *)
Lemma resume_does_not_restore_witness :
  let paused :=
    (update_copy_trading Scenario.watcher2 "1001" 1 (Some false)
       None None None).1 in
  let resumed :=
    update_copy_trading paused "1001" 1 (Some true) None None None in
  resumed.2 = Success "Copy trading configuration updated successfully!"
  /\ monitored_wallets resumed.1 = monitored_wallets paused.
Proof.
  assert (invariant Scenario.watcher2) as Hinv
    by apply run_invariant, invariant_initial.
  assert (1 ∈ db_ids (db Scenario.watcher2)) as Hcid
    by (apply (bool_decide_unpack _); vm_compute; exact I).
  destruct (resume_does_not_restore Scenario.watcher2 "1001" 1 None None None
              None None None Hinv (mk_is_Some _ _ eq_refl) Hcid)
    as (H1 & _ & H2 & _).
  exact (conj H1 H2).
Defined.

(** *** What a deactivation reports *)

Lemma update_wallets_finished cid slippage sandbox max_eth items mw w l :
  NoDup (dict_keys items) ->
  (w, l) ∈ items -> NoDup (ids l) -> cid ∈ ids l ->
  (forall w' l', (w', l') ∈ items -> w' <> w -> cid ∉ ids l') ->
  (update_wallets cid (Some false) slippage sandbox max_eth items mw).2
  = negb (bool_decide (length l = 1%nat)).
Proof.
  revert mw. induction items as [|[wallet configs] rest IH];
    intros mw Hnd Hin Hl Hcid Hother; [by apply elem_of_nil in Hin|].
  unfold dict_keys in Hnd. rewrite fmap_cons, NoDup_cons in Hnd.
  destruct Hnd as [Hnotin Hnd]. simpl in Hnotin.
  assert (forall w0 l0, (w0, l0) ∈ rest -> w0 <> wallet) as Hrest.
  { intros w0 l0 Hin0 ->. apply Hnotin. apply list_elem_of_fmap.
    by exists (wallet, l0). }
  rewrite update_wallets_cons.
  apply elem_of_cons in Hin as [[= <- <-]|Hin].
  - pose proof (filter_pop_length cid l Hl Hcid) as Hlen.
    destruct (update_configs cid (Some false) slippage sandbox max_eth l)
      as [configs'|] eqn:Hupd.
    + apply update_configs_pop in Hupd; [|done]. subst configs'.
      destruct (filter (fun c => uc_config_id c <> cid) l) as [|c cs].
      * simpl in *. by rewrite bool_decide_eq_true_2.
      * simpl in Hlen. rewrite bool_decide_eq_false_2 by lia. simpl.
        rewrite update_wallets_absent; [done|].
        intros w' l' Hin'. apply (Hother w' l'); [by right|by eapply Hrest].
    + by apply update_configs_None in Hupd.
  - rewrite update_configs_notin.
    + apply IH; try done. intros w' l' Hin' Hne.
      apply (Hother w' l'); [by right|done].
    + apply (Hother wallet configs); [by left|].
      intros ->. by apply (Hrest w l).
Qed.

(** X14. Deactivating the only subscription of a wallet reports an error
    although it is carried out (the wallet's entry is deleted while the
    wallets are being iterated over); deactivating one of several reports
    success. *)
Theorem pausing_last_watcher_reports_error (st : State) (tid w : string)
    (cid : Z) (l : list UserConfig) (slippage : option float)
    (sandbox : option bool) (max_eth : option float) :
  invariant st ->
  is_Some (get_user_by_telegram_id (db st) tid) ->
  cid ∈ db_ids (db st) ->
  dict_get w (monitored_wallets st) = Some l ->
  cid ∈ ids l ->
  let paused :=
    update_copy_trading st tid cid (Some false) slippage sandbox max_eth in
  paused.2
  = (if bool_decide (length l = 1%nat)
     then Error "Error updating copy trading"
     else Success "Copy trading configuration updated successfully!")
  /\ watchers paused.1 w = filter (fun c => uc_config_id c <> cid) l.
Proof.
  intros Hinv Hu Hcid Hget Hin paused. split.
  - destruct Hu as [u Hu]. unfold paused, update_copy_trading. rewrite Hu.
    unfold update_copy_trade_config.
    destruct (patch_first_found cid (Some false) slippage sandbox max_eth
                (copy_trade_configs (db st)) Hcid) as (row & Hrow & _).
    destruct (patch_first _ _ _ _ _ _) as [rows r]. simpl in Hrow. subst r.
    destruct Hinv as (Hk & Hl & Hx).
    pose proof (update_wallets_finished cid slippage sandbox max_eth
                  (monitored_wallets st) (monitored_wallets st) w l Hk) as Hf.
    destruct (update_wallets _ _ _ _ _ _ _) as [mw fin]. simpl in *.
    rewrite Hf.
    + by case_bool_decide.
    + by apply dict_get_Some_elem.
    + by destruct (Hl w l Hget).
    + done.
    + intros w' l' Hin' Hne. apply (dict_elem_get _ _ _ Hk) in Hin'.
      intros Hin''. by apply (Hx w w' l l' cid).
  - unfold paused. rewrite pause_watchers by done. unfold watchers.
    by rewrite Hget.
Qed.

(** X14 on the example: wallet 0xW1 has two subscriptions; the first
    deactivation reports success, the second, of the last one, an error. *)
Lemma pausing_last_watcher_reports_error_witness :
  let first :=
    update_copy_trading Scenario.watcher2 "1001" 1 (Some false)
      None None None in
  let second := update_copy_trading first.1 "1002" 2 (Some false)
      None None None in
  first.2 = Success "Copy trading configuration updated successfully!"
  /\ second.2 = Error "Error updating copy trading"
  /\ watchers second.1 "0xW1" = [].
Proof.
  assert (invariant Scenario.watcher2) as Hinv
    by apply run_invariant, invariant_initial.
  assert (1 ∈ db_ids (db Scenario.watcher2)) as Hcid
    by (apply (bool_decide_unpack _); vm_compute; exact I).
  assert (1 ∈ ids [Scenario.entry1; Scenario.entry2]) as Hin
    by (apply (bool_decide_unpack _); vm_compute; exact I).
  pose proof (pausing_last_watcher_reports_error Scenario.watcher2 "1001"
                "0xW1" 1 [Scenario.entry1; Scenario.entry2] None None None
                Hinv (mk_is_Some _ _ eq_refl) Hcid eq_refl Hin) as [H1 _].
  split; [exact H1|]. split; reflexivity.
Defined.

(** *** An update that does not deactivate *)

Lemma patch_if_notin cid act slippage sandbox max_eth (l : list UserConfig) :
  cid ∉ ids l -> patch_if cid act slippage sandbox max_eth <$> l = l.
Proof.
  induction l as [|c l IH]; [done|]. unfold ids. csimpl.
  rewrite not_elem_of_cons. intros [Hne Hl]. rewrite IH by done.
  unfold patch_if. by rewrite bool_decide_eq_false_2 by congruence.
Qed.

Lemma update_configs_patch cid act slippage sandbox max_eth configs :
  act <> Some false -> NoDup (ids configs) -> cid ∈ ids configs ->
  update_configs cid act slippage sandbox max_eth configs
  = Some (patch_if cid act slippage sandbox max_eth <$> configs).
Proof.
  intros Hact. induction configs as [|c l IH]; [by intros _ ?%elem_of_nil|].
  unfold ids. csimpl. rewrite NoDup_cons, elem_of_cons.
  intros [Hnotin Hnd] Hin. unfold patch_if at 1. case_bool_decide as Hc.
  - rewrite patch_if_notin by by rewrite <- Hc.
    by destruct act as [[]|].
  - destruct Hin as [?|Hin]; [congruence|]. by rewrite IH.
Qed.

Lemma update_wallets_patch cid act slippage sandbox max_eth items mw :
  act <> Some false ->
  NoDup (dict_keys items) ->
  (forall w l, (w, l) ∈ items -> dict_get w mw = Some l) ->
  (forall w l, (w, l) ∈ items -> NoDup (ids l)) ->
  (update_wallets cid act slippage sandbox max_eth items mw).2 = true
  /\ forall w,
       dict_get w (update_wallets cid act slippage sandbox max_eth items mw).1
       = if bool_decide (w ∈ dict_keys items)
         then fmap (M:=list) (patch_if cid act slippage sandbox max_eth)
                <$> dict_get w mw
         else dict_get w mw.
Proof.
  intros Hact. revert mw. induction items as [|[wallet configs] rest IH];
    intros mw Hnd Hitems Hlists.
  - split; [done|]. intros w.
    rewrite bool_decide_eq_false_2; [done|apply not_elem_of_nil].
  - unfold dict_keys in Hnd. rewrite fmap_cons, NoDup_cons in Hnd.
    destruct Hnd as [Hnotin Hnd]. simpl in Hnotin.
    assert (forall w0 l0, (w0, l0) ∈ rest -> w0 <> wallet) as Hrest.
    { intros w0 l0 Hin0 ->. apply Hnotin. apply list_elem_of_fmap.
      by exists (wallet, l0). }
    assert (dict_get wallet mw = Some configs) as Hhead
      by (apply Hitems; by left).
    assert (forall w, w <> wallet ->
              bool_decide (w ∈ dict_keys ((wallet, configs) :: rest))
              = bool_decide (w ∈ dict_keys rest)) as Hkeys.
    { intros w Hne. apply bool_decide_ext. unfold dict_keys.
      rewrite fmap_cons, elem_of_cons. simpl. split; [|by right].
      intros [?|?]; [congruence|done]. }
    assert (bool_decide (wallet ∈ dict_keys ((wallet, configs) :: rest))
            = true) as Hkey.
    { apply bool_decide_eq_true_2. unfold dict_keys. rewrite fmap_cons.
      by left. }
    rewrite update_wallets_cons.
    destruct (decide (cid ∈ ids configs)) as [Hin|Hnotin'].
    + rewrite update_configs_patch by (try done; apply (Hlists wallet); by left).
      destruct configs as [|c0 l0]; [by apply elem_of_nil in Hin|].
      rewrite fmap_cons.
      destruct (IH (dict_set wallet
                      (patch_if cid act slippage sandbox max_eth c0
                       :: (patch_if cid act slippage sandbox max_eth <$> l0))
                      mw)) as [Hfin Hlook].
      * done.
      * intros w0 l1 Hin0. rewrite dict_get_set_ne by (symmetry; eauto).
        apply Hitems. by right.
      * intros w0 l1 Hin0. apply (Hlists w0). by right.
      * split; [done|]. intros w. rewrite Hlook.
        destruct (decide (w = wallet)) as [->|Hne].
        -- rewrite Hkey, bool_decide_eq_false_2 by done.
           by rewrite dict_get_set_eq, Hhead.
        -- rewrite Hkeys by done. by rewrite dict_get_set_ne.
    + rewrite update_configs_notin by done.
      destruct (IH mw) as [Hfin Hlook].
      * done.
      * intros w0 l1 Hin0. apply Hitems. by right.
      * intros w0 l1 Hin0. apply (Hlists w0). by right.
      * split; [done|]. intros w. rewrite Hlook.
        destruct (decide (w = wallet)) as [->|Hne].
        -- rewrite Hkey, bool_decide_eq_false_2 by done.
           rewrite Hhead. simpl. by rewrite patch_if_notin.
        -- by rewrite Hkeys.
Qed.

Lemma patch_if_telegram_id cid act slippage sandbox max_eth cfg :
  uc_telegram_id (patch_if cid act slippage sandbox max_eth cfg)
  = uc_telegram_id cfg.
Proof. unfold patch_if. by case_bool_decide. Qed.

Lemma intents_of_patch d d' transaction cid act slippage sandbox max_eth l :
  users d' = users d ->
  intents_of d' transaction (patch_if cid act slippage sandbox max_eth <$> l)
  = (fun i => {| user_config :=
                   patch_if cid act slippage sandbox max_eth (user_config i);
                 source_tx := source_tx i;
                 source_wallet := source_wallet i |})
      <$> intents_of d transaction l.
Proof.
  intros Hu. unfold intents_of. induction l as [|c l IH]; [done|].
  rewrite fmap_cons.
  rewrite (filter_cons (fun cfg => can_trade d' (uc_telegram_id cfg) : Prop)).
  rewrite (filter_cons (fun cfg => can_trade d (uc_telegram_id cfg) : Prop)).
  rewrite patch_if_telegram_id, (can_trade_users d d') by done.
  destruct (decide (can_trade d (uc_telegram_id c))); csimpl;
    by rewrite IH.
Qed.

(** What an update that does not deactivate reports and does to the
    wallets. *)
Lemma update_patch_lookup st tid cid act slippage sandbox max_eth :
  invariant st ->
  is_Some (get_user_by_telegram_id (db st) tid) ->
  cid ∈ db_ids (db st) ->
  act <> Some false ->
  (update_copy_trading st tid cid act slippage sandbox max_eth).2
  = Success "Copy trading configuration updated successfully!"
  /\ forall w,
       dict_get w
         (monitored_wallets
            (update_copy_trading st tid cid act slippage sandbox max_eth).1)
       = fmap (M:=list) (patch_if cid act slippage sandbox max_eth)
           <$> dict_get w (monitored_wallets st).
Proof.
  intros Hinv [u Hu] Hcid Hact. unfold update_copy_trading. rewrite Hu.
  unfold update_copy_trade_config.
  destruct (patch_first_found cid act slippage sandbox max_eth
              (copy_trade_configs (db st)) Hcid) as (row & Hrow & _).
  destruct (patch_first _ _ _ _ _ _) as [rows r]. simpl in Hrow. subst r.
  destruct Hinv as (Hk & Hl & Hx).
  destruct (update_wallets_patch cid act slippage sandbox max_eth
              (monitored_wallets st) (monitored_wallets st) Hact Hk)
    as [Hfin Hlook].
  - intros w l. by apply dict_elem_get.
  - intros w l Hin. apply (dict_elem_get _ _ _ Hk) in Hin.
    by destruct (Hl w l Hin).
  - destruct (update_wallets _ _ _ _ _ _ _) as [mw fin]. simpl in *.
    subst fin. split; [done|]. intros w. rewrite Hlook.
    case_bool_decide as Hin; [done|].
    apply dict_get_None_keys in Hin. by rewrite Hin.
Qed.

(** X15. An update that does not deactivate ([active] is [True] or not
    given), by any known user and for a config of the table, reports success
    and rewrites the entry of the config where a wallet lists it, leaving
    every other entry, the order of the entries and the set of wallets as
    they are; a transaction not yet processed then produces the intents it
    would have produced before, the one of the config carrying the new
    limits. *)
Theorem update_rewrites_entry (st : State) (tid : string) (cid : Z)
    (act : option bool) (slippage : option float) (sandbox : option bool)
    (max_eth : option float) :
  invariant st ->
  is_Some (get_user_by_telegram_id (db st) tid) ->
  cid ∈ db_ids (db st) ->
  act <> Some false ->
  let updated :=
    update_copy_trading st tid cid act slippage sandbox max_eth in
  updated.2 = Success "Copy trading configuration updated successfully!"
  /\ (forall w,
        dict_get w (monitored_wallets updated.1)
        = fmap (M:=list) (patch_if cid act slippage sandbox max_eth)
            <$> dict_get w (monitored_wallets st))
  /\ (forall transaction,
        tx_hash transaction ∉ processed_transactions st ->
        (process_transaction updated.1 transaction).2
        = (fun i => {| user_config :=
                         patch_if cid act slippage sandbox max_eth
                           (user_config i);
                       source_tx := source_tx i;
                       source_wallet := source_wallet i |})
            <$> (process_transaction st transaction).2).
Proof.
  intros Hinv Hu Hcid Hact updated.
  destruct (update_patch_lookup st tid cid act slippage sandbox max_eth
              Hinv Hu Hcid Hact) as [Hres Hlook].
  fold updated in Hres, Hlook.
  split; [done|]. split; [done|].
  intros transaction Hnew.
  rewrite !process_new by (unfold updated; by rewrite ?update_processed).
  unfold watchers. rewrite Hlook.
  assert (users (db updated.1) = users (db st)) as Husers
    by apply update_users.
  destruct (dict_get (tx_from transaction) (monitored_wallets st)) as [l|];
    simpl.
  - by apply intents_of_patch.
  - done.
Qed.

(** X15 on the example: subscriber 1002 turns the sandbox of config 1, which
    is not theirs, off. *)
Lemma update_rewrites_entry_witness :
  let updated :=
    update_copy_trading Scenario.watcher2 "1002" 1 None None (Some false)
      None in
  updated.2 = Success "Copy trading configuration updated successfully!"
  /\ watchers updated.1 "0xW1"
     = [{| uc_telegram_id := "1001"; uc_config_id := 1;
           uc_slippage_guard := 5; uc_max_eth_per_trade := 0.1;
           uc_sandbox_mode := false; uc_active := None |};
        Scenario.entry2].
Proof.
  assert (invariant Scenario.watcher2) as Hinv
    by apply run_invariant, invariant_initial.
  assert (1 ∈ db_ids (db Scenario.watcher2)) as Hcid
    by (apply (bool_decide_unpack _); vm_compute; exact I).
  assert (@None bool <> Some false) as Hact by discriminate.
  pose proof (update_rewrites_entry Scenario.watcher2 "1002" 1 None None
                (Some false) None Hinv (mk_is_Some _ _ eq_refl) Hcid Hact)
    as [H1 _].
  split; [exact H1|reflexivity].
Defined.

(** *** An update that is turned down *)

Lemma patch_first_absent cid act slippage sandbox max_eth l :
  cid ∉ config_id <$> l ->
  patch_first cid act slippage sandbox max_eth l = (l, None).
Proof.
  induction l as [|c l IH]; [done|]. csimpl.
  rewrite not_elem_of_cons. intros [Hne Hl].
  rewrite bool_decide_eq_false_2 by congruence. by rewrite IH.
Qed.

(** X16. An update for a config id that is not in the table changes nothing,
    neither in the table nor in the stores, and reports an error: that the
    configuration was not found when the caller is a known user. *)
Theorem update_unknown_config_changes_nothing (st : State) (tid : string)
    (cid : Z) (act : option bool) (slippage : option float)
    (sandbox : option bool) (max_eth : option float) :
  cid ∉ db_ids (db st) ->
  let updated :=
    update_copy_trading st tid cid act slippage sandbox max_eth in
  updated.1 = st
  /\ updated.2
     = match get_user_by_telegram_id (db st) tid with
       | Some _ => Error "Configuration not found"
       | None => Error "User not found"
       end.
Proof.
  intros Hcid updated. unfold updated, update_copy_trading.
  destruct (get_user_by_telegram_id (db st) tid); [|done].
  unfold update_copy_trade_config.
  rewrite (patch_first_absent _ _ _ _ _ _ Hcid).
  by destruct st as [[] ? ?].
Qed.

(** X16 on the example: config 7 does not exist. *)
Lemma update_unknown_config_changes_nothing_witness :
  update_copy_trading Scenario.watcher2 "1001" 7 (Some false) None None None
  = (Scenario.watcher2, Error "Configuration not found").
Proof.
  assert (7 ∉ db_ids (db Scenario.watcher2)) as Hcid
    by (apply (bool_decide_unpack _); vm_compute; exact I).
  destruct (update_unknown_config_changes_nothing Scenario.watcher2 "1001" 7
              (Some false) None None None Hcid) as [H1 H2].
  rewrite (surjective_pairing (update_copy_trading _ _ _ _ _ _ _)).
  by rewrite H1, H2.
Defined.

(** *** The processed set *)

Lemma hashes_of_cons op ops :
  hashes_of (op :: ops)
  = (match op with
     | OpProcess transaction => {[ tx_hash transaction ]}
     | _ => ∅
     end) ∪ hashes_of ops.
Proof. destruct op; simpl; try done; by rewrite (left_id_L ∅ (∪)). Qed.

Lemma step_processed_exact st op :
  processed_transactions (step st op).1
  = processed_transactions st
    ∪ (match op with
       | OpProcess transaction => {[ tx_hash transaction ]}
       | _ => ∅
       end).
Proof.
  destruct op; simpl; rewrite ?(right_id_L ∅ (∪)); try done.
  - apply setup_processed.
  - apply update_processed.
  - rewrite process_processed. apply (comm_L (∪)).
Qed.

(** X17. The processed set is never pruned and nothing else is ever put in
    it: after any sequence of operations it holds what it held before and the
    hashes of the transactions that were handed to [process_transaction],
    whether they came from a watched wallet or not. *)
Theorem processed_set_is_history (st : State) (ops : list Op) :
  processed_transactions (run st ops).1
  = processed_transactions st ∪ hashes_of ops.
Proof.
  revert st. induction ops as [|op ops IH]; intros st.
  - simpl. by rewrite (right_id_L ∅ (∪)).
  - rewrite hashes_of_cons. simpl.
    pose proof (step_processed_exact st op) as H1.
    destruct (step st op) as [st1 out1]. simpl in H1.
    specialize (IH st1). destruct (run st1 ops) as [st2 out2]. simpl in *.
    by rewrite IH, H1, (assoc_L (∪)).
Qed.

(** *** Setting up a subscription *)

(** What a set-up that reports success has done. *)
Lemma setup_success feed st tid target slippage max_eth sandbox :
  is_error (setup_copy_trading feed st tid target slippage max_eth sandbox).2
  = false ->
  let st' :=
    (setup_copy_trading feed st tid target slippage max_eth sandbox).1 in
  exists u,
    get_user_by_telegram_id (db st) tid = Some u
    /\ users (db st') = users (db st)
    /\ copy_trade_configs (db st')
       = copy_trade_configs (db st)
         ++ [{| config_id := next_id (db_ids (db st));
                config_user_id := user_id u;
                target_wallet := target;
                slippage_guard := float_column slippage;
                active := true;
                sandbox_mode := sandbox;
                max_eth_per_trade := float_column max_eth |}]
    /\ watchers st' target
       = watchers st target
         ++ [{| uc_telegram_id := tid;
                uc_config_id := next_id (db_ids (db st));
                uc_slippage_guard := slippage;
                uc_max_eth_per_trade := max_eth;
                uc_sandbox_mode := sandbox;
                uc_active := None |}]
    /\ processed_transactions st' = processed_transactions st.
Proof.
  unfold setup_copy_trading, watchers.
  destruct (negb (is_address feed target)); [done|].
  destruct (get_user_by_telegram_id (db st) tid) as [u|] eqn:Hu; [|done].
  destruct (negb (str_truthy (wallet_address u))); [done|].
  unfold create_copy_trade_config. rewrite Hu. simpl. intros _.
  exists u. by rewrite dict_get_set_eq.
Qed.

(** X18. A set-up that reports success shows in the caller's listing: the
    listing of [get_copy_trading_configs] is the former one followed by the
    new configuration, active, with the wallet and the sandbox mode of the
    call, an id that no row of the table had, and the two limits of the call
    as a [Float] column holds them: as they are, except that a NaN is listed
    as [None] and a negative zero as [0.0]. *)
Theorem setup_is_listed (feed : Feed) (st : State) (tid target : string)
    (slippage max_eth : float) (sandbox : bool) :
  is_error (setup_copy_trading feed st tid target slippage max_eth sandbox).2
  = false ->
  let st' :=
    (setup_copy_trading feed st tid target slippage max_eth sandbox).1 in
  let cid := next_id (db_ids (db st)) in
  (cid ∉ db_ids (db st))
  /\ exists before,
       get_copy_trading_configs st tid = Configs before
       /\ get_copy_trading_configs st' tid
          = Configs (before
                     ++ [{| fc_id := cid;
                            fc_target_wallet := target;
                            fc_slippage_guard := float_column slippage;
                            fc_active := true;
                            fc_sandbox_mode := sandbox;
                            fc_max_eth_per_trade :=
                              float_column max_eth |}]).
Proof.
  intros Hok st' cid. split; [apply next_id_fresh|].
  destruct (setup_success feed st tid target slippage max_eth sandbox Hok)
    as (u & Hu & Husers & Hrows & _).
  fold st' in Husers, Hrows.
  unfold get_copy_trading_configs, get_user_copy_trade_configs,
    get_user_by_telegram_id in *.
  rewrite Husers, Hu, Hrows. eexists. split; [done|].
  rewrite filter_app, fmap_app. by rewrite filter_cons_True by done.
Qed.

(** X18 on the example: the listing of subscriber 1002 in the example
    watcher. *)
Lemma setup_is_listed_witness :
  exists before,
    get_copy_trading_configs
      (setup_copy_trading (Scenario.feed 1 10) (initial Scenario.db0)
         "1001" "0xW1" 5 0.1 true).1 "1002" = Configs before
    /\ get_copy_trading_configs Scenario.watcher2 "1002"
       = Configs (before
                  ++ [{| fc_id := 2; fc_target_wallet := "0xW1";
                         fc_slippage_guard := Some 2%float;
                         fc_active := true; fc_sandbox_mode := false;
                         fc_max_eth_per_trade := Some 0.5%float |}]).
Proof.
  exact (proj2 (setup_is_listed (Scenario.feed 1 10)
                  (setup_copy_trading (Scenario.feed 1 10)
                     (initial Scenario.db0) "1001" "0xW1" 5 0.1 true).1
                  "1002" "0xW1" 2 0.5 false eq_refl)).
Defined.

(** X19. Set-ups are not merged: a user who sets up the same wallet twice,
    successfully, is listed twice under the wallet, with two config ids, and
    a transaction of the wallet that was not processed yet then produces two
    more mirror intents than before, one per entry, if the user can trade. *)
Theorem setup_twice_mirrors_twice (feed1 feed2 : Feed) (st : State)
    (tid target : string) (slippage1 max_eth1 : float) (sandbox1 : bool)
    (slippage2 max_eth2 : float) (sandbox2 : bool) :
  let first :=
    setup_copy_trading feed1 st tid target slippage1 max_eth1 sandbox1 in
  let second :=
    setup_copy_trading feed2 first.1 tid target slippage2 max_eth2 sandbox2 in
  is_error first.2 = false ->
  is_error second.2 = false ->
  exists cid1 cid2,
    cid1 <> cid2
    /\ let e1 := {| uc_telegram_id := tid; uc_config_id := cid1;
                    uc_slippage_guard := slippage1;
                    uc_max_eth_per_trade := max_eth1;
                    uc_sandbox_mode := sandbox1; uc_active := None |} in
       let e2 := {| uc_telegram_id := tid; uc_config_id := cid2;
                    uc_slippage_guard := slippage2;
                    uc_max_eth_per_trade := max_eth2;
                    uc_sandbox_mode := sandbox2; uc_active := None |} in
       watchers second.1 target = watchers st target ++ [e1; e2]
       /\ forall transaction,
            tx_from transaction = target ->
            tx_hash transaction ∉ processed_transactions st ->
            can_trade (db st) tid = true ->
            (process_transaction second.1 transaction).2
            = (process_transaction st transaction).2
              ++ [{| user_config := e1; source_tx := tx_hash transaction;
                     source_wallet := target |};
                  {| user_config := e2; source_tx := tx_hash transaction;
                     source_wallet := target |}].
Proof.
  intros first second Hok1 Hok2.
  destruct (setup_success feed1 st tid target slippage1 max_eth1 sandbox1
              Hok1) as (u1 & Hu1 & Husers1 & Hrows1 & Hw1 & Hp1).
  destruct (setup_success feed2 first.1 tid target slippage2 max_eth2
              sandbox2 Hok2) as (u2 & Hu2 & Husers2 & Hrows2 & Hw2 & Hp2).
  fold first in Husers1, Hrows1, Hw1, Hp1.
  fold second in Husers2, Hrows2, Hw2, Hp2.
  exists (next_id (db_ids (db st))), (next_id (db_ids (db first.1))).
  split.
  { intros Heq. apply (next_id_fresh (db_ids (db first.1))).
    rewrite <- Heq. unfold db_ids at 2. rewrite Hrows1, fmap_app.
    apply elem_of_app. right. by left. }
  simpl. split.
  { by rewrite Hw2, Hw1, <- app_assoc. }
  intros transaction Hfrom Hnew Hcan.
  rewrite !process_new by by rewrite ?Hp2, ?Hp1.
  rewrite Hfrom, Hw2, Hw1.
  rewrite (intents_of_users (db st) (db second.1)) by congruence.
  unfold intents_of. rewrite !filter_app, !fmap_app.
  rewrite !filter_cons_True by (simpl; by rewrite Hcan).
  rewrite filter_nil, Hfrom. by rewrite <- app_assoc.
Qed.

(** X19 on the example: subscriber 1001 sets up wallet 0xW1 twice. *)
Lemma setup_twice_mirrors_twice_witness :
  let first :=
    setup_copy_trading (Scenario.feed 1 10) (initial Scenario.db0)
      "1001" "0xW1" 5 0.1 true in
  let second :=
    setup_copy_trading (Scenario.feed 1 10) first.1 "1001" "0xW1" 5 0.1
      true in
  length (watchers second.1 "0xW1") = 2%nat
  /\ length (process_transaction second.1 Scenario.tx_abc).2 = 2%nat.
Proof.
  destruct (setup_twice_mirrors_twice (Scenario.feed 1 10)
              (Scenario.feed 1 10) (initial Scenario.db0) "1001" "0xW1"
              5 0.1 true 5 0.1 true eq_refl eq_refl)
    as (cid1 & cid2 & _ & Hw & Hi).
  split.
  - rewrite Hw. reflexivity.
  - rewrite (Hi Scenario.tx_abc eq_refl); [reflexivity| |reflexivity].
    apply not_elem_of_empty.
Defined.

(** *** The stores in every reachable state *)

Lemma update_wallets_nonempty cid act slippage sandbox max_eth items mw :
  Forall (fun kv : string * list UserConfig => kv.2 <> []) mw ->
  Forall (fun kv : string * list UserConfig => kv.2 <> [])
    (update_wallets cid act slippage sandbox max_eth items mw).1.
Proof.
  revert mw. induction items as [|[wallet configs] rest IH]; intros mw Hmw;
    [done|].
  rewrite update_wallets_cons.
  destruct (update_configs cid act slippage sandbox max_eth configs)
    as [[|c cs]|].
  - simpl. by apply dict_del_Forall.
  - apply IH. by apply dict_set_Forall.
  - by apply IH.
Qed.

Lemma step_wallets_nonempty st op :
  Forall (fun kv : string * list UserConfig => kv.2 <> [])
    (monitored_wallets st) ->
  Forall (fun kv : string * list UserConfig => kv.2 <> [])
    (monitored_wallets (step st op).1).
Proof.
  intros Hne. destruct op as [tid|tid address key
    |feed tid target slippage max_eth sandbox
    |tid cid act slippage sandbox max_eth|transaction]; simpl.
  - done.
  - done.
  - unfold setup_copy_trading.
    destruct (negb (is_address feed target)); [done|].
    destruct (get_user_by_telegram_id (db st) tid) as [u|]; [|done].
    destruct (negb (str_truthy (wallet_address u))); [done|].
    destruct (create_copy_trade_config _ _ _ _ _ _ _) as [d [c|]];
      simpl; [|done].
    apply dict_set_Forall; [|done]. simpl.
    by destruct (default [] (dict_get target (monitored_wallets st))).
  - unfold update_copy_trading.
    destruct (get_user_by_telegram_id (db st) tid); [|done].
    destruct (update_copy_trade_config _ _ _ _ _ _) as [d [c|]]; [|done].
    pose proof (update_wallets_nonempty cid act slippage sandbox max_eth
                  (monitored_wallets st) (monitored_wallets st) Hne) as H.
    by destruct (update_wallets _ _ _ _ _ _ _).
  - unfold process_transaction. case_bool_decide; [done|].
    by destruct (dict_get _ _).
Qed.

Lemma run_wallets_nonempty st ops :
  Forall (fun kv : string * list UserConfig => kv.2 <> [])
    (monitored_wallets st) ->
  Forall (fun kv : string * list UserConfig => kv.2 <> [])
    (monitored_wallets (run st ops).1).
Proof.
  revert st. induction ops as [|op ops IH]; intros st Hne; [done|].
  simpl. pose proof (step_wallets_nonempty st op Hne) as H1.
  destruct (step st op) as [st1 out1]. simpl in H1.
  specialize (IH st1 H1). by destruct (run st1 ops).
Qed.

(** X20. What the stores of the watcher look like in every state it reaches
    from empty stores, through any sequence of user creations, wallet
    updates, set-ups, updates and processed transactions: no wallet is listed
    twice or with an empty list, the entries of a wallet have distinct config
    ids, every config id listed is the id of a row of the table, and no
    config id is listed under two wallets. *)
Theorem reachable_watcher_stores (d : DB) (ops : list Op) :
  invariant (run (initial d) ops).1
  /\ Forall (fun kv : string * list UserConfig => kv.2 <> [])
       (monitored_wallets (run (initial d) ops).1).
Proof.
  split.
  - apply run_invariant, invariant_initial.
  - apply run_wallets_nonempty. constructor.
Qed.

End CopyTradeExtra.

(** ** The table of users *)

Module DatabaseExtra.
Import Database.

Lemma find_snoc {A} (p : A -> bool) (l : list A) (x : A) :
  find p (l ++ [x])
  = match find p l with
    | Some y => Some y
    | None => if p x then Some x else None
    end.
Proof.
  induction l as [|y l IH]; simpl; [done|]. by destruct (p y).
Qed.

(** X21. [create_user] followed by a lookup: the user it returns is the one
    a lookup of the telegram id then finds; a second call for the same id
    returns the same row and adds nothing; a call for an id that is already
    there leaves the table as it is; and the users with other ids are found
    as before. *)
Theorem create_user_then_get (d : DB) (tid : string) :
  let created := create_user d tid in
  is_Some created.2
  /\ get_user_by_telegram_id created.1 tid = created.2
  /\ create_user created.1 tid = created
  /\ (is_Some (get_user_by_telegram_id d tid) -> created.1 = d)
  /\ (forall tid', tid' <> tid ->
        get_user_by_telegram_id created.1 tid'
        = get_user_by_telegram_id d tid').
Proof.
  intros created. unfold created, create_user.
  destruct (get_user_by_telegram_id d tid) as [u|] eqn:Hu; simpl.
  - rewrite Hu. by repeat split.
  - assert (get_user_by_telegram_id
              {| users :=
                   users d
                   ++ [{| user_id := next_id (user_id <$> users d);
                          user_telegram_id := tid;
                          wallet_address := None;
                          encrypted_private_key := None |}];
                 watchlists := watchlists d;
                 watchlist_tokens := watchlist_tokens d;
                 copy_trade_configs := copy_trade_configs d |} tid
            = Some {| user_id := next_id (user_id <$> users d);
                      user_telegram_id := tid;
                      wallet_address := None;
                      encrypted_private_key := None |}) as Hget.
    { unfold get_user_by_telegram_id in *. simpl. rewrite find_snoc, Hu.
      simpl. by rewrite bool_decide_eq_true_2. }
    rewrite Hget. split; [done|]. split; [done|]. split; [done|].
    split; [by intros [? ?]|].
    intros tid' Hne. unfold get_user_by_telegram_id. simpl.
    rewrite find_snoc. simpl. rewrite bool_decide_eq_false_2 by done.
    by destruct (find _ (users d)).
Qed.

Lemma set_wallet_find tid address key l :
  find (fun u => bool_decide (user_telegram_id u = tid))
    (set_wallet tid address key l)
  = (fun u => {| user_id := user_id u;
                 user_telegram_id := user_telegram_id u;
                 wallet_address := Some address;
                 encrypted_private_key := Some key |})
      <$> find (fun u => bool_decide (user_telegram_id u = tid)) l.
Proof.
  induction l as [|u l IH]; [done|]. simpl. case_bool_decide as Hu; simpl.
  - by rewrite bool_decide_eq_true_2.
  - by rewrite bool_decide_eq_false_2.
Qed.

Lemma set_wallet_find_other tid tid' address key l :
  tid' <> tid ->
  find (fun u => bool_decide (user_telegram_id u = tid'))
    (set_wallet tid address key l)
  = find (fun u => bool_decide (user_telegram_id u = tid')) l.
Proof.
  intros Hne. induction l as [|u l IH]; [done|]. simpl.
  case_bool_decide as Hu; simpl.
  - by rewrite !bool_decide_eq_false_2 by congruence.
  - by rewrite IH.
Qed.

Lemma set_wallet_absent tid address key l :
  find (fun u => bool_decide (user_telegram_id u = tid)) l = None ->
  set_wallet tid address key l = l.
Proof.
  induction l as [|u l IH]; [done|]. simpl. case_bool_decide; [done|].
  intros Hfind. by rewrite IH.
Qed.

Lemma set_wallet_ids tid address key l :
  user_id <$> set_wallet tid address key l = user_id <$> l.
Proof.
  induction l as [|u l IH]; [done|]. simpl. case_bool_decide; csimpl; [done|].
  by rewrite IH.
Qed.

(** X22. [update_user_wallet] followed by a lookup: a known user is then found
    with the address and the key of the call and the same id, and passes the
    wallet test of the copy-trade watcher when both are non-empty; for an
    unknown user the table stays as it is; the users with other telegram ids
    are found as before, and the ids of the rows are the same. *)
Theorem update_user_wallet_then_get (d : DB) (tid address key : string) :
  let d' := update_user_wallet d tid address key in
  match get_user_by_telegram_id d tid with
  | Some u =>
      get_user_by_telegram_id d' tid
      = Some {| user_id := user_id u;
                user_telegram_id := user_telegram_id u;
                wallet_address := Some address;
                encrypted_private_key := Some key |}
      /\ CopyTrade.can_trade d' tid
         = negb (bool_decide (address = "")) && negb (bool_decide (key = ""))
  | None => d' = d
  end
  /\ (forall tid', tid' <> tid ->
        get_user_by_telegram_id d' tid' = get_user_by_telegram_id d tid')
  /\ user_id <$> users d' = user_id <$> users d.
Proof.
  intros d'. split; [|split].
  - assert (get_user_by_telegram_id d' tid
            = (fun u => {| user_id := user_id u;
                           user_telegram_id := user_telegram_id u;
                           wallet_address := Some address;
                           encrypted_private_key := Some key |})
                <$> get_user_by_telegram_id d tid) as Hget
      by apply set_wallet_find.
    destruct (get_user_by_telegram_id d tid) as [u|] eqn:Hu.
    + split; [done|]. unfold CopyTrade.can_trade. by rewrite Hget.
    + unfold d', update_user_wallet.
      rewrite (set_wallet_absent tid address key (users d) Hu).
      by destruct d.
  - intros tid' Hne. by apply set_wallet_find_other.
  - apply set_wallet_ids.
Qed.

End DatabaseExtra.

(** ** The buttons under the list of /mirrors *)

Module MirrorButtonsExtra.
Import Database CopyTrade CopyTradeFacts CopyTradeExtra MirrorButtons.

Lemma patch_first_sandbox cid act slippage b max_eth l :
  cid ∈ config_id <$> l ->
  exists c, c ∈ (patch_first cid act slippage (Some b) max_eth l).1
    /\ config_id c = cid /\ sandbox_mode c = b.
Proof.
  induction l as [|c0 l IH]; [by intros ?%elem_of_nil|].
  csimpl. case_bool_decide as Hc.
  - intros _. eexists. split; [left|]. done.
  - intros [?|Hin]%elem_of_cons; [congruence|].
    destruct (IH Hin) as (c & Hc' & Hid & Hb).
    destruct (patch_first cid act slippage (Some b) max_eth l) as [l' r].
    simpl in *. exists c. split; [by right|done].
Qed.

Lemma patch_first_again cid b l :
  (patch_first cid None None (Some b) None
     (patch_first cid None None (Some b) None l).1).1
  = (patch_first cid None None (Some b) None l).1.
Proof.
  induction l as [|c l IH]; [done|]. simpl. case_bool_decide as Hc.
  - simpl. by rewrite bool_decide_eq_true_2.
  - destruct (patch_first cid None None (Some b) None l) as [l' r] eqn:Hl.
    simpl in *. rewrite bool_decide_eq_false_2 by done.
    destruct (patch_first cid None None (Some b) None l') as [l'' r'].
    simpl in *. by rewrite IH.
Qed.

Lemma update_db st tid cid act slippage sandbox max_eth :
  is_Some (get_user_by_telegram_id (db st) tid) ->
  db (update_copy_trading st tid cid act slippage sandbox max_eth).1
  = (update_copy_trade_config (db st) cid act slippage sandbox max_eth).1.
Proof.
  intros [u Hu]. unfold update_copy_trading. rewrite Hu.
  destruct (update_copy_trade_config _ _ _ _ _ _) as [d [c|]]; [|done].
  by destruct (update_wallets _ _ _ _ _ _ _).
Qed.

Lemma patch_if_again cid b cfg :
  patch_if cid None None (Some b) None
    (patch_if cid None None (Some b) None cfg)
  = patch_if cid None None (Some b) None cfg.
Proof.
  unfold patch_if. destruct (decide (uc_config_id cfg = cid)) as [Hc|Hc].
  - rewrite (bool_decide_eq_true_2 _ Hc). simpl.
    by rewrite (bool_decide_eq_true_2 _ Hc).
  - rewrite (bool_decide_eq_false_2 _ Hc).
    by rewrite (bool_decide_eq_false_2 _ Hc).
Qed.

(** X23. The sandbox button does not toggle. It sets the sandbox mode of the
    configuration to the opposite of the mode that the last listing of
    /mirrors stored, not of the mode the configuration has: pressed a second
    time without a new listing it reports success again and changes
    nothing, neither in the table nor in the entries of the wallets. *)
Theorem sandbox_button_is_stale (st : State) (tid : string) (c : Cache)
    (cid : Z) (cfg : FormattedConfig) :
  invariant st ->
  is_Some (get_user_by_telegram_id (db st) tid) ->
  cid ∈ db_ids (db st) ->
  cache_get cid c = Some cfg ->
  let once := mirror_button st tid c (mirror_sandbox cid) in
  let twice := mirror_button once.1 tid c (mirror_sandbox cid) in
  once.2 = Some (Success "Copy trading configuration updated successfully!")
  /\ twice.2
     = Some (Success "Copy trading configuration updated successfully!")
  /\ (exists row, row ∈ copy_trade_configs (db once.1)
        /\ config_id row = cid
        /\ sandbox_mode row = negb (fc_sandbox_mode cfg))
  /\ db twice.1 = db once.1
  /\ (forall w, dict_get w (monitored_wallets twice.1)
                = dict_get w (monitored_wallets once.1)).
Proof.
  intros Hinv Hu Hcid Hcache once twice.
  set (b := negb (fc_sandbox_mode cfg)).
  assert (@None bool <> Some false) as Hact by discriminate.
  set (st1 := (update_copy_trading st tid cid None None (Some b) None).1).
  assert (once = (st1, Some (update_copy_trading st tid cid None None
                               (Some b) None).2)) as Honce.
  { unfold once, mirror_button. rewrite Hcache. fold b.
    by destruct (update_copy_trading st tid cid None None (Some b) None). }
  assert (twice = ((update_copy_trading st1 tid cid None None (Some b)
                      None).1,
                   Some (update_copy_trading st1 tid cid None None (Some b)
                           None).2)) as Htwice.
  { unfold twice. rewrite Honce. unfold mirror_button. simpl.
    rewrite Hcache. fold b.
    by destruct (update_copy_trading st1 tid cid None None (Some b) None). }
  assert (invariant st1) as Hinv1 by by apply update_invariant.
  assert (is_Some (get_user_by_telegram_id (db st1) tid)) as Hu1.
  { unfold get_user_by_telegram_id, st1. by rewrite update_users. }
  assert (cid ∈ db_ids (db st1)) as Hcid1.
  { unfold st1. by rewrite update_db_ids. }
  destruct (update_patch_lookup st tid cid None None (Some b) None
              Hinv Hu Hcid Hact) as [Hres Hlook].
  destruct (update_patch_lookup st1 tid cid None None (Some b) None
              Hinv1 Hu1 Hcid1 Hact) as [Hres1 Hlook1].
  rewrite Htwice, Honce. simpl.
  split; [by rewrite Hres|]. split; [by rewrite Hres1|]. split.
  { destruct (patch_first_sandbox cid None None b None
                (copy_trade_configs (db st)) Hcid) as (row & Hin & Hid & Hb).
    exists row. unfold st1. by rewrite update_rows. }
  split.
  - assert (db st1
            = (update_copy_trade_config (db st) cid None None (Some b)
                 None).1) as Hdb1
      by (unfold st1; by apply update_db).
    rewrite (update_db st1) by done. rewrite Hdb1.
    unfold update_copy_trade_config.
    pose proof (patch_first_again cid b (copy_trade_configs (db st))) as Hp.
    destruct (patch_first cid None None (Some b) None
                (copy_trade_configs (db st))) as [rows r].
    simpl in *.
    destruct (patch_first cid None None (Some b) None rows) as [rows' r'].
    simpl in *. by subst rows'.
  - intros w. rewrite Hlook1. fold st1 in Hlook. rewrite Hlook.
    destruct (dict_get w (monitored_wallets st)) as [l|]; simpl; [|done].
    f_equal. rewrite <- list_fmap_compose. apply list_fmap_ext.
    intros i x _. apply patch_if_again.
Qed.

(** X23 on the example: config 1 was listed with its sandbox on; subscriber
    1001 presses the sandbox button twice. *)
Lemma sandbox_button_is_stale_witness :
  let c := mirrors_command Scenario.watcher2 "1001" [] in
  let once := mirror_button Scenario.watcher2 "1001" c (mirror_sandbox 1) in
  let twice := mirror_button once.1 "1001" c (mirror_sandbox 1) in
  (exists row, row ∈ copy_trade_configs (db once.1)
     /\ config_id row = 1 /\ sandbox_mode row = false)
  /\ db twice.1 = db once.1.
Proof.
  assert (invariant Scenario.watcher2) as Hinv
    by apply run_invariant, invariant_initial.
  assert (1 ∈ db_ids (db Scenario.watcher2)) as Hcid
    by (apply (bool_decide_unpack _); vm_compute; exact I).
  destruct (sandbox_button_is_stale Scenario.watcher2 "1001"
              (mirrors_command Scenario.watcher2 "1001" []) 1
              {| fc_id := 1; fc_target_wallet := "0xW1";
                 fc_slippage_guard := Some 5%float; fc_active := true;
                 fc_sandbox_mode := true;
                 fc_max_eth_per_trade := Some 0.1%float |}
              Hinv (mk_is_Some _ _ eq_refl) Hcid eq_refl)
    as (_ & _ & H3 & H4 & _).
  exact (conj H3 H4).
Defined.

End MirrorButtonsExtra.

(** ** The checks of the two conversations *)

Module HandlersExtra.
Import Float64 Float64Facts Float64Order.

(** [x <= y] is false exactly when [x] is a NaN or above [y], for [y] not a
    NaN. *)
Lemma le_false (x y : float) :
  is_nan y = false ->
  le x y = false <-> is_nan x = true \/ lt y x = true.
Proof.
  intros Hy. split.
  - intros Hle. destruct (is_nan x) eqn:Hx; [by left|]. right.
    destruct (lt y x) eqn:Hlt; [done|].
    pose proof (not_lt_le y x Hy Hx Hlt). congruence.
  - intros [Hnan|Hlt].
    + by destruct (nan_compare x y Hnan) as (_ & _ & ? & _).
    + apply lt_not_ge in Hlt. by unfold ge in Hlt.
Qed.

Lemma lt_false (x y : float) :
  is_nan y = false ->
  lt x y = false <-> is_nan x = true \/ le y x = true.
Proof.
  intros Hy. split.
  - intros Hlt. destruct (is_nan x) eqn:Hx; [by left|]. right.
    by apply not_lt_le.
  - intros [Hnan|Hle].
    + by destruct (nan_compare x y Hnan) as (? & _).
    + destruct (lt x y) eqn:Hlt; [|done].
      apply lt_not_ge in Hlt. unfold ge, le in *. congruence.
Qed.

(** X24. What the two checks of the copy-trade set-up conversation let
    through: a slippage is accepted exactly when it is a NaN or lies in
    [0.1, 50], a maximum amount exactly when it is a NaN or above zero;
    anything else is asked again. *)
Theorem conversation_limits_accepted (x : float) :
  (CopytradeHandlers.slippage_guard_input x = Some x
   <-> is_nan x = true \/ (le 0.1 x = true /\ le x 50 = true))
  /\ (CopytradeHandlers.slippage_guard_input x = None
      <-> lt x 0.1 = true \/ lt 50 x = true)
  /\ (CopytradeHandlers.max_eth_input x = Some x
      <-> is_nan x = true \/ lt 0 x = true)
  /\ (CopytradeHandlers.max_eth_input x = None <-> le x 0 = true).
Proof.
  unfold CopytradeHandlers.slippage_guard_input,
    CopytradeHandlers.max_eth_input, gt.
  change (PrimFloat.ltb 50 x) with (lt 50 x).
  assert (is_nan 0.1 = false) as H01 by reflexivity.
  assert (is_nan 0 = false) as H0 by reflexivity.
  assert (is_nan x = false -> lt 50 x = false -> le x 50 = true) as Hup
    by (intros ? ?; by apply not_lt_le).
  pose proof (lt_false x 0.1 H01) as Hlow.
  pose proof (le_false x 0 H0) as Hzero.
  split; [|split; [|split]].
  - destruct (lt x 0.1) eqn:H1; simpl.
    + split; [done|]. intros [Hnan|[Hle _]].
      * destruct (nan_compare x 0.1 Hnan) as (? & _). congruence.
      * apply lt_not_ge in H1. unfold ge, le in *. congruence.
    + destruct (lt 50 x) eqn:H2; simpl.
      * split; [done|]. intros [Hnan|[_ Hle]].
        -- destruct (nan_compare x 50 Hnan) as (_ & ? & _). congruence.
        -- apply lt_not_ge in H2. unfold ge, le in *. congruence.
      * split; [|done]. intros _.
        destruct (is_nan x) eqn:Hx; [by left|]. right. split.
        -- destruct (proj1 Hlow eq_refl) as [?|?]; [congruence|done].
        -- by apply Hup.
  - destruct (lt x 0.1), (lt 50 x); simpl; split; try done; try tauto;
      intros [?|?]; done.
  - destruct (le x 0) eqn:H1.
    + split; [done|]. intros Hor. apply Hzero in Hor. congruence.
    + split; [|done]. intros _. by apply Hzero.
  - by destruct (le x 0).
Qed.

Lemma nan_never_high x tid low previous current :
  is_nan x = true ->
  Alerts.crossed_high
    {| Alerts.telegram_id := tid; Alerts.price_high := Some x;
       Alerts.price_low := low |} previous current = false.
Proof.
  intros Hnan. unfold Alerts.crossed_high. simpl.
  destruct (nan_compare x previous Hnan) as (_ & Hlt & _).
  rewrite Hlt. by rewrite andb_false_r.
Qed.

Lemma nan_never_low x tid high previous current :
  is_nan x = true ->
  Alerts.crossed_low
    {| Alerts.telegram_id := tid; Alerts.price_high := high;
       Alerts.price_low := Some x |} previous current = false.
Proof.
  intros Hnan. unfold Alerts.crossed_low. simpl.
  destruct (nan_compare x previous Hnan) as (Hlt & _).
  unfold gt. unfold lt in Hlt. rewrite Hlt. by rewrite andb_false_r.
Qed.

Lemma nan_truthy (x : float) : is_nan x = true -> bool_of_float x = true.
Proof.
  intros Hnan. unfold bool_of_float. rewrite FloatAxioms.eqb_spec.
  assert (Prim2SF x = S754_nan) as ->; [|done].
  destruct (Prim2SF x) as [s|s| |s m e] eqn:E; [| |done|]; exfalso;
    (assert (is_nan x = false) as Hn
       by (apply not_nan_rank; rewrite E; destruct s; by eexists));
    congruence.
Qed.

(** X25. The thresholds that leave the two threshold questions of /addalert:
    when the conversation moves on to the watchlist question at least one
    threshold is set, and every threshold that is set is a NaN or above
    zero, and so passes the truth test that the poll makes before it
    compares. *)
Theorem conversation_thresholds (r1 r2 : AlertHandlers.Reply)
    (ud0 ud1 ud2 : AlertHandlers.UserData) :
  AlertHandlers.price_high_input r1 ud0 = (AlertHandlers.PRICE_LOW, ud1) ->
  AlertHandlers.price_low_input r2 ud1 = (AlertHandlers.WATCHLIST_NAME, ud2) ->
  (is_Some (AlertHandlers.alert_price_high ud2)
   \/ is_Some (AlertHandlers.alert_price_low ud2))
  /\ (forall x,
        AlertHandlers.alert_price_high ud2 = Some x
        \/ AlertHandlers.alert_price_low ud2 = Some x ->
        (is_nan x = true \/ lt 0 x = true) /\ bool_of_float x = true).
Proof.
  intros H1 H2.
  assert (is_nan 0 = false) as H0 by reflexivity.
  assert (forall x, is_nan x = true \/ lt 0 x = true ->
            (is_nan x = true \/ lt 0 x = true) /\ bool_of_float x = true)
    as Htruthy.
  { intros x Hx. split; [done|].
    destruct Hx; [by apply nan_truthy|by apply pos_truthy]. }
  assert (forall x, AlertHandlers.alert_price_high ud1 = Some x ->
                    is_nan x = true \/ lt 0 x = true) as Hhigh.
  { intros x. revert H1. unfold AlertHandlers.price_high_input.
    destruct r1 as [|y|]; [intros [= <-]; done| |done].
    destruct (le y 0) eqn:Hle; [done|]. intros [= <-]. simpl.
    intros [= <-]. by apply (le_false y 0). }
  revert H2. unfold AlertHandlers.price_low_input.
  destruct r2 as [|y|]; [| |done].
  - simpl. destruct (AlertHandlers.alert_price_high ud1) as [h|] eqn:Hh;
      [|done].
    intros [= <-]. simpl. split; [left; by eexists|].
    intros x [[= <-]|?]; [by apply Htruthy, Hhigh|done].
  - destruct (le y 0) eqn:Hle; [done|]. simpl.
    assert (is_nan y = true \/ lt 0 y = true) as Hy by by apply (le_false y 0).
    intros H2.
    assert (ud2 = {| AlertHandlers.alert_price_high :=
                       AlertHandlers.alert_price_high ud1;
                     AlertHandlers.alert_price_low := Some y |}) as ->.
    { by destruct (AlertHandlers.alert_price_high ud1); injection H2. }
    simpl. split; [right; by eexists|].
    intros x [Hx|[= <-]]; apply Htruthy; [by apply Hhigh|done].
Qed.

(** X25 on the example: the user skips the high threshold and gives 0.5 as
    the low one. *)
Lemma conversation_thresholds_witness :
  (is_nan 0.5 = true \/ lt 0 0.5 = true) /\ bool_of_float 0.5 = true.
Proof.
  refine (proj2 (conversation_thresholds AlertHandlers.Skip
                  (AlertHandlers.Number 0.5)
                  {| AlertHandlers.alert_price_high := Some 3%float;
                     AlertHandlers.alert_price_low := None |}
                  {| AlertHandlers.alert_price_high := None;
                     AlertHandlers.alert_price_low := None |}
                  {| AlertHandlers.alert_price_high := None;
                     AlertHandlers.alert_price_low := Some 0.5%float |}
                  eq_refl eq_refl) 0.5%float (or_intror eq_refl)).
Defined.

(** X26. A threshold that is a NaN passes the check of both threshold
    questions, and the alert it gives can never fire: whatever the previous
    and the current price, the poll finds neither threshold crossed. *)
Theorem nan_threshold_never_fires (x : float)
    (ud : AlertHandlers.UserData) :
  is_nan x = true ->
  AlertHandlers.price_high_input (AlertHandlers.Number x) ud
  = (AlertHandlers.PRICE_LOW,
     {| AlertHandlers.alert_price_high := Some x;
        AlertHandlers.alert_price_low := AlertHandlers.alert_price_low ud |})
  /\ AlertHandlers.price_low_input (AlertHandlers.Number x) ud
     = (AlertHandlers.WATCHLIST_NAME,
        {| AlertHandlers.alert_price_high :=
             AlertHandlers.alert_price_high ud;
           AlertHandlers.alert_price_low := Some x |})
  /\ (forall tid low previous current,
        Alerts.crossed_high
          {| Alerts.telegram_id := tid; Alerts.price_high := Some x;
             Alerts.price_low := low |} previous current = false)
  /\ (forall tid high previous current,
        Alerts.crossed_low
          {| Alerts.telegram_id := tid; Alerts.price_high := high;
             Alerts.price_low := Some x |} previous current = false).
Proof.
  intros Hnan.
  destruct (nan_compare x 0 Hnan) as (_ & _ & Hle & _).
  unfold AlertHandlers.price_high_input, AlertHandlers.price_low_input.
  rewrite Hle. simpl. split; [done|]. split.
  - by destruct (AlertHandlers.alert_price_high ud).
  - split; intros; [by apply nan_never_high|by apply nan_never_low].
Qed.

(** X26 on the example: the reply "nan". *)
Lemma nan_threshold_never_fires_witness :
  Alerts.crossed_high
    {| Alerts.telegram_id := "1001"; Alerts.price_high := Some PrimFloat.nan;
       Alerts.price_low := None |} 1 2 = false.
Proof.
  exact (proj1 (proj2 (proj2
           (nan_threshold_never_fires PrimFloat.nan
              {| AlertHandlers.alert_price_high := None;
                 AlertHandlers.alert_price_low := None |} eq_refl)))
           "1001" None 1%float 2%float).
Defined.

End HandlersExtra.
